(** * KYC and sanctions screening: matching and risk-scoring engine

    A shallow embedding of the scoring core of the screening tool, of
    its validators and of the recommendations of its report
    ([utils.py], [kyc_screening.py], [config.py]) together with the
    properties stated about them.

    Conventions of the embedding.
    - A Python [str] is a list of code points.  The character type is
      [ascii], read as the code points U+0000 .. U+00FF; the character
      classes ([str.isspace], the regular expression classes [\w] and [\s])
      and [str.lower] are those of Python on that range.
    - A Python number that is a score is an exact rational ([Q]); the
      source computes scores in binary floating point, whose rounding is
      not modelled.  Scores are compared with [Qeq] ([==]).
    - [dict] objects read with [.get] are association lists; a value is
      [None], a string or a number.
    - An exception is a value of a sum type ([Raise]).
    - [difflib.SequenceMatcher], on which [similarity_ratio] rests, is
      modelled after the CPython implementation (module [Difflib]). *)

From Stdlib Require Import List Arith Bool Lia ZArith QArith Qminmax.
From Stdlib Require Import Sorted Lqa Permutation.
From Stdlib Require Import Ascii.
From Stdlib Require String DecimalString.
Import ListNotations String.StringSyntax.

Close Scope Q_scope.
Open Scope nat_scope.
Delimit Scope string_scope with string.
Bind Scope string_scope with String.string.

(* ================================================================== *)
(** * Python strings *)
(* ================================================================== *)

Module PyStr.

Definition str := list ascii.

(** A literal. *)
Definition lit (s : String.string) : str := String.list_ascii_of_string s.

Definition code (c : ascii) : nat := nat_of_ascii c.

Definition between (lo hi n : nat) : bool := (lo <=? n) && (n <=? hi).

(** [str.isspace] on one character, which is also the class [\s] and
    the separator set of [str.split()] and [str.strip()]. *)
Definition is_space (c : ascii) : bool :=
  let n := code c in
  between 9 13 n || between 28 32 n || (n =? 133) || (n =? 160).

(** The class [\w]: alphanumeric characters and the underscore. *)
Definition is_word (c : ascii) : bool :=
  let n := code c in
  between 48 57 n || between 65 90 n || between 97 122 n || (n =? 95)
  || (n =? 170) || (n =? 178) || (n =? 179) || (n =? 181)
  || (n =? 185) || (n =? 186) || between 188 190 n
  || between 192 214 n || between 216 246 n || between 248 255 n.

Definition lower_char (c : ascii) : ascii :=
  let n := code c in
  if between 65 90 n || between 192 214 n || between 216 222 n
  then ascii_of_nat (n + 32) else c.

(** [text.lower()] *)
Definition lower (text : str) : str := map lower_char text.

Fixpoint lstrip (text : str) : str :=
  match text with
  | c :: rest => if is_space c then lstrip rest else text
  | [] => []
  end.

Definition rstrip (text : str) : str := rev (lstrip (rev text)).

(** [text.strip()] *)
Definition strip (text : str) : str := rstrip (lstrip text).

(** The maximal runs of characters that satisfy [p], left to right. *)
Fixpoint runs (p : ascii -> bool) (text : str) : list str :=
  match text with
  | [] => []
  | c :: rest =>
      if p c then
        match rest with
        | c' :: _ =>
            if p c' then
              match runs p rest with
              | w :: ws => (c :: w) :: ws
              | [] => [[c]]
              end
            else [c] :: runs p rest
        | [] => [[c]]
        end
      else runs p rest
  end.

(** [text.split()]: the runs of characters that are not white space. *)
Definition split (text : str) : list str :=
  runs (fun c => negb (is_space c)) text.

(** [sep.join(parts)] *)
Fixpoint join (sep : str) (parts : list str) : str :=
  match parts with
  | [] => []
  | [w] => w
  | w :: ws => w ++ sep ++ join sep ws
  end.

Definition eqb (s t : str) : bool :=
  if list_eq_dec ascii_dec s t then true else false.

(** [s.startswith(p)] *)
Fixpoint startswith (p s : str) : bool :=
  match p, s with
  | [], _ => true
  | x :: p', y :: s' => Ascii.eqb x y && startswith p' s'
  | _ :: _, [] => false
  end.

(** [sub in s] *)
Fixpoint contains (sub s : str) : bool :=
  startswith sub s ||
  match s with
  | [] => false
  | _ :: s' => contains sub s'
  end.

(** [s[i:i+m]] *)
Definition slice (s : str) (i m : nat) : str := firstn m (skipn i s).

(** [len(set(s))] *)
Definition distinct (s : str) : nat := length (nodup ascii_dec s).

(** [c * n] for a one-character string [c] *)
Definition repeat_char (c : ascii) (n : nat) : str := repeat c n.

(** Lexicographic order of strings by code point, as [sorted] uses it. *)
Fixpoint ltb (s t : str) : bool :=
  match s, t with
  | [], [] => false
  | [], _ :: _ => true
  | _ :: _, [] => false
  | x :: s', y :: t' =>
      if code x <? code y then true
      else if code y <? code x then false
      else ltb s' t'
  end.

Fixpoint insert_sorted (w : str) (ws : list str) : list str :=
  match ws with
  | [] => [w]
  | v :: vs => if ltb w v then w :: ws else v :: insert_sorted w vs
  end.

(** [sorted(tokens)]; equal strings are indistinguishable, so any
    sorting algorithm yields the same list. *)
Definition sorted (ws : list str) : list str :=
  fold_right insert_sorted [] ws.

End PyStr.

(* ================================================================== *)
(** * difflib.SequenceMatcher *)
(* ================================================================== *)

(** [SequenceMatcher(None, a, b)]: no junk predicate, [autojunk] left at
    its default [True].  The dictionaries [b2j] and [j2len] are total
    functions ([j2len] gives 0 for an absent key, which is how the code
    reads it: [j2len.get(j-1, 0)]).  With [isjunk = None] the set [bjunk]
    is empty, so the two loops of [find_longest_match] that absorb junk
    never run and are left out. *)

Module Difflib.

Import PyStr.

Record Match := mkMatch { m_a : nat; m_b : nat; m_size : nat }.

Section Matcher.

Variables a b : str.

Definition elt (s : str) (i : nat) : ascii := nth i s zero.

(** [__chain_b]: an element of [b] is popular when [b] has at least
    200 elements and it occurs more than [len(b) // 100 + 1] times;
    popular elements are deleted from [b2j]. *)
Definition popular (c : ascii) : bool :=
  (200 <=? length b) && (length b / 100 + 1 <? count_occ ascii_dec b c).

Fixpoint indices (c : ascii) (s : str) (j : nat) : list nat :=
  match s with
  | [] => []
  | x :: s' =>
      if Ascii.eqb x c then j :: indices c s' (S j) else indices c s' (S j)
  end.

(** [b2j.get(c, [])] *)
Definition b2j (c : ascii) : list nat :=
  if popular c then [] else indices c b 0.

Definition j2len_t := nat -> nat.

Definition j2len_empty : j2len_t := fun _ => 0.

(** [j2len.get(j-1, 0)]; the key [-1] is never present. *)
Definition j2len_prev (d : j2len_t) (j : nat) : nat :=
  match j with
  | 0 => 0
  | S j' => d j'
  end.

Definition j2len_set (d : j2len_t) (j k : nat) : j2len_t :=
  fun x => if x =? j then k else d x.

(** The loop [for j in b2j.get(a[i], nothing)]. *)
Fixpoint scan_row (blo bhi i : nat) (js : list nat)
         (j2len newj2len : j2len_t) (best : Match) : j2len_t * Match :=
  match js with
  | [] => (newj2len, best)
  | j :: js' =>
      if j <? blo then scan_row blo bhi i js' j2len newj2len best
      else if bhi <=? j then (newj2len, best)
      else
        let k := j2len_prev j2len j + 1 in
        let best' :=
          if m_size best <? k then mkMatch (i + 1 - k) (j + 1 - k) k
          else best in
        scan_row blo bhi i js' j2len (j2len_set newj2len j k) best'
  end.

(** The loop [for i in range(alo, ahi)], over the list of its values. *)
Fixpoint scan_rows (blo bhi : nat) (rows : list nat)
         (j2len : j2len_t) (best : Match) : Match :=
  match rows with
  | [] => best
  | i :: rows' =>
      let '(newj2len, best') :=
        scan_row blo bhi i (b2j (elt a i)) j2len j2len_empty best in
      scan_rows blo bhi rows' newj2len best'
  end.

(** [while besti > alo and bestj > blo and a[besti-1] == b[bestj-1]],
    by recursion on [besti]. *)
Fixpoint extend_left (alo blo besti bestj bestsize : nat) : Match :=
  match besti with
  | 0 => mkMatch besti bestj bestsize
  | S i' =>
      if (alo <? besti) && (blo <? bestj)
         && Ascii.eqb (elt a (besti - 1)) (elt b (bestj - 1))
      then extend_left alo blo i' (bestj - 1) (bestsize + 1)
      else mkMatch besti bestj bestsize
  end.

(** [while besti+bestsize < ahi and bestj+bestsize < bhi and
    a[besti+bestsize] == b[bestj+bestsize]], by recursion on
    [room = ahi - (besti + bestsize)]. *)
Fixpoint extend_right (bhi besti bestj : nat) (room bestsize : nat)
  : Match :=
  match room with
  | 0 => mkMatch besti bestj bestsize
  | S room' =>
      if (bestj + bestsize <? bhi)
         && Ascii.eqb (elt a (besti + bestsize)) (elt b (bestj + bestsize))
      then extend_right bhi besti bestj room' (bestsize + 1)
      else mkMatch besti bestj bestsize
  end.

Definition find_longest_match (alo ahi blo bhi : nat) : Match :=
  let best0 :=
    scan_rows blo bhi (seq alo (ahi - alo)) j2len_empty
              (mkMatch alo blo 0) in
  let best1 :=
    extend_left alo blo (m_a best0) (m_b best0) (m_size best0) in
  extend_right bhi (m_a best1) (m_b best1)
               (ahi - (m_a best1 + m_size best1)) (m_size best1).

Definition range4 := (nat * nat * nat * nat)%type.

Definition push_if (c : bool) (x : range4) (queue : list range4) :=
  if c then x :: queue else queue.

(** The loop [while queue] of [get_matching_blocks]; the head of the
    list is the element that [queue.pop()] returns.  [None] when the
    fuel runs out before the queue is empty. *)
Fixpoint blocks_loop (fuel : nat) (queue : list range4)
         (matching_blocks : list Match) : option (list Match) :=
  match queue with
  | [] => Some matching_blocks
  | (alo, ahi, blo, bhi) :: queue' =>
      match fuel with
      | 0 => None
      | S fuel' =>
          let x := find_longest_match alo ahi blo bhi in
          let '(i, j, k) := (m_a x, m_b x, m_size x) in
          if k =? 0 then blocks_loop fuel' queue' matching_blocks
          else
            let q1 :=
              push_if ((alo <? i) && (blo <? j)) (alo, i, blo, j) queue' in
            let q2 :=
              push_if ((i + k <? ahi) && (j + k <? bhi))
                      (i + k, ahi, j + k, bhi) q1 in
            blocks_loop fuel' q2 (matching_blocks ++ [x])
      end
  end.

(** Every iteration either drops a range or splits it around a block
    of at least one element, so [2 * len(a) + 1] iterations are
    enough (lemma [blocks_loop_enough_fuel]). *)
Definition get_matching_blocks : option (list Match) :=
  blocks_loop (2 * length a + 1) [(0, length a, 0, length b)] [].

(** [sum(triple[-1] for triple in self.get_matching_blocks())].
    Sorting the blocks, merging adjacent ones and appending the
    sentinel [(la, lb, 0)] do not change the sum. *)
Definition matches : nat :=
  match get_matching_blocks with
  | Some blocks => list_sum (map m_size blocks)
  | None => 0
  end.

(** [ratio()] with [_calculate_ratio]: [2.0 * matches / length] when
    [length] is not zero, else [1.0]. *)
Definition ratio : Q :=
  let len := length a + length b in
  if len =? 0 then 1%Q
  else (2 * inject_Z (Z.of_nat matches) / inject_Z (Z.of_nat len))%Q.

End Matcher.

End Difflib.

(* ================================================================== *)
(** * Python values, dictionaries, exceptions *)
(* ================================================================== *)

Inductive pyval :=
| PyNone
| PyStr (s : PyStr.str)
| PyInt (z : Z).

(** Truth value of an object: [None], the empty string and zero are
    false. *)
Definition truthy (v : pyval) : bool :=
  match v with
  | PyNone => false
  | PyStr [] => false
  | PyStr _ => true
  | PyInt z => negb (z =? 0)%Z
  end.

(** [v == w] *)
Definition py_eqb (v w : pyval) : bool :=
  match v, w with
  | PyNone, PyNone => true
  | PyStr s, PyStr t => PyStr.eqb s t
  | PyInt x, PyInt y => (x =? y)%Z
  | _, _ => false
  end.

(** A [dict] with string keys. *)
Definition pydict := list (String.string * pyval).

(** [d.get(key, default)] *)
Fixpoint dict_get (d : pydict) (key : String.string) (default : pyval)
  : pyval :=
  match d with
  | [] => default
  | (k, v) :: d' => if String.eqb k key then v else dict_get d' key default
  end.

Inductive exn :=
| AttributeError
| TypeError.

Inductive result (A : Type) :=
| Ok (x : A)
| Raise (e : exn).

Arguments Ok {A} x.
Arguments Raise {A} e.

Definition bind {A B : Type} (r : result A) (k : A -> result B) : result B :=
  match r with
  | Ok x => k x
  | Raise e => Raise e
  end.

Notation "x <- r ;; k" := (bind r (fun x => k))
  (at level 61, r at next level, right associativity).

(** Scores. *)
Definition Qltb (x y : Q) : bool := negb (Qle_bool y x).
Definition Qgeb (x y : Q) : bool := Qle_bool y x.

(** [max(a, b)]: the first argument unless the second is greater. *)
Definition py_max (x y : Q) : Q := if Qltb x y then y else x.

(** [min(a, b)]: the first argument unless the second is smaller. *)
Definition py_min (x y : Q) : Q := if Qltb y x then y else x.

(** [max(scores) if scores else 0.0] *)
Definition py_max_list (scores : list Q) : Q :=
  match scores with
  | [] => 0%Q
  | s :: rest => fold_left py_max rest s
  end.

(* ================================================================== *)
(** * config.py *)
(* ================================================================== *)

Module Config.

Import PyStr.

(** The dictionary [RISK_SCORING]. *)
Record risk_scoring := {
  pep_penalty : Z;
  high_risk_country_penalty : Z;
  sanction_match_penalty : Z;
  partial_match_penalty : Z;
  age_risk_threshold : Z;
  unusual_id_penalty : Z;
  max_risk_score : Z
}.

(** The entry of [SCREENING_CONFIG] that the engine reads. *)
Record screening_config := {
  name_match_threshold : Z
}.

(** What the engine reads of the configuration module. *)
Record config_module := {
  SCREENING_CONFIG : screening_config;
  RISK_SCORING : risk_scoring;
  HIGH_RISK_COUNTRIES : list str;
  MEDIUM_RISK_COUNTRIES : list str;
  PEP_INDICATORS : list str
}.

Definition config : config_module := {|
  SCREENING_CONFIG := {| name_match_threshold := 85 |};
  RISK_SCORING := {|
    pep_penalty := 30;
    high_risk_country_penalty := 25;
    sanction_match_penalty := 100;
    partial_match_penalty := 50;
    age_risk_threshold := 70;
    unusual_id_penalty := 20;
    max_risk_score := 100
  |};
  HIGH_RISK_COUNTRIES :=
    map lit ["AF"; "IR"; "KP"; "SY"; "YE"; "SD"; "SO"; "IQ"; "LY"; "VE";
             "CU"; "RU"; "BY"; "MM"; "ER"; "ZW"]%string;
  MEDIUM_RISK_COUNTRIES :=
    map lit ["PK"; "NG"; "ET"; "CD"; "TZ"; "KE"; "UG"; "GH"; "CI";
             "CM"]%string;
  PEP_INDICATORS :=
    map lit ["minister"; "president"; "prime minister"; "senator";
             "congress"; "parliament"; "ambassador"; "governor"; "mayor";
             "diplomat"; "secretary"; "commissioner";
             "general"; "colonel"; "major"; "captain"; "admiral";
             "marshal";
             "king"; "queen"; "prince"; "princess"; "emir"; "sultan";
             "sheikh"; "royal";
             "judge"; "justice"; "magistrate"; "prosecutor";
             "director"; "commissioner"; "controller"; "auditor"]%string
|}.

End Config.

(* ================================================================== *)
(** * utils.py: StringUtils *)
(* ================================================================== *)

Module StringUtils.

Import PyStr.

Definition is_word_opt (c : option ascii) : bool :=
  match c with
  | Some x => is_word x
  | None => false
  end.

(** The assertion [\b] between two neighbouring positions; [None] is
    the start or the end of the string. *)
Definition word_boundary (before after : option ascii) : bool :=
  xorb (is_word_opt before) (is_word_opt after).

Definition last_char (prev : option ascii) (s : str) : option ascii :=
  match rev s with
  | c :: _ => Some c
  | [] => prev
  end.

(** A match of [\b{title}\b\.?\s*] that starts at the head of [text],
    [prev] being the character before it: the number of characters
    matched.  [\.?] and [\s*] are greedy and nothing follows them, so
    the first match tried is the one found. *)
Definition match_title (title : str) (prev : option ascii) (text : str)
  : option nat :=
  if word_boundary prev (hd_error text) && startswith title text then
    let rest := skipn (length title) text in
    if word_boundary (last_char prev title) (hd_error rest) then
      let after_dot :=
        match rest with
        | c :: r => if Ascii.eqb c "." then r else rest
        | [] => rest
        end in
      Some (length text - length (lstrip after_dot))
    else None
  else None.

(** [re.sub(rf'\b{title}\b\.?\s*', '', text)], scanning from the left;
    [skip] characters of the current match are still to be dropped. *)
Fixpoint re_sub_title (title : str) (prev : option ascii) (skip : nat)
         (text : str) : str :=
  match text with
  | [] => []
  | c :: rest =>
      match skip with
      | S n => re_sub_title title (Some c) n rest
      | 0 =>
          match match_title title prev text with
          | Some (S n) => re_sub_title title (Some c) n rest
          | _ => c :: re_sub_title title (Some c) 0 rest
          end
      end
  end.

(** [re.sub(r'[^\w\s]', ' ', text)] *)
Definition re_sub_punct (text : str) : str :=
  map (fun c => if is_word c || is_space c then c else " "%char) text.

Definition titles : list str :=
  map lit ["mr"; "mrs"; "ms"; "miss"; "dr"; "prof"; "eng";
           "sir"; "madam"; "lord"; "lady"; "haj"; "sheikh"]%string.

(** [normalize_english].  None of the operations in the [try] block
    raises, so the [except] branch is not taken. *)
Definition normalize_english (text : pyval) : str :=
  match text with
  | PyStr [] => []
  | PyStr t =>
      let text := strip (lower t) in
      let text :=
        fold_left (fun text title => re_sub_title title None 0 text)
                  titles text in
      let text := re_sub_punct text in
      join (lit " ") (split text)
  | _ => []
  end.

(** [similarity_ratio] *)
Definition similarity_ratio (str1 str2 : str) : Q :=
  match str1, str2 with
  | [], _ => 0
  | _, [] => 0
  | _, _ => Difflib.ratio str1 str2 * 100
  end%Q.

(** [_partial_ratio] *)
Definition _partial_ratio (str1 str2 : str) : Q :=
  let '(shorter, longer) :=
    if length str1 <=? length str2 then (str1, str2) else (str2, str1) in
  let m := length shorter in
  let scores :=
    map (fun i => similarity_ratio shorter (slice longer i m))
        (seq 0 (length longer - m + 1)) in
  py_max_list scores.

(** [_token_sort_ratio] *)
Definition _token_sort_ratio (str1 str2 : str) : Q :=
  let tokens1 := sorted (split str1) in
  let tokens2 := sorted (split str2) in
  let sorted1 := join (lit " ") tokens1 in
  let sorted2 := join (lit " ") tokens2 in
  similarity_ratio sorted1 sorted2.

(** [fuzzy_match_names] *)
Definition fuzzy_match_names (name1 name2 : str) (threshold : Q)
  : bool * Q :=
  match name1, name2 with
  | [], _ => (false, 0%Q)
  | _, [] => (false, 0%Q)
  | _, _ =>
      let norm1 := normalize_english (PyStr name1) in
      let norm2 := normalize_english (PyStr name2) in
      let ratio := similarity_ratio norm1 norm2 in
      let partial_ratio := _partial_ratio norm1 norm2 in
      let token_sort_ratio := _token_sort_ratio norm1 norm2 in
      let match_score := py_max (py_max ratio partial_ratio) token_sort_ratio in
      let is_match := Qgeb match_score threshold in
      (is_match, match_score)
  end.

(** [contains_pep_indicator]; an empty [indicators] falls back to
    [config.PEP_INDICATORS], and [text.lower()] needs a string. *)
Definition contains_pep_indicator (text : pyval) (indicators : list str)
  : result bool :=
  if negb (truthy text) then Ok false
  else
    let indicators :=
      match indicators with
      | [] => Config.PEP_INDICATORS Config.config
      | _ => indicators
      end in
    match text with
    | PyStr t =>
        let text_lower := lower t in
        Ok (existsb (fun indicator => contains indicator text_lower)
                    indicators)
    | _ => Raise AttributeError
    end.

End StringUtils.

(* ================================================================== *)
(** * utils.py: DateUtils *)
(* ================================================================== *)

Module DateUtils.

Import PyStr.

Record date := mkDate { year : Z; month : Z; day : Z }.

Section Clock.

(** [datetime.strptime(s, '%Y-%m-%d').date()]; [None] stands for the
    [ValueError] of a string that is not a date. *)
Variable strptime_date : str -> option date.

(** [date.today()] *)
Variable today : date.

(** [(a, b) < (c, d)] on pairs of integers *)
Definition pair_ltb (a b c d : Z) : bool :=
  ((a <? c) || ((a =? c) && (b <? d)))%Z.

(** [calculate_age]; the result [None] is Python's [None].  A value
    that is neither a string nor a date gives [None]. *)
Definition calculate_age (birth_date : pyval) : option Z :=
  if negb (truthy birth_date) then None
  else
    match birth_date with
    | PyStr s =>
        match strptime_date s with
        | Some birth =>
            let age := (year today - year birth)%Z in
            let age :=
              if pair_ltb (month today) (day today)
                          (month birth) (day birth)
              then (age - 1)%Z else age in
            Some age
        | None => None
        end
    | _ => None
    end.

End Clock.

End DateUtils.

(* ================================================================== *)
(** * Match verdicts and risk assessments *)
(* ================================================================== *)

(** The values of the key ['match_type']. *)
Inductive match_type_t := EXACT | PARTIAL | NO_MATCH.

Definition match_type_eqb (x y : match_type_t) : bool :=
  match x, y with
  | EXACT, EXACT | PARTIAL, PARTIAL | NO_MATCH, NO_MATCH => true
  | _, _ => false
  end.

(** The dictionary that [_check_sanction_match] returns. *)
Record match_result := {
  is_match : bool;
  sanction_id : Z;
  sanction_name : pyval;
  sanction_source : pyval;
  match_type : match_type_t;
  match_score : Q;
  name_match_score : Q;
  dob_match : bool;
  nationality_match : bool;
  sanction_risk_level : pyval
}.

(** The values of the key ['risk_level'] of a risk assessment. *)
Inductive risk_level_t := VERY_LOW | LOW | MEDIUM | HIGH | CRITICAL.

Inductive detail_value :=
| DTrue
| DInt (z : Z).

(** [risk_details]: keys in insertion order. *)
Definition details := list (String.string * detail_value).

(** [d[key] = v] *)
Fixpoint details_set (d : details) (key : String.string) (v : detail_value)
  : details :=
  match d with
  | [] => [(key, v)]
  | (k, w) :: d' =>
      if String.eqb k key then (k, v) :: d'
      else (k, w) :: details_set d' key v
  end.

(** [d.get(key, 0)] for a counter *)
Fixpoint details_count (d : details) (key : String.string) : Z :=
  match d with
  | [] => 0
  | (k, w) :: d' =>
      if String.eqb k key then match w with DInt z => z | DTrue => 1 end
      else details_count d' key
  end.

(** The dictionary that [calculate_customer_risk] returns, without its
    time stamp. *)
Record risk_assessment := {
  risk_score : Z;
  risk_level : risk_level_t;
  risk_factors : list PyStr.str;
  risk_details : details
}.

(** The values of the screening result. *)
Inductive disposition :=
| CLEAR
| CLEAR_WITH_WARNING
| REVIEW_REQUIRED
| REJECTED.

(* ================================================================== *)
(** * utils.py: RiskCalculator *)
(* ================================================================== *)

Module RiskCalculator.

Import PyStr Config.

(** [str(v)] inside an f-string *)
Definition format (v : pyval) : str :=
  match v with
  | PyNone => lit "None"
  | PyStr s => s
  | PyInt z => lit (DecimalString.NilZero.string_of_int (Z.to_int z))
  end.

(** [v.lower()] *)
Definition py_lower (v : pyval) : result pyval :=
  match v with
  | PyStr s => Ok (PyStr (lower s))
  | _ => Raise AttributeError
  end.

(** [len(set(v))] *)
Definition py_len_set (v : pyval) : result nat :=
  match v with
  | PyStr s => Ok (distinct s)
  | _ => Raise TypeError
  end.

(** [v == '0' * len(v)] for a string [v] *)
Definition all_zeros (v : pyval) : result bool :=
  match v with
  | PyStr s => Ok (PyStr.eqb s (repeat_char "0"%char (length s)))
  | _ => Raise TypeError
  end.

(** The three variables that the body updates. *)
Record acc := mkAcc {
  acc_score : Z;
  acc_factors : list str;
  acc_details : details
}.

Definition add_score (st : acc) (penalty : Z) : acc :=
  mkAcc (acc_score st + penalty) (acc_factors st) (acc_details st).

Definition add_factor (st : acc) (f : str) : acc :=
  mkAcc (acc_score st) (acc_factors st ++ [f]) (acc_details st).

Definition set_detail (st : acc) (k : String.string) (v : detail_value)
  : acc :=
  mkAcc (acc_score st) (acc_factors st) (details_set (acc_details st) k v).

(** [_determine_risk_level] *)
Definition _determine_risk_level (risk_score : Z) : risk_level_t :=
  if (risk_score >=? 80)%Z then CRITICAL
  else if (risk_score >=? 60)%Z then HIGH
  else if (risk_score >=? 40)%Z then MEDIUM
  else if (risk_score >=? 20)%Z then LOW
  else VERY_LOW.

Section Calculator.

Variable strptime_date : str -> option DateUtils.date.
Variable today : DateUtils.date.

(** [self.config] *)
Variable cfg : config_module.

(** 1. PEP check *)
Definition pep_check (customer_data : pydict) (st : acc) : result acc :=
  occupation <- py_lower (dict_get customer_data "occupation" (PyStr [])) ;;
  pep <- StringUtils.contains_pep_indicator occupation (PEP_INDICATORS cfg) ;;
  if pep then
    let penalty := pep_penalty (RISK_SCORING cfg) in
    let st := add_score st penalty in
    let st := add_factor st (lit "PEP - Politically Exposed Person") in
    let st := set_detail st "pep_detected" DTrue in
    Ok (set_detail st "pep_penalty" (DInt penalty))
  else Ok st.

(** 2. High-risk country check *)
Definition country_check (customer_data : pydict) (st : acc) : acc :=
  let nationality := dict_get customer_data "nationality_code" (PyStr []) in
  if existsb (fun c => py_eqb nationality (PyStr c))
             (HIGH_RISK_COUNTRIES cfg)
  then
    let country_penalty := high_risk_country_penalty (RISK_SCORING cfg) in
    let st := add_score st country_penalty in
    let st :=
      add_factor st (lit "High-risk country: " ++ format nationality) in
    let st := set_detail st "high_risk_country" DTrue in
    set_detail st "country_penalty" (DInt country_penalty)
  else st.

(** 3. Sanction matches: the body of the loop *)
Definition match_step (st : acc) (m : match_result) : acc :=
  if match_type_eqb (match_type m) EXACT then
    let penalty := sanction_match_penalty (RISK_SCORING cfg) in
    let st := add_score st penalty in
    let st :=
      add_factor st
        (lit "Exact sanction match: " ++ format (sanction_name m)) in
    set_detail st "exact_matches"
      (DInt (details_count (acc_details st) "exact_matches" + 1))
  else
    let penalty := partial_match_penalty (RISK_SCORING cfg) in
    let st := add_score st penalty in
    let st :=
      add_factor st
        (lit "Partial sanction match: " ++ format (sanction_name m)) in
    set_detail st "partial_matches"
      (DInt (details_count (acc_details st) "partial_matches" + 1)).

Definition matches_check (sanction_matches : list match_result)
           (st : acc) : acc :=
  fold_left match_step sanction_matches st.

(** 4. Age-based risk *)
Definition age_check (customer_data : pydict) (st : acc) : acc :=
  let dob := dict_get customer_data "date_of_birth" PyNone in
  if truthy dob then
    match DateUtils.calculate_age strptime_date today dob with
    | Some age =>
        if negb (age =? 0)%Z
           && (age >? age_risk_threshold (RISK_SCORING cfg))%Z
        then
          let st := add_score st 15 in
          let st :=
            add_factor st
              (lit "High age risk: " ++ format (PyInt age)
                   ++ lit " years") in
          set_detail st "age_risk" DTrue
        else st
    | None => st
    end
  else st.

(** 5. ID number pattern analysis *)
Definition id_check (customer_data : pydict) (st : acc) : result acc :=
  let id_number := dict_get customer_data "id_number" (PyStr []) in
  if truthy id_number then
    n <- py_len_set id_number ;;
    let st :=
      if n <=? 3 then
        let penalty := unusual_id_penalty (RISK_SCORING cfg) in
        let st := add_score st penalty in
        let st := add_factor st (lit "Suspicious ID number pattern") in
        set_detail st "suspicious_id" DTrue
      else st in
    zeros <- all_zeros id_number ;;
    if zeros then
      let st := add_score st 20 in
      Ok (add_factor st (lit "ID number contains only zeros"))
    else Ok st
  else Ok st.

(** [calculate_customer_risk] *)
Definition calculate_customer_risk (customer_data : pydict)
           (sanction_matches : list match_result)
  : result risk_assessment :=
  let st := mkAcc 0 [] [] in
  st <- pep_check customer_data st ;;
  let st := country_check customer_data st in
  let st := matches_check sanction_matches st in
  let st := age_check customer_data st in
  st <- id_check customer_data st ;;
  let max_score := max_risk_score (RISK_SCORING cfg) in
  let risk_score := Z.min (acc_score st) max_score in
  let risk_level := _determine_risk_level risk_score in
  Ok {| risk_score := risk_score;
        risk_level := risk_level;
        risk_factors := acc_factors st;
        risk_details := acc_details st |}.

End Calculator.

End RiskCalculator.

(* ================================================================== *)
(** * kyc_screening.py: KYCScreeningTool *)
(* ================================================================== *)

Module KYCScreeningTool.

Import PyStr Config.

(** A row of the table [sanctions], as [search_sanctions] returns it
    ([dict(row)]): every column is present, [None] for [NULL], so a
    [.get(column, default)] never yields the default. *)
Record sanction := {
  id : Z;
  full_name_en : pyval;
  alias_en : pyval;
  date_of_birth : pyval;
  nationality_code : pyval;
  list_source : pyval;
  risk_level_col : pyval
}.

(** [_check_sanction_match], block "Name matching" and "Calculate match
    scores": [(name_match_score, alias_match_score)]. *)
Definition name_scores (customer_data : pydict) (sanction : sanction)
  : Q * Q :=
  let customer_name :=
    StringUtils.normalize_english
      (dict_get customer_data "full_name_en" (PyStr [])) in
  let sanction_name := StringUtils.normalize_english (full_name_en sanction) in
  let alias_name := StringUtils.normalize_english (alias_en sanction) in
  let name_match_score :=
    StringUtils.similarity_ratio customer_name sanction_name in
  let alias_match_score :=
    if truthy (PyStr alias_name)
    then StringUtils.similarity_ratio customer_name alias_name
    else 0%Q in
  (name_match_score, alias_match_score).

(** Block "Use the highest score": the value of [match_score] before
    the additional criteria. *)
Definition name_score (customer_data : pydict) (sanction : sanction) : Q :=
  let '(name_match_score, alias_match_score) :=
    name_scores customer_data sanction in
  py_max name_match_score alias_match_score.

(** Block "Determine match type": [(is_match, match_type)]; the module
    reads the global [config]. *)
Definition classify (match_score : Q) : bool * match_type_t :=
  if Qgeb match_score
          (inject_Z (name_match_threshold (SCREENING_CONFIG config)))
  then (true, if Qgeb match_score 95 then EXACT else PARTIAL)
  else (false, NO_MATCH).

(** Block "Additional matching criteria", date of birth:
    [(dob_match, match_score)]. *)
Definition dob_criterion (customer_data : pydict) (sanction : sanction)
           (match_score : Q) : bool * Q :=
  let customer_dob := dict_get customer_data "date_of_birth" PyNone in
  let sanction_dob := date_of_birth sanction in
  if truthy customer_dob && truthy sanction_dob then
    let dob_match := py_eqb customer_dob sanction_dob in
    (dob_match, if dob_match then (match_score + 20)%Q else match_score)
  else (false, match_score).

(** [_check_sanction_match] *)
Definition _check_sanction_match (customer_data : pydict)
           (sanction : sanction) : match_result :=
  let name_match_score := fst (name_scores customer_data sanction) in
  let match_score := name_score customer_data sanction in
  let '(is_match, match_type) := classify match_score in
  let '(dob_match, match_score) :=
    dob_criterion customer_data sanction match_score in
  let nationality_match :=
    py_eqb (dict_get customer_data "nationality_code" PyNone)
           (nationality_code sanction) in
  {| is_match := is_match;
     sanction_id := id sanction;
     sanction_name := full_name_en sanction;
     sanction_source := list_source sanction;
     match_type := match_type;
     match_score := py_min match_score 100;
     name_match_score := name_match_score;
     dob_match := dob_match;
     nationality_match := nationality_match;
     sanction_risk_level := risk_level_col sanction |}.

(** [_determine_screening_result] *)
Definition _determine_screening_result (matches : list match_result)
           (risk_assessment : risk_assessment) : disposition :=
  match matches with
  | [] => CLEAR
  | _ =>
      let exact_matches :=
        filter (fun m => match_type_eqb (match_type m) EXACT) matches in
      match exact_matches with
      | _ :: _ => REJECTED
      | [] =>
          let risk_level := risk_level risk_assessment in
          match risk_level with
          | HIGH | CRITICAL => REVIEW_REQUIRED
          | _ =>
              let partial_matches :=
                filter (fun m => match_type_eqb (match_type m) PARTIAL)
                       matches in
              match partial_matches with
              | _ :: _ => CLEAR_WITH_WARNING
              | [] => CLEAR
              end
          end
      end
  end.

Section Tool.

Variable strptime_date : str -> option DateUtils.date.
Variable today : DateUtils.date.

(** [self.db.search_sanctions]: the candidate entries that the record
    store returns for a search term. *)
Variable search_sanctions : pyval -> list sanction.

(** [_perform_sanctions_screening] *)
Definition _perform_sanctions_screening (customer_data : pydict)
  : list match_result :=
  let name_en := dict_get customer_data "full_name_en" (PyStr []) in
  if truthy name_en then
    let sanctions := search_sanctions name_en in
    filter is_match
           (map (_check_sanction_match customer_data) sanctions)
  else [].

(** The screening steps of [screen_new_customer]: matches, risk
    assessment, screening result.  An exception leaves the [try]
    block before a result is determined; the handler only reports
    it. *)
Definition screen_new_customer (customer_data : pydict)
  : result (list match_result * risk_assessment * disposition) :=
  let matches := _perform_sanctions_screening customer_data in
  risk_assessment <-
    RiskCalculator.calculate_customer_risk
      strptime_date today config customer_data matches ;;
  let screening_result :=
    _determine_screening_result matches risk_assessment in
  Ok (matches, risk_assessment, screening_result).

End Tool.

End KYCScreeningTool.

(* ================================================================== *)
(** * Character classes and conversions of the validators *)
(* ================================================================== *)

(** The Python built-ins that the validators call, on the code points
    U+0000 .. U+00FF, the characters of a string of this embedding.
    Python knows further digit characters, letters and case mappings
    outside that range (Arabic-Indic and circled digits, letters
    without case, the capital sharp s); the properties below speak of
    digits and letters through these functions, [int], [isdigit],
    [isalpha], [isupper], and not through lists of characters. *)

Module PyChars.

Import PyStr.

(** [str.isdigit] on one character of the range: the decimal digits
    and the superscript digits two, three and one. *)
Definition is_digit (c : ascii) : bool :=
  let n := code c in
  between 48 57 n || between 178 179 n || (n =? 185).

(** The class [\d], and the digits that [int] reads: the decimal
    digits. *)
Definition is_decimal (c : ascii) : bool := between 48 57 (code c).

(** The class [[A-Za-z]]. *)
Definition is_letter (c : ascii) : bool :=
  let n := code c in
  between 65 90 n || between 97 122 n.

(** The class [[A-Za-z0-9]]. *)
Definition is_alnum (c : ascii) : bool := is_letter c || is_decimal c.

(** [str.isupper], [str.islower] and [str.isalpha] on one character of
    the range.  (Every letter of the range has a case; Python has
    letters without one.) *)
Definition is_upper (c : ascii) : bool :=
  let n := code c in
  between 65 90 n || between 192 214 n || between 216 222 n.

Definition is_lower (c : ascii) : bool :=
  let n := code c in
  between 97 122 n || (n =? 170) || (n =? 181) || (n =? 186)
  || between 223 246 n || between 248 255 n.

Definition is_alpha (c : ascii) : bool :=
  let n := code c in
  between 65 90 n || between 97 122 n || (n =? 170) || (n =? 181)
  || (n =? 186) || between 192 214 n || between 216 246 n
  || between 248 255 n.

Definition is_nonempty (s : str) : bool :=
  match s with
  | [] => false
  | _ :: _ => true
  end.

(** [s.isdigit()] *)
Definition isdigit (s : str) : bool := is_nonempty s && forallb is_digit s.

(** [s.isalpha()] *)
Definition isalpha (s : str) : bool := is_nonempty s && forallb is_alpha s.

(** [s.isupper()]: there is an upper-case character and no lower-case
    one. *)
Definition isupper (s : str) : bool :=
  existsb is_upper s && negb (existsb is_lower s).

(** [c.upper()] as code points, for a character of the range: the
    sharp s becomes two letters, the micro sign and the y with
    diaeresis leave the range U+0000 .. U+00FF. *)
Definition upper_char (c : ascii) : list nat :=
  let n := code c in
  if between 97 122 n || between 224 246 n || between 248 254 n
  then [n - 32]
  else if n =? 181 then [924]
  else if n =? 223 then [83; 83]
  else if n =? 255 then [376]
  else [n].

(** [s.upper()] as code points *)
Definition upper (s : str) : list nat := flat_map upper_char s.

(** [s.upper() == literal] *)
Definition upper_is (s : str) (literal : String.string) : bool :=
  if list_eq_dec Nat.eq_dec (upper s) (map code (lit literal))
  then true else false.

Definition digit_value (c : ascii) : Z := Z.of_nat (code c - 48).

(** [int(s)] for a string [s] of digit characters of the range
    ([s.isdigit()], or the empty string): the number that decimal
    digits write; [None] stands for the [ValueError] that the empty
    string and a superscript digit raise. *)
Definition int (s : str) : option Z :=
  if is_nonempty s && forallb is_decimal s
  then Some (fold_left (fun n c => (10 * n + digit_value c)%Z) s 0%Z)
  else None.

(** [s[:k]]; a negative [k] counts from the end. *)
Definition prefix (s : str) (k : Z) : str :=
  if (k <? 0)%Z then firstn (length s - Z.to_nat (- k)) s
  else firstn (Z.to_nat k) s.

(** Where [$] matches: at the end of the string and, when the string
    ends with a newline, just before that newline.  A pattern
    [^ ... $] matches [s] when the part between the anchors matches
    one of [before_dollar s] in full. *)
Definition before_dollar (s : str) : list str :=
  match rev s with
  | c :: r => if code c =? 10 then [s; rev r] else [s]
  | [] => [s]
  end.

(** The character of [s] at [i] is [c]. *)
Definition char_at (s : str) (i : nat) (c : ascii) : bool :=
  match nth_error s i with
  | Some x => Ascii.eqb x c
  | None => false
  end.

End PyChars.

(** Exceptions of the validators: [ValueError] besides the two
    above. *)
Inductive exception :=
| ValueError
| Exn (e : exn).

Inductive outcome (A : Type) :=
| Returns (x : A)
| Raises (e : exception).

Arguments Returns {A} x.
Arguments Raises {A} e.

Definition lift {A : Type} (r : result A) : outcome A :=
  match r with
  | Ok x => Returns x
  | Raise e => Raises (Exn e)
  end.

Definition obind {A B : Type} (r : outcome A) (k : A -> outcome B)
  : outcome B :=
  match r with
  | Returns x => k x
  | Raises e => Raises e
  end.

Notation "'let*' x := r 'in' k" := (obind r (fun x => k))
  (at level 10, x pattern, r at level 200, k at level 200).

(* ================================================================== *)
(** * utils.py and config.py: helper functions *)
(* ================================================================== *)

Module Utils.

Import PyStr PyChars.

(** [StringUtils.extract_names] *)
Definition extract_names (full_name : str) : str * str :=
  match full_name with
  | [] => ([], [])
  | _ :: _ =>
      let parts := split (strip full_name) in
      match parts with
      | [] => ([], [])
      | [part] => (part, [])
      | part :: _ => (part, last parts [])
      end
  end.

(** [mask_sensitive_data] *)
Definition mask_sensitive_data (text : str) (visible_chars : Z) : str :=
  if negb (is_nonempty text) || (Z.of_nat (length text) <=? visible_chars)%Z
  then lit "***"
  else prefix text visible_chars ++ lit "***".

(** [config.validate_country_code]; [len] of a number raises
    [TypeError]. *)
Definition validate_country_code (country_code : pyval) : result bool :=
  if negb (truthy country_code) then Ok false
  else
    match country_code with
    | PyStr code =>
        if negb (length code =? 2) then Ok false else Ok (isalpha code)
    | _ => Raise TypeError
    end.

(** [datetime(year, month, day)] returns; it raises [ValueError]
    otherwise. *)
Definition is_leap (year : Z) : bool :=
  ((year mod 4 =? 0) && (negb (year mod 100 =? 0) || (year mod 400 =? 0)))%Z.

Definition days_in_month (year month : Z) : Z :=
  if (month =? 2)%Z then (if is_leap year then 29 else 28)%Z
  else if ((month =? 4) || (month =? 6) || (month =? 9) || (month =? 11))%Z
       then 30%Z
       else 31%Z.

Definition datetime_ok (year month day : Z) : bool :=
  ((1 <=? year) && (year <=? 9999) && (1 <=? month) && (month <=? 12)
   && (1 <=? day) && (day <=? days_in_month year month))%Z.

Section Clock.

(** [datetime.strptime(s, '%Y-%m-%d')]; [None] stands for the
    [ValueError] of a string that is not a date. *)
Variable strptime_date : str -> option DateUtils.date.

(** [DateUtils.is_date_valid] with the default format; [strptime] of
    a number raises [TypeError]. *)
Definition is_date_valid (date_str : pyval) : result bool :=
  if negb (truthy date_str) then Ok false
  else
    match date_str with
    | PyStr s =>
        match strptime_date s with
        | Some _ => Ok true
        | None => Ok false
        end
    | _ => Raise TypeError
    end.

End Clock.

End Utils.

(* ================================================================== *)
(** * utils.py: ValidationUtils *)
(* ================================================================== *)

Module ValidationUtils.

Import PyStr PyChars.

(** [int(...)] where the code calls it *)
Definition py_int (s : str) : outcome Z :=
  match int s with
  | Some n => Returns n
  | None => Raises ValueError
  end.

(** The pattern [[A-Za-z][A-Za-z0-9]*] on a whole string. *)
Definition passport_pattern (s : str) : bool :=
  match s with
  | c :: rest => is_letter c && forallb is_alnum rest
  | [] => false
  end.

(** [re.match(r'^[A-Za-z][A-Za-z0-9]*$', s)] finds a match. *)
Definition re_match_passport (s : str) : bool :=
  existsb passport_pattern (before_dollar s).

(** [validate_id_number]; [id_type.upper()] needs a string. *)
Definition validate_id_number (id_number id_type : pyval)
  : outcome (bool * str) :=
  match id_number with
  | PyStr ((_ :: _) as text) =>
      let id_number := strip text in
      match id_type with
      | PyStr id_type =>
          if upper_is id_type "NATIONAL_ID" then
            if negb (length id_number =? 14) || negb (isdigit id_number)
            then Returns (false, lit "Egyptian National ID must be 14 digits")
            else
              let* century_code := py_int (slice id_number 0 1) in
              if negb ((century_code =? 2) || (century_code =? 3))%Z
              then Returns
                     (false,
                      lit "Invalid century code in Egyptian National ID")
              else
                let* year := py_int (slice id_number 1 2) in
                let* month := py_int (slice id_number 3 2) in
                let* day := py_int (slice id_number 5 2) in
                let year :=
                  if (century_code =? 2)%Z then (year + 1900)%Z
                  else (year + 2000)%Z in
                if Utils.datetime_ok year month day
                then Returns (true, lit "Valid Egyptian National ID")
                else Returns
                       (false,
                        lit "Invalid birth date in Egyptian National ID")
          else if upper_is id_type "PASSPORT" then
            if length id_number <? 6
            then Returns
                   (false,
                    lit "Passport number must be at least 6 characters")
            else if negb (re_match_passport id_number)
            then Returns (false, lit "Invalid passport number format")
            else Returns (true, lit "Valid passport number")
          else
            if length id_number <? 4
            then Returns (false, lit "ID number too short")
            else Returns (true, lit "Valid ID number")
      | _ => Raises (Exn AttributeError)
      end
  | _ => Returns (false, lit "Invalid ID number")
  end.

(** [re.sub(r'[^\d+]', '', phone)] *)
Definition phone_clean (phone : str) : str :=
  filter (fun c => is_decimal c || (code c =? 43)) phone.

(** [validate_phone_number]; [re.sub] on a number raises
    [TypeError]. *)
Definition validate_phone_number (phone : pyval) : result (bool * str) :=
  if negb (truthy phone) then Ok (false, lit "Phone number is required")
  else
    match phone with
    | PyStr phone =>
        let phone_clean := phone_clean phone in
        let international :=
          if startswith (lit "+") phone_clean
             && (10 <=? length phone_clean) && (length phone_clean <=? 15)
          then (true, lit "Valid international phone number")
          else (false, lit "Invalid phone number format") in
        if startswith (lit "+20") phone_clean then
          if length phone_clean =? 13
          then Ok (true, lit "Valid Egyptian phone number")
          else Ok international
        else if startswith (lit "01") phone_clean then
          if length phone_clean =? 11
          then Ok (true, lit "Valid Egyptian phone number")
          else Ok international
        else Ok international
    | _ => Raise TypeError
    end.

(** The classes [[a-zA-Z0-9._%+-]] and [[a-zA-Z0-9.-]]. *)
Definition is_local (c : ascii) : bool :=
  is_alnum c || existsb (Ascii.eqb c) (lit "._%+-").

Definition is_domain (c : ascii) : bool :=
  is_alnum c || existsb (Ascii.eqb c) (lit ".-").

(** The pattern [[a-zA-Z0-9._%+-]+@[a-zA-Z0-9.-]+\.[a-zA-Z]{2,}] on a
    whole string: some [@] at [i] and some dot at [j] cut it into the
    three parts. *)
Definition email_pattern (s : str) : bool :=
  existsb
    (fun i =>
       existsb
         (fun j =>
            let local := firstn i s in
            let domain := slice s (i + 1) (j - (i + 1)) in
            let tld := skipn (j + 1) s in
            (i <? j) && char_at s i "@"%char && char_at s j "."%char
            && is_nonempty local && forallb is_local local
            && is_nonempty domain && forallb is_domain domain
            && (2 <=? length tld) && forallb is_letter tld)
         (seq 0 (length s)))
    (seq 0 (length s)).

(** [re.match(pattern, email)] finds a match. *)
Definition re_match_email (email : str) : bool :=
  existsb email_pattern (before_dollar email).

(** [validate_email]; [re.match] on a number raises [TypeError]. *)
Definition validate_email (email : pyval) : result (bool * str) :=
  if negb (truthy email) then Ok (false, lit "Email is required")
  else
    match email with
    | PyStr email =>
        if re_match_email email
        then Ok (true, lit "Valid email address")
        else Ok (false, lit "Invalid email format")
    | _ => Raise TypeError
    end.

(** [validate_nationality_code]; [len] of a number raises
    [TypeError]. *)
Definition validate_nationality_code (country_code : pyval) : result bool :=
  if negb (truthy country_code) then Ok false
  else
    match country_code with
    | PyStr code =>
        if negb (length code =? 2) then Ok false
        else Ok (isalpha code && isupper code)
    | _ => Raise TypeError
    end.

End ValidationUtils.

(* ================================================================== *)
(** * utils.py: ReportGenerator *)
(* ================================================================== *)

Module ReportGenerator.

Import PyStr.

(** The sentences of [_generate_recommendations].  Each fixed sentence
    is a constructor; the line written for an exact match carries its
    text. *)
Inductive recommendation :=
| NO_MATCHES_FOUND          (* No sanctions matches found - Proceed with
                               standard onboarding *)
| MATCHES_DETECTED          (* Sanctions matches detected - Immediate
                               review required *)
| REJECT_CUSTOMER           (* REJECT customer - Exact matches with
                               sanctioned entities *)
| MATCH_LINE (text : str)
| ENHANCED_DUE_DILIGENCE    (* Enhanced Due Diligence required - Partial
                               matches found *)
| REQUEST_DOCUMENTS         (* Request additional verification documents *)
| MONTHLY_MONITORING        (* Schedule monthly monitoring for first 6
                               months *)
| ESCALATE                  (* Escalate to senior compliance officer for
                               review *)
| ADDITIONAL_CHECKS         (* Conduct additional verification checks *)
| QUARTERLY_REVIEW          (* Schedule quarterly review *)
| STANDARD_MONITORING       (* Standard monitoring procedures applicable *)
| ARCHIVE_DOCUMENTS         (* Ensure all customer documents are properly
                               archived *)
| SCHEDULE_NEXT_REVIEW.     (* Schedule next review based on risk level *)

Definition is_type (t : match_type_t) (m : match_result) : bool :=
  match_type_eqb (match_type m) t.

(** The line written for an exact match:
    [f"   - {match.get('sanction_name')} ({match.get('sanction_source')})"] *)
Definition match_line (m : match_result) : recommendation :=
  MATCH_LINE
    (lit "   - " ++ RiskCalculator.format (sanction_name m)
         ++ lit " (" ++ RiskCalculator.format (sanction_source m)
         ++ lit ")").

(** Whether a recommendation is such a line. *)
Definition is_match_line (r : recommendation) : bool :=
  match r with
  | MATCH_LINE _ => true
  | _ => false
  end.

(** [_generate_recommendations]; [risk_level] is the value of
    [screening_data.get('risk_level', 'LOW')]. *)
Definition _generate_recommendations (risk_level : risk_level_t)
           (matches : list match_result) : list recommendation :=
  let recommendations :=
    match matches with
    | [] => [NO_MATCHES_FOUND]
    | _ :: _ =>
        let recommendations := [MATCHES_DETECTED] in
        let exact_matches := filter (is_type EXACT) matches in
        let recommendations :=
          match exact_matches with
          | _ :: _ =>
              (recommendations ++ [REJECT_CUSTOMER])
              ++ map match_line (firstn 3 exact_matches)
          | [] => recommendations
          end in
        let partial_matches := filter (is_type PARTIAL) matches in
        match partial_matches with
        | _ :: _ => recommendations ++ [ENHANCED_DUE_DILIGENCE]
        | [] => recommendations
        end
    end in
  let recommendations :=
    match risk_level with
    | HIGH | CRITICAL =>
        recommendations
        ++ [REQUEST_DOCUMENTS; MONTHLY_MONITORING; ESCALATE]
    | MEDIUM => recommendations ++ [ADDITIONAL_CHECKS; QUARTERLY_REVIEW]
    | LOW | VERY_LOW => recommendations ++ [STANDARD_MONITORING]
    end in
  recommendations ++ [ARCHIVE_DOCUMENTS; SCHEDULE_NEXT_REVIEW].

(** What [generate_screening_report] computes from the matches: the
    three counters of ['screening_summary'] and the recommendations.
    The other entries of the report copy its arguments. *)
Record report := {
  total_matches : nat;
  exact_matches : nat;
  partial_matches : nat;
  recommendations : list recommendation
}.

Definition generate_screening_report (risk_level : risk_level_t)
           (matches : list match_result) : report :=
  {| total_matches := length matches;
     exact_matches := length (filter (is_type EXACT) matches);
     partial_matches := length (filter (is_type PARTIAL) matches);
     recommendations := _generate_recommendations risk_level matches |}.

End ReportGenerator.

(* ================================================================== *)
(** * kyc_screening.py: validation of the customer record *)
(* ================================================================== *)

Module Onboarding.

Import PyStr Config.

(** The dictionary that [_validate_customer_data] returns. *)
Record validation := {
  is_valid : bool;
  errors : list str;
  warnings : list str
}.

(** What a screening run leaves behind: nothing but the printed errors
    when validation fails, else the matches, the assessment, the result
    and the report. *)
Inductive run :=
| ValidationFailed (errors : list str)
| Screened (matches : list match_result) (assessment : risk_assessment)
           (result : disposition) (report : ReportGenerator.report).

Definition required_fields : list String.string :=
  ["customer_code"; "full_name_en"; "nationality_code"; "id_number"]%string.

Section Tool.

Variable strptime_date : str -> option DateUtils.date.
Variable today : DateUtils.date.
Variable search_sanctions : pyval -> list KYCScreeningTool.sanction.

(** [_validate_customer_data] *)
Definition _validate_customer_data (customer_data : pydict)
  : outcome validation :=
  let errors :=
    map (fun field => lit "Missing required field: " ++ lit field)
        (filter (fun field =>
                   negb (truthy (dict_get customer_data field PyNone)))
                required_fields) in
  let* (id_valid, id_message) :=
    ValidationUtils.validate_id_number
      (dict_get customer_data "id_number" PyNone)
      (dict_get customer_data "id_type" (PyStr (lit "PASSPORT"))) in
  let errors :=
    if negb id_valid then errors ++ [lit "ID Validation: " ++ id_message]
    else errors in
  let dob := dict_get customer_data "date_of_birth" PyNone in
  let* dob_invalid :=
    if truthy dob then
      let* valid := lift (Utils.is_date_valid strptime_date dob) in
      Returns (negb valid)
    else Returns false in
  let warnings :=
    if dob_invalid
    then [lit "Date of birth format is invalid (expected YYYY-MM-DD)"]
    else [] in
  let nationality := dict_get customer_data "nationality_code" (PyStr []) in
  let* nationality_valid :=
    lift (ValidationUtils.validate_nationality_code nationality) in
  let errors :=
    if negb nationality_valid
    then errors
         ++ [lit "Invalid nationality code (must be 2-letter ISO code)"]
    else errors in
  let warnings :=
    if existsb (fun c => py_eqb nationality (PyStr c))
               (HIGH_RISK_COUNTRIES config)
    then warnings
         ++ [lit "Customer from high-risk country: "
             ++ RiskCalculator.format nationality]
    else warnings in
  let occupation := dict_get customer_data "occupation" (PyStr []) in
  let* pep :=
    lift (StringUtils.contains_pep_indicator
            occupation (PEP_INDICATORS config)) in
  let warnings :=
    if pep
    then warnings
         ++ [lit "Customer may be a Politically Exposed Person (PEP)"]
    else warnings in
  Returns {| is_valid := length errors =? 0;
             errors := errors;
             warnings := warnings |}.

(** [_generate_screening_report]: the report for the risk level of
    the assessment. *)
Definition _generate_screening_report (matches : list match_result)
           (risk_assessment : risk_assessment) : ReportGenerator.report :=
  ReportGenerator.generate_screening_report
    (risk_level risk_assessment) matches.

(** [screen_new_customer] from the collected record on: validation,
    then the screening steps, then the report. *)
Definition screen_collected_customer (customer_data : pydict)
  : outcome run :=
  let* validation_result := _validate_customer_data customer_data in
  if negb (is_valid validation_result)
  then Returns (ValidationFailed (errors validation_result))
  else
    let* (matches, risk_assessment, screening_result) :=
      lift (KYCScreeningTool.screen_new_customer
              strptime_date today search_sanctions customer_data) in
    let report := _generate_screening_report matches risk_assessment in
    Returns (Screened matches risk_assessment screening_result report).

End Tool.

End Onboarding.

(* ================================================================== *)
(** * The rules as the specification words them *)
(* ================================================================== *)

(** These definitions follow the prose of the specification, not the
    code; the theorems below compare the two. *)

Module Spec.

Import PyStr Config.

(** ** Orchestrator *)

(** The verdicts that are retained: those with is-match true. *)
Definition retained (customer : pydict)
           (candidates : list KYCScreeningTool.sanction)
  : list match_result :=
  filter is_match
         (map (KYCScreeningTool._check_sanction_match customer) candidates).

Definition any_of (t : match_type_t) (verdicts : list match_result)
  : bool :=
  existsb (fun v => match_type_eqb (match_type v) t) verdicts.

(** "No retained verdicts: CLEAR; any retained verdict is EXACT:
    REJECTED; risk level is HIGH or CRITICAL: REVIEW_REQUIRED; any
    retained verdict is PARTIAL: CLEAR_WITH_WARNING; otherwise CLEAR." *)
Definition disposition_rule (verdicts : list match_result)
           (level : risk_level_t) : disposition :=
  if length verdicts =? 0 then CLEAR
  else if any_of EXACT verdicts then REJECTED
  else if match level with HIGH | CRITICAL => true | _ => false end
       then REVIEW_REQUIRED
  else if any_of PARTIAL verdicts then CLEAR_WITH_WARNING
  else CLEAR.

(** ** Similarity scorer *)

(** "Combined fuzzy score = maximum of the three metrics." *)
Definition combined_fuzzy_score (a b : str) : Q :=
  Qmax (Qmax (StringUtils.similarity_ratio a b)
             (StringUtils._partial_ratio a b))
       (StringUtils._token_sort_ratio a b).

(** The name score with the combined fuzzy score as the similarity:
    the maximum over the primary name and the alias, 0 for the alias
    when there is none, on the normalized names. *)
Definition fuzzy_name_score (customer : pydict)
           (entry : KYCScreeningTool.sanction) : Q :=
  let customer_name :=
    StringUtils.normalize_english
      (dict_get customer "full_name_en" (PyStr [])) in
  let entry_name :=
    StringUtils.normalize_english (KYCScreeningTool.full_name_en entry) in
  let alias :=
    StringUtils.normalize_english (KYCScreeningTool.alias_en entry) in
  Qmax (combined_fuzzy_score customer_name entry_name)
       (match alias with
        | [] => 0%Q
        | _ => combined_fuzzy_score customer_name alias
        end).

(** The name score with the plain ratio as the similarity. *)
Definition plain_name_score (customer : pydict)
           (entry : KYCScreeningTool.sanction) : Q :=
  let customer_name :=
    StringUtils.normalize_english
      (dict_get customer "full_name_en" (PyStr [])) in
  let entry_name :=
    StringUtils.normalize_english (KYCScreeningTool.full_name_en entry) in
  let alias :=
    StringUtils.normalize_english (KYCScreeningTool.alias_en entry) in
  Qmax (StringUtils.similarity_ratio customer_name entry_name)
       (StringUtils.similarity_ratio customer_name alias).

(** "If name score >= name_match_threshold: candidate match; score >=
    95: EXACT, otherwise PARTIAL; below threshold: NO_MATCH." *)
Definition classification (score : Q) : match_type_t :=
  if Qle_bool 85 score then
    if Qle_bool 95 score then EXACT else PARTIAL
  else NO_MATCH.

(** The same entry without a date of birth. *)
Definition without_dob (entry : KYCScreeningTool.sanction)
  : KYCScreeningTool.sanction :=
  {| KYCScreeningTool.id := KYCScreeningTool.id entry;
     KYCScreeningTool.full_name_en := KYCScreeningTool.full_name_en entry;
     KYCScreeningTool.alias_en := KYCScreeningTool.alias_en entry;
     KYCScreeningTool.date_of_birth := PyNone;
     KYCScreeningTool.nationality_code :=
       KYCScreeningTool.nationality_code entry;
     KYCScreeningTool.list_source := KYCScreeningTool.list_source entry;
     KYCScreeningTool.risk_level_col :=
       KYCScreeningTool.risk_level_col entry |}.

(** ** Risk aggregator *)

Definition clamp (lo hi x : Z) : Z := Z.max lo (Z.min x hi).

Definition sum (penalties : list Z) : Z := fold_right Z.add 0%Z penalties.

(** What the core assumes of a configuration: penalties, threshold and
    maximum are not negative, and there are PEP indicator terms. *)
Definition valid_config (cfg : config_module) : Prop :=
  let r := RISK_SCORING cfg in
  (0 <= pep_penalty r /\ 0 <= high_risk_country_penalty r /\
   0 <= sanction_match_penalty r /\ 0 <= partial_match_penalty r /\
   0 <= age_risk_threshold r /\ 0 <= unusual_id_penalty r /\
   0 <= max_risk_score r)%Z /\
  PEP_INDICATORS cfg <> [].

Section Signals.

Variable strptime_date : str -> option DateUtils.date.
Variable today : DateUtils.date.
Variable cfg : config_module.

Definition text_of (v : pyval) : str :=
  match v with
  | PyStr t => t
  | _ => []
  end.

Definition nonempty (t : str) : bool :=
  match t with
  | [] => false
  | _ => true
  end.

(** 1. The occupation text contains a PEP indicator term,
    case-insensitively. *)
Definition pep_signal (customer : pydict) : bool :=
  let t := text_of (dict_get customer "occupation" (PyStr [])) in
  nonempty t
  && existsb (fun term => contains term (lower t)) (PEP_INDICATORS cfg).

(** 2. The nationality code is in the high-risk list. *)
Definition jurisdiction_signal (customer : pydict) : bool :=
  existsb (fun code =>
             py_eqb (dict_get customer "nationality_code" (PyStr []))
                    (PyStr code))
          (HIGH_RISK_COUNTRIES cfg).

(** 3. "For every verdict, EXACT: + sanction_match_penalty; PARTIAL:
    + partial_match_penalty."  No penalty is named for a verdict of
    another type. *)
Definition verdict_penalties (v : match_result) : list Z :=
  match match_type v with
  | EXACT => [sanction_match_penalty (RISK_SCORING cfg)]
  | PARTIAL => [partial_match_penalty (RISK_SCORING cfg)]
  | NO_MATCH => []
  end.

(** "Age calculation: integer years between birth date and current
    date, decremented by one if the current month/day precedes the
    birth month/day." *)
Definition precedes (a b : DateUtils.date) : bool :=
  ((DateUtils.month a <? DateUtils.month b)
   || ((DateUtils.month a =? DateUtils.month b)
       && (DateUtils.day a <? DateUtils.day b)))%Z.

Definition age (birth : DateUtils.date) : Z :=
  (DateUtils.year today - DateUtils.year birth
   - (if precedes today birth then 1 else 0))%Z.

(** 4. "If date of birth parses and computed age exceeds
    age_risk_threshold."  A date of birth that is not a text does not
    parse. *)
Definition age_signal (customer : pydict) : bool :=
  match dict_get customer "date_of_birth" PyNone with
  | PyStr text =>
      match strptime_date text with
      | Some birth => (age_risk_threshold (RISK_SCORING cfg) <? age birth)%Z
      | None => false
      end
  | _ => false
  end.

(** 5. The identifier has 3 or fewer distinct characters; the
    identifier is all zeros. *)
Definition low_cardinality_signal (customer : pydict) : bool :=
  let v := text_of (dict_get customer "id_number" (PyStr [])) in
  nonempty v && (distinct v <=? 3).

Definition all_zeros_signal (customer : pydict) : bool :=
  let v := text_of (dict_get customer "id_number" (PyStr [])) in
  nonempty v && forallb (fun c => Ascii.eqb c "0") v.

Definition when (fired : bool) (penalty : Z) : list Z :=
  if fired then [penalty] else [].

(** The penalties of the signals that fire, in evaluation order. *)
Definition fired_penalties (customer : pydict)
           (verdicts : list match_result) : list Z :=
  when (pep_signal customer) (pep_penalty (RISK_SCORING cfg))
  ++ when (jurisdiction_signal customer)
          (high_risk_country_penalty (RISK_SCORING cfg))
  ++ flat_map verdict_penalties verdicts
  ++ when (age_signal customer) 15%Z
  ++ when (low_cardinality_signal customer)
          (unusual_id_penalty (RISK_SCORING cfg))
  ++ when (all_zeros_signal customer) 20%Z.

(** The signals of the customer record alone. *)
Definition customer_penalties (customer : pydict) : list Z :=
  fired_penalties customer [].

End Signals.

(** "CRITICAL >= 80, HIGH >= 60, MEDIUM >= 40, LOW >= 20, else
    VERY_LOW." *)
Definition level_of (score : Z) : risk_level_t -> Prop :=
  fun level =>
    match level with
    | CRITICAL => 80 <= score
    | HIGH => 60 <= score < 80
    | MEDIUM => 40 <= score < 60
    | LOW => 20 <= score < 40
    | VERY_LOW => score < 20
    end%Z.

End Spec.

(* ================================================================== *)
(** * The signals as the code evaluates them *)
(* ================================================================== *)

(** The same list of penalties with the code's own reading of two
    signals: the age is what [calculate_age] returns, and a verdict
    that is not EXACT counts as a partial match whatever its type is.
    The further properties of the aggregation are stated with these. *)

Module Signals.

Import PyStr Config.

Section Code.

Variable strptime_date : str -> option DateUtils.date.
Variable today : DateUtils.date.
Variable cfg : config_module.

Definition match_penalty (v : match_result) : Z :=
  match match_type v with
  | EXACT => sanction_match_penalty (RISK_SCORING cfg)
  | _ => partial_match_penalty (RISK_SCORING cfg)
  end.

Definition age_signal (customer : pydict) : bool :=
  match DateUtils.calculate_age strptime_date today
          (dict_get customer "date_of_birth" PyNone) with
  | Some age => (age_risk_threshold (RISK_SCORING cfg) <? age)%Z
  | None => false
  end.

Definition fired_penalties (customer : pydict)
           (verdicts : list match_result) : list Z :=
  Spec.when (Spec.pep_signal cfg customer) (pep_penalty (RISK_SCORING cfg))
  ++ Spec.when (Spec.jurisdiction_signal cfg customer)
               (high_risk_country_penalty (RISK_SCORING cfg))
  ++ map match_penalty verdicts
  ++ Spec.when (age_signal customer) 15%Z
  ++ Spec.when (Spec.low_cardinality_signal customer)
               (unusual_id_penalty (RISK_SCORING cfg))
  ++ Spec.when (Spec.all_zeros_signal customer) 20%Z.

(** The signals of the customer record alone. *)
Definition customer_penalties (customer : pydict) : list Z :=
  fired_penalties customer [].

End Code.

End Signals.

(* ================================================================== *)
(** * Concrete records *)
(* ================================================================== *)

Module Examples.

Import PyStr KYCScreeningTool.

Definition text (s : String.string) : pyval := PyStr (lit s).

(** A clock and a date parser that knows one date. *)
Definition today : DateUtils.date := DateUtils.mkDate 2024 6 1.

Definition strptime_date (s : str) : option DateUtils.date :=
  if PyStr.eqb s (lit "1980-05-15")
  then Some (DateUtils.mkDate 1980 5 15) else None.

Definition entry (name alias dob : pyval) : sanction :=
  {| id := 1;
     full_name_en := name;
     alias_en := alias;
     date_of_birth := dob;
     nationality_code := text "EG";
     list_source := text "OFAC";
     risk_level_col := text "HIGH" |}.

(** A short name that is part of a longer listed name. *)
Definition customer_ali : pydict :=
  [("full_name_en", text "Ali")]%string.

Definition entry_mohamed_ali_hassan : sanction :=
  entry (text "Mohamed Ali Hassan") (text "") PyNone.

(** A near miss with the same date of birth. *)
Definition customer_john_smith : pydict :=
  [("full_name_en", text "John Smith");
   ("date_of_birth", text "1980-05-15")]%string.

Definition entry_jon_smyth : sanction :=
  entry (text "Jon Smyth") (text "") (text "1980-05-15").

(** An exact match with the same date of birth. *)
Definition customer_ahmed : pydict :=
  [("full_name_en", text "Ahmed Ali Al-Masri");
   ("nationality_code", text "EG");
   ("occupation", text "Minister of Finance");
   ("date_of_birth", text "1980-05-15");
   ("id_number", text "A12345678")]%string.

Definition entry_ahmed : sanction :=
  entry (text "Ahmed Ali Al-Masri") (text "Ahmed Al-Masri")
        (text "1980-05-15").

(** The record that [_collect_customer_information] builds when the
    optional answers are left blank: the keys are present, the values
    are [None]. *)
Definition customer_blank_occupation : pydict :=
  [("customer_code", text "CUST20240601120000");
   ("full_name_en", text "John Smith");
   ("full_name_ar", PyNone);
   ("date_of_birth", PyNone);
   ("nationality_code", text "US");
   ("nationality_name", PyNone);
   ("id_type", text "PASSPORT");
   ("id_number", text "A1234567");
   ("id_issue_date", PyNone);
   ("id_expiry_date", PyNone);
   ("gender", PyNone);
   ("occupation", PyNone);
   ("customer_type", text "INDIVIDUAL")]%string.

(** An accountant whose identifier is all zeros. *)
Definition customer_zero_id : pydict :=
  [("full_name_en", text "John Smith");
   ("nationality_code", text "US");
   ("occupation", text "Accountant");
   ("id_number", text "000000")]%string.

(** Two partial verdicts. *)
Definition partial_verdict (name : String.string) : match_result :=
  {| is_match := true;
     sanction_id := 1;
     sanction_name := text name;
     sanction_source := text "OFAC";
     match_type := PARTIAL;
     match_score := 90;
     name_match_score := 90;
     dob_match := false;
     nationality_match := false;
     sanction_risk_level := text "HIGH" |}.

Definition exact_verdict (name : String.string) : match_result :=
  {| is_match := true;
     sanction_id := 1;
     sanction_name := text name;
     sanction_source := text "OFAC";
     match_type := EXACT;
     match_score := 100;
     name_match_score := 100;
     dob_match := false;
     nationality_match := false;
     sanction_risk_level := text "HIGH" |}.

Definition customer_plain : pydict :=
  [("full_name_en", text "John Smith");
   ("nationality_code", text "US");
   ("occupation", text "Accountant");
   ("id_number", text "A1234567")]%string.

Definition very_low_assessment : risk_assessment :=
  {| risk_score := 0;
     risk_level := VERY_LOW;
     risk_factors := [];
     risk_details := [] |}.

End Examples.

(* ================================================================== *)
(** * Notions used to state further properties *)
(* ================================================================== *)

Module Notions.

Import PyStr.

(** Calendar order of dates: year, then month, then day. *)
Definition on_or_before (a b : DateUtils.date) : Prop :=
  (DateUtils.year a < DateUtils.year b \/
   (DateUtils.year a = DateUtils.year b /\
    (DateUtils.month a < DateUtils.month b \/
     (DateUtils.month a = DateUtils.month b /\
      DateUtils.day a <= DateUtils.day b))))%Z.

(** The day and month of [birth] in the year that is [n] years later. *)
Definition anniversary (birth : DateUtils.date) (n : Z) : DateUtils.date :=
  DateUtils.mkDate (DateUtils.year birth + n)
                   (DateUtils.month birth) (DateUtils.day birth).

(** The number of verdicts that are EXACT, and that are not. *)
Definition exact_count (verdicts : list match_result) : nat :=
  length (filter (fun v => match_type_eqb (match_type v) EXACT) verdicts).

Definition other_count (verdicts : list match_result) : nat :=
  length (filter (fun v => negb (match_type_eqb (match_type v) EXACT))
                 verdicts).

(** [s] occurs in [t] as a contiguous substring. *)
Definition occurs_in (s t : str) : Prop :=
  exists pre post, t = pre ++ s ++ post.

(** The number a detail stands for when it is read as a counter. *)
Definition detail_number (v : detail_value) : Z :=
  match v with
  | DInt z => z
  | DTrue => 1
  end.

(** What a step does to the running state: it adds the penalties to the
    score, appends one factor per penalty, and leaves the two match
    counters alone. *)
Definition adds (st st' : RiskCalculator.acc) (penalties : list Z) : Prop :=
  RiskCalculator.acc_score st'
  = (RiskCalculator.acc_score st + Spec.sum penalties)%Z /\
  length (RiskCalculator.acc_factors st')
  = length (RiskCalculator.acc_factors st) + length penalties /\
  details_count (RiskCalculator.acc_details st') "exact_matches"
  = details_count (RiskCalculator.acc_details st) "exact_matches" /\
  details_count (RiskCalculator.acc_details st') "partial_matches"
  = details_count (RiskCalculator.acc_details st) "partial_matches".

(** An e-mail address cut into its local part, its domain and its
    top-level part, and what the pattern of [validate_email] asks of
    the three. *)
Definition address (local domain tld : str) : str :=
  local ++ "@"%char :: domain ++ "."%char :: tld.

Definition well_formed_address (local domain tld : str) : Prop :=
  local <> [] /\ forallb ValidationUtils.is_local local = true /\
  domain <> [] /\ forallb ValidationUtils.is_domain domain = true /\
  2 <= length tld /\ forallb PyChars.is_letter tld = true.

(** The newline character. *)
Definition newline : ascii := ascii_of_nat 10.

End Notions.

(* ================================================================== *)
(** * Properties of the sequence matcher *)
(* ================================================================== *)

Module DifflibFacts.

Import PyStr Difflib.

#[local] Arguments Nat.sub : simpl never.
#[local] Arguments Nat.div : simpl never.

(** ** A block lies inside the ranges it was searched in *)

Section Bounds.

Variables a b : str.
Variables alo blo bhi : nat.

(** An entry of [j2len] for row [i] is the length of a match that
    ends at column [j] and started neither before [alo] nor before
    [blo]. *)
Definition row_ok (i : nat) (d : j2len_t) : Prop :=
  forall j, d j <= i - alo /\ d j <= j + 1 - blo.

Definition best_ok (i : nat) (x : Match) : Prop :=
  alo <= m_a x /\ m_a x + m_size x <= i /\
  blo <= m_b x /\ m_b x + m_size x <= bhi.

Lemma j2len_empty_ok i : row_ok i j2len_empty.
Proof. intro j. unfold j2len_empty. lia. Qed.

Lemma j2len_prev_ok i d j :
  row_ok i d -> blo <= j ->
  j2len_prev d j <= i - alo /\ j2len_prev d j <= j - blo.
Proof.
  intros Hd Hj. destruct j as [|j']; simpl; [lia|].
  destruct (Hd j'). lia.
Qed.

Lemma best_ok_weaken i i' x : i <= i' -> best_ok i x -> best_ok i' x.
Proof. unfold best_ok. intros; lia. Qed.

Lemma scan_row_ok i d js :
  alo <= i -> row_ok i d ->
  forall new best,
    row_ok (S i) new -> best_ok (S i) best ->
    row_ok (S i) (fst (scan_row blo bhi i js d new best)) /\
    best_ok (S i) (snd (scan_row blo bhi i js d new best)).
Proof.
  intros Hi Hd. induction js as [|j js IH]; intros new best Hn Hb; simpl.
  - auto.
  - destruct (j <? blo) eqn:E1; [auto|].
    destruct (bhi <=? j) eqn:E2; [auto|].
    apply Nat.ltb_ge in E1. apply Nat.leb_gt in E2.
    destruct (j2len_prev_ok i d j Hd E1) as [H1 H2].
    apply IH.
    + intro x. unfold j2len_set.
      destruct (x =? j) eqn:E3; [|apply Hn].
      apply Nat.eqb_eq in E3. subst x. lia.
    + destruct (m_size best <? j2len_prev d j + 1); [|exact Hb].
      unfold best_ok; simpl. lia.
Qed.

Lemma scan_rows_ok n :
  forall i d best,
    alo <= i -> row_ok i d -> best_ok i best ->
    best_ok (i + n) (scan_rows a b blo bhi (seq i n) d best).
Proof.
  induction n as [|n IH]; intros i d best Hi Hd Hb; simpl.
  - now rewrite Nat.add_0_r.
  - destruct (scan_row blo bhi i (b2j b (elt a i)) d j2len_empty best)
      as [new best'] eqn:E.
    pose proof (scan_row_ok i d (b2j b (elt a i)) Hi Hd
                  j2len_empty best (j2len_empty_ok (S i))
                  (best_ok_weaken i (S i) best
                     (Nat.le_succ_diag_r i) Hb)) as H.
    rewrite E in H. simpl in H. destruct H as [Hn Hb'].
    replace (i + S n) with (S i + n) by lia.
    apply IH; auto.
Qed.

Lemma extend_left_ok besti :
  forall bestj bestsize,
    let x := extend_left a b alo blo besti bestj bestsize in
    alo <= besti -> blo <= bestj ->
    alo <= m_a x /\ blo <= m_b x /\
    m_a x + m_size x = besti + bestsize /\
    m_b x + m_size x = bestj + bestsize.
Proof.
  induction besti as [|i IH]; intros bestj bestsize; simpl.
  - lia.
  - destruct ((alo <? S i) && (blo <? bestj)
              && Ascii.eqb (elt a (S i - 1)) (elt b (bestj - 1))) eqn:E.
    + apply andb_prop in E. destruct E as [E _].
      apply andb_prop in E. destruct E as [E1 E2].
      apply Nat.ltb_lt in E1, E2. intros _ _.
      specialize (IH (bestj - 1) (bestsize + 1)). simpl in IH. lia.
    + simpl. lia.
Qed.

Lemma extend_right_ok ahi besti bestj room :
  forall bestsize,
    let x := extend_right a b bhi besti bestj room bestsize in
    besti + bestsize + room <= ahi -> bestj + bestsize <= bhi ->
    m_a x = besti /\ m_b x = bestj /\ bestsize <= m_size x /\
    besti + m_size x <= ahi /\ bestj + m_size x <= bhi.
Proof.
  induction room as [|room IH]; intros bestsize; simpl.
  - lia.
  - destruct ((bestj + bestsize <? bhi)
              && Ascii.eqb (elt a (besti + bestsize))
                           (elt b (bestj + bestsize))) eqn:E.
    + apply andb_prop in E. destruct E as [E _].
      apply Nat.ltb_lt in E. intros H1 H2.
      specialize (IH (bestsize + 1)). simpl in IH. lia.
    + simpl. lia.
Qed.

Lemma find_longest_match_ok ahi :
  alo <= ahi -> blo <= bhi ->
  let x := find_longest_match a b alo ahi blo bhi in
  alo <= m_a x /\ m_a x + m_size x <= ahi /\
  blo <= m_b x /\ m_b x + m_size x <= bhi.
Proof.
  intros Ha Hb. unfold find_longest_match.
  set (best0 := scan_rows a b blo bhi (seq alo (ahi - alo)) j2len_empty
                          (mkMatch alo blo 0)).
  assert (H0 : best_ok ahi best0).
  { replace ahi with (alo + (ahi - alo)) at 1 by lia.
    apply scan_rows_ok; [lia|apply j2len_empty_ok|].
    unfold best_ok; simpl. lia. }
  destruct H0 as (H1 & H2 & H3 & H4).
  set (best1 := extend_left a b alo blo (m_a best0) (m_b best0)
                            (m_size best0)).
  destruct (extend_left_ok (m_a best0) (m_b best0) (m_size best0) H1 H3)
    as (L1 & L2 & L3 & L4).
  fold best1 in L1, L2, L3, L4.
  destruct (extend_right_ok ahi (m_a best1) (m_b best1)
              (ahi - (m_a best1 + m_size best1)) (m_size best1))
    as (R1 & R2 & R3 & R4 & R5); [lia|lia|].
  simpl. lia.
Qed.

End Bounds.


(** ** The loop of [get_matching_blocks] ends and the blocks fit *)

Section Blocks.

Variables a b : str.

Definition range_ok (r : range4) : Prop :=
  let '(alo, ahi, blo, bhi) := r in alo <= ahi /\ blo <= bhi.

Definition range_weight (r : range4) : nat :=
  let '(alo, ahi, _, _) := r in 2 * (ahi - alo) + 1.

Definition range_room (r : range4) : nat :=
  let '(alo, ahi, blo, bhi) := r in Nat.min (ahi - alo) (bhi - blo).

Definition weight (q : list range4) : nat :=
  list_sum (map range_weight q).

Definition room (q : list range4) : nat := list_sum (map range_room q).

Definition total (blocks : list Match) : nat :=
  list_sum (map m_size blocks).

Lemma total_snoc blocks x : total (blocks ++ [x]) = total blocks + m_size x.
Proof.
  unfold total. rewrite map_app, list_sum_app. simpl. lia.
Qed.

Lemma weight_cons r q : weight (r :: q) = range_weight r + weight q.
Proof. reflexivity. Qed.

Lemma room_cons r q : room (r :: q) = range_room r + room q.
Proof. reflexivity. Qed.

Lemma blocks_loop_spec fuel :
  forall q acc,
    Forall range_ok q -> weight q <= fuel ->
    exists blocks,
      blocks_loop a b fuel q acc = Some blocks /\
      total acc <= total blocks <= total acc + room q.
Proof.
  induction fuel as [|fuel IH]; intros q acc Hq Hw.
  - destruct q as [|[[[alo ahi] blo] bhi] q'].
    + exists acc. simpl. split; [reflexivity|lia].
    + rewrite weight_cons in Hw. unfold range_weight in Hw. lia.
  - destruct q as [|[[[alo ahi] blo] bhi] q'].
    + exists acc. simpl. split; [reflexivity|lia].
    + inversion Hq as [|r q0 Hr Hq']; subst. destruct Hr as [Ha Hb].
      pose proof (find_longest_match_ok a b alo blo bhi ahi Ha Hb) as Hx.
      cbv zeta in Hx. destruct Hx as (X1 & X2 & X3 & X4).
      cbn [blocks_loop].
      set (x := find_longest_match a b alo ahi blo bhi) in *.
      rewrite weight_cons in Hw. unfold range_weight in Hw.
      destruct (m_size x =? 0) eqn:Ek.
      * destruct (IH q' acc Hq') as (bl & E & T); [lia|].
        exists bl. split; [exact E|].
        rewrite room_cons. lia.
      * apply Nat.eqb_neq in Ek.
        set (q1 := push_if ((alo <? m_a x) && (blo <? m_b x))
                           (alo, m_a x, blo, m_b x) q').
        set (q2 := push_if ((m_a x + m_size x <? ahi)
                            && (m_b x + m_size x <? bhi))
                           (m_a x + m_size x, ahi,
                            m_b x + m_size x, bhi) q1).
        assert (H2 : Forall range_ok q2 /\
                     weight q2 <= fuel /\
                     m_size x + room q2
                     <= room ((alo, ahi, blo, bhi) :: q')).
        { unfold q2, q1, push_if.
          destruct ((alo <? m_a x) && (blo <? m_b x));
            destruct ((m_a x + m_size x <? ahi)
                      && (m_b x + m_size x <? bhi));
            (split; [repeat constructor; simpl; auto; lia|]);
            rewrite ?weight_cons, ?room_cons;
            unfold range_weight, range_room; lia. }
        destruct H2 as (F2 & W2 & R2).
        destruct (IH q2 (acc ++ [x]) F2 W2) as (bl & E & T).
        exists bl. split; [exact E|].
        rewrite total_snoc in T. rewrite room_cons in R2 |- *.
        unfold range_room in R2 |- *. lia.
Qed.

Lemma get_matching_blocks_spec :
  exists blocks,
    get_matching_blocks a b = Some blocks /\
    total blocks <= Nat.min (length a) (length b).
Proof.
  unfold get_matching_blocks.
  destruct (blocks_loop_spec (2 * length a + 1)
              [(0, length a, 0, length b)] [])
    as (bl & E & T).
  - repeat constructor; simpl; lia.
  - unfold weight. simpl. lia.
  - exists bl. split; [exact E|].
    unfold room, total in T. simpl in T. unfold total. lia.
Qed.

Lemma matches_le : 2 * matches a b <= length a + length b.
Proof.
  unfold matches.
  destruct get_matching_blocks_spec as (bl & E & T).
  rewrite E. unfold total in T. lia.
Qed.

End Blocks.


(** ** A sequence compared with itself is one block *)

Lemma indices_spec c :
  forall s j0 j,
    In j (indices c s j0) <->
    j0 <= j /\ j < j0 + length s /\ elt s (j - j0) = c.
Proof.
  induction s as [|x s IH]; intros j0 j; cbn [indices length].
  - split; [intros []|lia].
  - assert (Hs : forall k, j0 < k -> elt (x :: s) (k - j0) = elt s (k - S j0)).
    { intros k Hk. unfold elt.
      replace (k - j0) with (S (k - S j0)) by lia. reflexivity. }
    destruct (Ascii.eqb x c) eqn:E.
    + apply Ascii.eqb_eq in E. cbn [In]. rewrite IH. split.
      * intros [H|(H1 & H2 & H3)].
        -- subst j. rewrite Nat.sub_diag. unfold elt. simpl. split; [lia|].
           split; [lia|exact E].
        -- rewrite Hs by lia. repeat split; try lia. exact H3.
      * intros (H1 & H2 & H3).
        destruct (Nat.eq_dec j0 j) as [->|Hne]; [now left|right].
        rewrite Hs in H3 by lia. repeat split; try lia. exact H3.
    + apply Ascii.eqb_neq in E. rewrite IH. split.
      * intros (H1 & H2 & H3). rewrite Hs by lia.
        repeat split; try lia. exact H3.
      * intros (H1 & H2 & H3).
        destruct (Nat.eq_dec j0 j) as [->|Hne].
        -- rewrite Nat.sub_diag in H3. unfold elt in H3. simpl in H3.
           contradiction.
        -- rewrite Hs in H3 by lia. repeat split; try lia. exact H3.
Qed.

Lemma indices_sorted c :
  forall s j0, StronglySorted lt (indices c s j0).
Proof.
  induction s as [|x s IH]; intros j0; cbn [indices].
  - constructor.
  - destruct (Ascii.eqb x c); [|apply IH].
    constructor; [apply IH|].
    apply Forall_forall. intros j Hj.
    apply indices_spec in Hj. lia.
Qed.

Section Diagonal.

Variable s : str.

(** The elements that [b2j] keeps. *)
Definition kept (c : ascii) : bool := negb (popular s c).

(** The length of the run of kept elements that ends at [x] ... *)
Fixpoint run (x : nat) : nat :=
  match x with
  | 0 => if kept (elt s 0) then 1 else 0
  | S x' => if kept (elt s x) then run x' + 1 else 0
  end.

(** ... and of the one that ends just before [x]. *)
Definition run_before (x : nat) : nat :=
  match x with
  | 0 => 0
  | S x' => run x'
  end.

Lemma run_eq x : run x = if kept (elt s x) then run_before x + 1 else 0.
Proof. destruct x; reflexivity. Qed.

(** On equal sequences an entry of [j2len] never exceeds the runs
    that end at its row and at its column, and is the run itself on
    the diagonal. *)
Definition diag_row (i : nat) (d : j2len_t) : Prop :=
  (forall j, j2len_prev d j <= run_before j /\
             j2len_prev d j <= run_before i) /\
  j2len_prev d i = run_before i.

Lemma scan_row_new bhi i d js :
  (forall j, In j js -> j < bhi) ->
  forall new best x,
    fst (scan_row 0 bhi i js d new best) x =
    if existsb (Nat.eqb x) js then j2len_prev d x + 1 else new x.
Proof.
  induction js as [|j js IH]; intros Hjs new best x; cbn [scan_row existsb].
  - reflexivity.
  - assert (Hj : j < bhi) by (apply Hjs; now left).
    replace (j <? 0) with false by (symmetry; apply Nat.ltb_ge; lia).
    replace (bhi <=? j) with false by (symmetry; apply Nat.leb_gt; lia).
    rewrite IH by (intros; apply Hjs; now right).
    unfold j2len_set.
    destruct (x =? j) eqn:E.
    + apply Nat.eqb_eq in E. subst x. simpl.
      destruct (existsb (Nat.eqb j) js); reflexivity.
    + simpl. reflexivity.
Qed.

Lemma scan_row_diag i d :
  kept (elt s i) = true -> diag_row i d ->
  forall js,
    StronglySorted lt js ->
    (forall j, In j js -> j < length s /\ elt s j = elt s i) ->
    forall new best,
      m_a best = m_b best ->
      (forall j', j' < i -> run j' <= m_size best) ->
      run i <= m_size best \/ In i js ->
      let best' := snd (scan_row 0 (length s) i js d new best) in
      m_a best' = m_b best' /\
      (forall j', j' <= i -> run j' <= m_size best').
Proof.
  intros Hk [Hd Hdi]. induction js as [|j js IH];
    intros Hs Hjs new best Hab Hlt Hi; cbn [scan_row].
  - cbn. split; [exact Hab|]. intros j' Hj'.
    destruct Hi as [Hi|[]].
    destruct (Nat.eq_dec j' i) as [->|Hne]; [exact Hi|apply Hlt; lia].
  - destruct (Hjs j (or_introl eq_refl)) as [Hj He].
    replace (j <? 0) with false by (symmetry; apply Nat.ltb_ge; lia).
    replace (length s <=? j) with false
      by (symmetry; apply Nat.leb_gt; lia).
    inversion Hs as [|j0 js0 Hs' Hall]; subst.
    rewrite Forall_forall in Hall.
    assert (Hrj : run j = run_before j + 1)
      by (rewrite run_eq, He, Hk; reflexivity).
    assert (Hri : run i = run_before i + 1)
      by (rewrite run_eq, Hk; reflexivity).
    destruct (Hd j) as [Hd1 Hd2].
    assert (Hjs' : forall j1, In j1 js ->
                              j1 < length s /\ elt s j1 = elt s i)
      by (intros; apply Hjs; now right).
    destruct (lt_eq_lt_dec j i) as [[Hlti|Heq]|Hgt].
    + (* before the diagonal *)
      replace (m_size best <? j2len_prev d j + 1) with false
        by (symmetry; apply Nat.ltb_ge; specialize (Hlt j Hlti); lia).
      apply IH; auto.
      destruct Hi as [Hi|[Hi|Hi]]; [now left|lia|now right].
    + (* on the diagonal *)
      subst j. rewrite Hdi.
      destruct (m_size best <? run_before i + 1) eqn:E.
      * apply Nat.ltb_lt in E.
        apply IH; auto; cbn [m_a m_b m_size]; try lia.
        intros j' Hj'. specialize (Hlt j' Hj'). lia.
      * apply Nat.ltb_ge in E. apply IH; auto. left. lia.
    + (* after the diagonal *)
      assert (Hri' : run i <= m_size best).
      { destruct Hi as [Hi|[Hi|Hi]]; [exact Hi|lia|].
        specialize (Hall i Hi). lia. }
      replace (m_size best <? j2len_prev d j + 1) with false
        by (symmetry; apply Nat.ltb_ge; lia).
      apply IH; auto.
Qed.

Lemma scan_rows_diag m :
  forall i d best,
    i + m = length s -> diag_row i d ->
    m_a best = m_b best ->
    (forall j', j' < i -> run j' <= m_size best) ->
    let r := scan_rows s s 0 (length s) (seq i m) d best in
    m_a r = m_b r.
Proof.
  induction m as [|m IH]; intros i d best Him Hd Hab Hlt;
    cbn [seq scan_rows].
  - exact Hab.
  - destruct (scan_row 0 (length s) i (b2j s (elt s i)) d j2len_empty best)
      as [new best'] eqn:E.
    assert (Hnew : new = fst (scan_row 0 (length s) i (b2j s (elt s i))
                                       d j2len_empty best))
      by (rewrite E; reflexivity).
    assert (Hbest : best' = snd (scan_row 0 (length s) i (b2j s (elt s i))
                                          d j2len_empty best))
      by (rewrite E; reflexivity).
    clear E. unfold b2j in Hnew, Hbest.
    destruct (popular s (elt s i)) eqn:Hp.
    + (* a popular element matches nothing in this loop *)
      cbn in Hnew, Hbest. subst new best'.
      assert (Hr : run i = 0)
        by (rewrite run_eq; unfold kept; rewrite Hp; reflexivity).
      apply IH; [lia| |exact Hab|].
      * split; [intros [|j]; unfold j2len_prev, j2len_empty; lia|].
        cbn [j2len_prev run_before]. unfold j2len_empty. lia.
      * intros j' Hj'.
        destruct (Nat.eq_dec j' i) as [->|Hne]; [lia|apply Hlt; lia].
    + assert (Hk : kept (elt s i) = true)
        by (unfold kept; rewrite Hp; reflexivity).
      assert (Hin : forall j, In j (indices (elt s i) s 0) <->
                              j < length s /\ elt s j = elt s i).
      { intro j. rewrite indices_spec. rewrite Nat.sub_0_r. simpl.
        intuition lia. }
      destruct (scan_row_diag i d Hk Hd (indices (elt s i) s 0)
                  (indices_sorted _ _ _) (fun j H => proj1 (Hin j) H)
                  j2len_empty best Hab Hlt)
        as [Hab' Hle'].
      { right. apply Hin. split; [lia|reflexivity]. }
      rewrite <- Hbest in Hab', Hle'.
      assert (Hnew' : forall x,
                 new x =
                 if existsb (Nat.eqb x) (indices (elt s i) s 0)
                 then j2len_prev d x + 1 else 0).
      { intro x. rewrite Hnew. apply scan_row_new.
        intros j Hj. apply Hin in Hj. tauto. }
      destruct Hd as [Hd Hdi].
      apply IH; [lia| |exact Hab'|intros; apply Hle'; lia].
      assert (Hri : run i = run_before i + 1)
        by (rewrite run_eq, Hk; reflexivity).
      split.
      * intros [|x]; cbn [j2len_prev run_before]; [lia|].
        rewrite Hnew'.
        destruct (existsb (Nat.eqb x) (indices (elt s i) s 0)) eqn:Ex;
          [|lia].
        apply existsb_exists in Ex. destruct Ex as (y & Hy & Exy).
        apply Nat.eqb_eq in Exy. subst y.
        apply Hin in Hy. destruct Hy as [_ Hy].
        destruct (Hd x) as [H1 H2].
        rewrite (run_eq x), Hy, Hk. lia.
      * cbn [j2len_prev run_before]. rewrite Hnew'.
        replace (existsb (Nat.eqb i) (indices (elt s i) s 0)) with true.
        -- rewrite Hdi. lia.
        -- symmetry. apply existsb_exists. exists i.
           split; [apply Hin; split; [lia|reflexivity]|].
           apply Nat.eqb_refl.
Qed.

Lemma extend_left_diag d :
  forall k, extend_left s s 0 0 d d k = mkMatch 0 0 (d + k).
Proof.
  induction d as [|d IH]; intros k; cbn [extend_left].
  - reflexivity.
  - rewrite Ascii.eqb_refl. cbn [Nat.ltb Nat.leb andb].
    replace (S d - 1) with d by lia.
    rewrite IH. f_equal. lia.
Qed.

Lemma extend_right_diag room :
  forall k,
    k + room = length s ->
    extend_right s s (length s) 0 0 room k = mkMatch 0 0 (length s).
Proof.
  induction room as [|room IH]; intros k Hk; cbn [extend_right].
  - f_equal. lia.
  - rewrite Ascii.eqb_refl.
    replace (0 + k <? length s) with true
      by (symmetry; apply Nat.ltb_lt; lia).
    cbn [andb]. apply IH. lia.
Qed.

Lemma find_longest_match_same :
  find_longest_match s s 0 (length s) 0 (length s)
  = mkMatch 0 0 (length s).
Proof.
  unfold find_longest_match. rewrite Nat.sub_0_r.
  set (best0 := scan_rows s s 0 (length s) (seq 0 (length s))
                          j2len_empty (mkMatch 0 0 0)).
  assert (Hd : m_a best0 = m_b best0).
  { apply scan_rows_diag; [lia| |reflexivity|intros; lia].
    split; [intros [|j]; unfold j2len_prev, j2len_empty; lia|reflexivity]. }
  assert (Hb : best_ok 0 0 (length s) (0 + length s) best0).
  { apply scan_rows_ok; [lia|apply j2len_empty_ok|].
    unfold best_ok. cbn. lia. }
  destruct Hb as (_ & Hb & _).
  rewrite <- Hd, extend_left_diag. cbn [m_a m_b m_size].
  apply extend_right_diag. lia.
Qed.

Lemma matches_same : matches s s = length s.
Proof.
  unfold matches, get_matching_blocks.
  replace (2 * length s + 1) with (S (2 * length s)) by lia.
  cbn [blocks_loop]. rewrite find_longest_match_same.
  cbn [m_a m_b m_size].
  destruct (length s =? 0) eqn:E.
  - apply Nat.eqb_eq in E. rewrite E. reflexivity.
  - rewrite Nat.ltb_irrefl. cbn [andb push_if Nat.add].
    rewrite Nat.ltb_irrefl. cbn [push_if].
    destruct (2 * length s) eqn:E2; [apply Nat.eqb_neq in E; lia|].
    cbn. lia.
Qed.

End Diagonal.

End DifflibFacts.

(* ================================================================== *)
(** * Properties of strings *)
(* ================================================================== *)

Module PyStrFacts.

Import PyStr.

Lemma space_not_word c : is_space c = true -> is_word c = false.
Proof.
  destruct c as [[] [] [] [] [] [] [] []]; vm_compute; congruence.
Qed.

Lemma lower_char_idem c : lower_char (lower_char c) = lower_char c.
Proof.
  destruct c as [[] [] [] [] [] [] [] []]; vm_compute; reflexivity.
Qed.

Lemma lower_char_word c : is_word (lower_char c) = is_word c.
Proof.
  destruct c as [[] [] [] [] [] [] [] []]; vm_compute; reflexivity.
Qed.

Lemma eqb_eq s t : eqb s t = true <-> s = t.
Proof.
  unfold eqb. destruct (list_eq_dec ascii_dec s t); split; congruence.
Qed.

Lemma eqb_refl s : eqb s s = true.
Proof. now apply eqb_eq. Qed.

Lemma startswith_app p : forall s, startswith p (p ++ s) = true.
Proof.
  induction p as [|x p IH]; intros s; cbn; [reflexivity|].
  now rewrite Ascii.eqb_refl, IH.
Qed.

Lemma startswith_split p :
  forall s, startswith p s = true -> s = p ++ skipn (length p) s.
Proof.
  induction p as [|x p IH]; intros s H; cbn in *; [reflexivity|].
  destruct s as [|y s]; [discriminate|].
  apply andb_prop in H. destruct H as [H1 H2].
  apply Ascii.eqb_eq in H1. subst y. cbn. f_equal. now apply IH.
Qed.

(** ** White space at the ends *)

Lemma lstrip_split text :
  exists g, text = g ++ lstrip text /\ Forall (fun c => is_space c = true) g.
Proof.
  induction text as [|c text (g & E & F)]; cbn.
  - exists []. split; [reflexivity|constructor].
  - destruct (is_space c) eqn:Ec.
    + exists (c :: g). split; [cbn; now f_equal|now constructor].
    + exists []. split; [reflexivity|constructor].
Qed.

Lemma rstrip_split text :
  exists g, text = rstrip text ++ g /\ Forall (fun c => is_space c = true) g.
Proof.
  unfold rstrip. destruct (lstrip_split (rev text)) as (g & E & F).
  exists (rev g). split.
  - rewrite <- rev_app_distr, <- E. symmetry. apply rev_involutive.
  - apply Forall_rev. exact F.
Qed.

(** ** Runs *)

Section Runs.

Variable p : ascii -> bool.

Definition all_in (w : str) : Prop := Forall (fun c => p c = true) w.
Definition none_in (w : str) : Prop := Forall (fun c => p c = false) w.

(** The text is empty or starts outside the class. *)
Definition stops (text : str) : Prop :=
  match text with
  | [] => True
  | c :: _ => p c = false
  end.

Lemma runs_cons_out c text : p c = false -> runs p (c :: text) = runs p text.
Proof. intros H. cbn. now rewrite H. Qed.

Lemma runs_none g text : none_in g -> runs p (g ++ text) = runs p text.
Proof.
  induction 1 as [|c g Hc Hg IH]; [reflexivity|].
  cbn [app]. now rewrite runs_cons_out.
Qed.

Lemma runs_word w :
  forall text, w <> [] -> all_in w -> stops text ->
               runs p (w ++ text) = w :: runs p text.
Proof.
  induction w as [|c w IH]; intros text Hne Hw Hs; [congruence|].
  inversion Hw as [|c0 w0 Hc Hw']; subst.
  destruct w as [|c' w].
  - cbn [app]. cbn [runs]. rewrite Hc.
    destruct text as [|c2 text]; [reflexivity|].
    cbn in Hs. now rewrite Hs.
  - assert (Hc' : p c' = true) by now inversion Hw'.
    change ((c :: c' :: w) ++ text) with (c :: ((c' :: w) ++ text)).
    cbn [runs]. rewrite Hc. cbn [app]. rewrite Hc'.
    change (c' :: w ++ text) with ((c' :: w) ++ text).
    rewrite IH by (auto; congruence). reflexivity.
Qed.

Lemma runs_app_out text :
  forall g, none_in g -> runs p (text ++ g) = runs p text.
Proof.
  intros g Hg.
  assert (Hg0 : runs p g = []).
  { rewrite <- (app_nil_r g). now rewrite runs_none. }
  induction text as [|c text IH]; [exact Hg0|].
  cbn [app runs]. destruct (p c) eqn:Hc; [|exact IH].
  destruct text as [|c' text].
  - cbn [app]. destruct g as [|c2 g]; [reflexivity|].
    inversion Hg as [|c0 g0 Hc2 Hg']; subst. rewrite Hc2.
    cbn [app] in IH. now rewrite IH.
  - cbn [app] in *. now rewrite IH.
Qed.

(** A text splits into a first run and a rest that stops. *)
Lemma span text :
  exists w u, text = w ++ u /\ all_in w /\ stops u.
Proof.
  induction text as [|c text (w & u & E & Hw & Hu)].
  - exists [], []. repeat split; constructor.
  - destruct (p c) eqn:Hc.
    + exists (c :: w), u. subst text. repeat split; auto.
      now constructor.
    + exists [], (c :: text). repeat split; auto. constructor.
Qed.

Lemma runs_spec text :
  Forall (fun w => w <> [] /\ all_in w /\ incl w text) (runs p text).
Proof.
  induction text as [|c text IH]; [constructor|].
  assert (IH' : Forall (fun w => w <> [] /\ all_in w /\ incl w (c :: text))
                       (runs p text)).
  { eapply Forall_impl; [|exact IH]. cbn. intros w (H1 & H2 & H3).
    repeat split; auto. now apply incl_tl. }
  assert (H1 : p c = true ->
               [c] <> [] /\ all_in [c] /\ incl [c] (c :: text)).
  { intros Hc. repeat split; [congruence|now repeat constructor|].
    intros x [<-|[]]. now left. }
  cbn [runs]. destruct (p c) eqn:Hc; [|exact IH'].
  destruct text as [|c' text]; [constructor; [now apply H1|constructor]|].
  destruct (p c') eqn:Hc'; [|constructor; auto].
  destruct (runs p (c' :: text)) as [|w ws] eqn:E;
    [constructor; [now apply H1|constructor]|].
  inversion IH' as [|w0 ws0 (W1 & W2 & W3) Hws]; subst.
  constructor; [|exact Hws].
  repeat split; [congruence|now constructor|].
  intros x [<-|Hx]; [now left|now apply W3].
Qed.

Lemma runs_join ws :
  Forall (fun w => w <> [] /\ all_in w) ws ->
  forall sep, sep <> [] -> none_in sep ->
  runs p (join sep ws) = ws.
Proof.
  intros Hws sep Hne Hsep.
  induction Hws as [|w ws (H1 & H2) Hws IH]; [reflexivity|].
  destruct ws as [|w' ws].
  - cbn [join]. rewrite <- (app_nil_r w) at 1.
    rewrite runs_word; auto. exact I.
  - change (join sep (w :: w' :: ws))
      with (w ++ sep ++ join sep (w' :: ws)).
    rewrite runs_word; auto.
    + now rewrite runs_none, IH.
    + destruct sep as [|c sep]; [congruence|].
      cbn. now inversion Hsep.
Qed.

End Runs.

Lemma runs_ext p q text :
  (forall c, In c text -> p c = q c) -> runs p text = runs q text.
Proof.
  induction text as [|c text IH]; intros H; [reflexivity|].
  assert (IH' : runs p text = runs q text)
    by (apply IH; intros; apply H; now right).
  cbn [runs]. rewrite <- (H c) by now left.
  destruct (p c); [|exact IH'].
  destruct text as [|c' text]; [reflexivity|].
  rewrite <- (H c') by (right; now left).
  now rewrite IH'.
Qed.

Lemma runs_map p f text :
  (forall c, p c = true -> f c = c) ->
  (forall c, p c = false -> p (f c) = false) ->
  runs p (map f text) = runs p text.
Proof.
  intros H1 H0.
  assert (Hp : forall c, p (f c) = p c).
  { intro c. destruct (p c) eqn:E; [now rewrite H1|now apply H0]. }
  induction text as [|c text IH]; [reflexivity|].
  cbn [map runs]. rewrite Hp.
  destruct (p c) eqn:Hc; [|exact IH].
  rewrite (H1 c Hc).
  destruct text as [|c' text]; [reflexivity|].
  cbn [map] in *. rewrite Hp. now rewrite IH.
Qed.

Lemma runs_lstrip p text :
  (forall c, is_space c = true -> p c = false) ->
  runs p (lstrip text) = runs p text.
Proof.
  intros H. destruct (lstrip_split text) as (g & E & F).
  rewrite E at 2. rewrite runs_none; [reflexivity|].
  eapply Forall_impl; [|exact F]. exact H.
Qed.

Lemma runs_strip p text :
  (forall c, is_space c = true -> p c = false) ->
  runs p (strip text) = runs p text.
Proof.
  intros H. unfold strip.
  destruct (rstrip_split (lstrip text)) as (g & E & F).
  rewrite <- (runs_lstrip p text H). rewrite E at 2.
  rewrite runs_app_out; [reflexivity|].
  eapply Forall_impl; [|exact F]. exact H.
Qed.

End PyStrFacts.

(* ================================================================== *)
(** * Properties of name normalization *)
(* ================================================================== *)

Module NormalizeFacts.

Import PyStr PyStrFacts StringUtils.

Abbreviation words := (runs is_word).

Lemma last_char_cons prev c l : last_char prev (c :: l) = last_char (Some c) l.
Proof.
  unfold last_char. cbn [rev].
  destruct (rev l) as [|x r]; reflexivity.
Qed.

Lemma last_char_app prev l c : last_char prev (l ++ [c]) = Some c.
Proof. unfold last_char. now rewrite rev_app_distr. Qed.

Lemma skipn_length_app (l u : str) : skipn (length l) (l ++ u) = u.
Proof. induction l as [|x l IH]; [reflexivity|exact IH]. Qed.

Lemma firstn_length_app (l u : str) : firstn (length l) (l ++ u) = l.
Proof. induction l as [|x l IH]; [reflexivity|cbn; now f_equal]. Qed.

Lemma re_sub_title_skip title :
  forall text n prev,
    n <= length text ->
    re_sub_title title prev n text
    = re_sub_title title (last_char prev (firstn n text)) 0 (skipn n text).
Proof.
  induction text as [|c text IH]; intros n prev Hn.
  - cbn in Hn. replace n with 0 by lia. reflexivity.
  - destruct n as [|n]; [reflexivity|].
    cbn [re_sub_title firstn skipn]. rewrite last_char_cons.
    apply IH. cbn in Hn. lia.
Qed.

Lemma re_sub_title_keep title prev c text :
  match_title title prev (c :: text) = None ->
  re_sub_title title prev 0 (c :: text)
  = c :: re_sub_title title (Some c) 0 text.
Proof. intros H. cbn [re_sub_title]. now rewrite H. Qed.

Lemma re_sub_title_drop title prev text n :
  match_title title prev text = Some (S n) ->
  re_sub_title title prev 0 text = re_sub_title title prev (S n) text.
Proof.
  intros H. destruct text as [|c text]; [reflexivity|].
  cbn [re_sub_title]. now rewrite H.
Qed.

Section Title.

Variable title : str.
Hypothesis title_nonempty : title <> [].
Hypothesis title_word : all_in is_word title.

Lemma title_last prev : is_word_opt (last_char prev title) = true.
Proof.
  destruct (exists_last title_nonempty) as (l & c & E).
  rewrite E, last_char_app. cbn.
  unfold all_in in title_word. rewrite E in title_word.
  apply Forall_app in title_word. destruct title_word as [_ H].
  now inversion H.
Qed.

(** No match starts at a character outside [\w]. *)
Lemma match_title_out prev text :
  stops is_word text -> match_title title prev text = None.
Proof.
  intros Hs. unfold match_title.
  replace (startswith title text) with false;
    [now rewrite andb_false_r|].
  destruct title as [|x t]; [congruence|].
  destruct text as [|c text]; [reflexivity|].
  cbn in *. inversion title_word as [|x0 t0 Hx Ht]; subst.
  destruct (Ascii.eqb x c) eqn:E; [|reflexivity].
  apply Ascii.eqb_eq in E. congruence.
Qed.

(** No match starts inside a word. *)
Lemma match_title_inside prev c text :
  is_word_opt prev = true -> is_word c = true ->
  match_title title prev (c :: text) = None.
Proof.
  intros Hp Hc. unfold match_title, word_boundary. cbn [hd_error].
  cbn [is_word_opt]. rewrite Hp, Hc. reflexivity.
Qed.

Lemma re_sub_title_stops prev text :
  stops is_word text ->
  stops is_word (re_sub_title title prev 0 text).
Proof.
  intros Hs. destruct text as [|c text]; [exact I|].
  rewrite re_sub_title_keep by now apply match_title_out.
  exact Hs.
Qed.

Lemma re_sub_title_word w :
  forall prev u,
    is_word_opt prev = true -> all_in is_word w ->
    re_sub_title title prev 0 (w ++ u)
    = w ++ re_sub_title title (last_char prev w) 0 u.
Proof.
  induction w as [|c w IH]; intros prev u Hp Hw; [reflexivity|].
  inversion Hw as [|c0 w0 Hc Hw']; subst.
  cbn [app]. rewrite re_sub_title_keep
    by now apply match_title_inside.
  rewrite IH by auto. now rewrite last_char_cons.
Qed.

Lemma span_unique w :
  forall w' u u',
    w ++ u = w' ++ u' ->
    all_in is_word w -> all_in is_word w' ->
    stops is_word u -> stops is_word u' -> w = w'.
Proof.
  induction w as [|c w IH]; intros w' u u' E Hw Hw' Hu Hu'.
  - destruct w' as [|c' w']; [reflexivity|].
    cbn in E. subst u. cbn in Hu. inversion Hw'; congruence.
  - inversion Hw as [|c0 w0 Hc Hw0]; subst.
    destruct w' as [|c' w'].
    + cbn in E. subst u'. cbn in Hu'. congruence.
    + cbn in E. injection E as -> E. f_equal.
      inversion Hw'; subst. eapply IH; eauto.
Qed.

(** A match at the start of a word consumes that word, which is the
    title, and characters outside [\w] after it. *)
Lemma match_title_at_word prev w u :
  is_word_opt prev = false ->
  w <> [] -> all_in is_word w -> stops is_word u ->
  if eqb w title then
    exists g u',
      u = g ++ u' /\ none_in is_word g /\
      (g = [] \/ exists g0 c, g = g0 ++ [c]) /\
      match_title title prev (w ++ u) = Some (length (w ++ g))
  else match_title title prev (w ++ u) = None.
Proof.
  intros Hp Hne Hw Hu.
  assert (Hb : word_boundary prev (hd_error (w ++ u)) = true).
  { destruct w as [|c w]; [congruence|]. cbn [app hd_error].
    unfold word_boundary. rewrite Hp. cbn.
    now inversion Hw. }
  destruct (eqb w title) eqn:E.
  - apply eqb_eq in E. subst w.
    assert (Hm : match_title title prev (title ++ u)
                 = Some (length (title ++ u)
                         - length (lstrip
                                     match u with
                                     | c :: r =>
                                         if Ascii.eqb c "." then r else u
                                     | [] => u
                                     end))).
    { unfold match_title. rewrite Hb, startswith_app. cbn [andb].
      rewrite skipn_length_app.
      unfold word_boundary. rewrite title_last.
      replace (is_word_opt (hd_error u)) with false; [reflexivity|].
      destruct u as [|c u]; [reflexivity|]. cbn in *. congruence. }
    assert (Hspace : forall t, exists sp,
                 t = sp ++ lstrip t /\ none_in is_word sp).
    { intro t. destruct (lstrip_split t) as (sp & Esp & Fsp).
      exists sp. split; [exact Esp|].
      eapply Forall_impl; [|exact Fsp]. apply space_not_word. }
    assert (Hlast : forall g : str,
               g = [] \/ exists g0 c, g = g0 ++ [c]).
    { intros [|c0 g]; [now left|right].
      destruct (exists_last (l := c0 :: g)) as (g0 & c1 & E0);
        [congruence|]. eauto. }
    destruct u as [|c r].
    + exists [], []. rewrite Hm.
      repeat split; [constructor|now left|].
      cbn [lstrip length]. f_equal. lia.
    + cbn in Hu. destruct (Ascii.eqb c ".") eqn:Ed.
      * destruct (Hspace r) as (sp & Esp & Hsp).
        exists (c :: sp), (lstrip r). rewrite Hm.
        repeat split.
        -- cbn. f_equal. exact Esp.
        -- constructor; auto.
        -- apply Hlast.
        -- f_equal. rewrite !length_app. cbn [length].
           rewrite Esp at 1. rewrite length_app. lia.
      * destruct (Hspace (c :: r)) as (sp & Esp & Hsp).
        exists sp, (lstrip (c :: r)). rewrite Hm.
        repeat split; auto.
        f_equal. rewrite !length_app.
        rewrite Esp at 1. rewrite length_app. lia.
  - unfold match_title. rewrite Hb. cbn [andb].
    destruct (startswith title (w ++ u)) eqn:Es; [|reflexivity].
    apply startswith_split in Es.
    set (v := skipn (length title) (w ++ u)) in *.
    unfold word_boundary. rewrite title_last.
    destruct (is_word_opt (hd_error v)) eqn:Ev; [reflexivity|].
    exfalso. assert (Hv : stops is_word v).
    { destruct v as [|c v']; [exact I|]. exact Ev. }
    assert (w = title) by (eapply span_unique; eauto).
    subst w. now rewrite eqb_refl in E.
Qed.

Definition other (w : str) : bool := negb (eqb w title).

(** The substitution removes the words equal to the title and leaves
    the other words as they are. *)
Lemma words_re_sub_title_gen n :
  forall text prev,
    length text <= n ->
    is_word_opt prev = false \/ stops is_word text ->
    words (re_sub_title title prev 0 text) = filter other (words text).
Proof.
  induction n as [|n IH]; intros text prev Hlen Hg.
  - destruct text; [reflexivity|cbn in Hlen; lia].
  - destruct (span is_word text) as (w & u & E & Hw & Hu).
    destruct w as [|c w].
    + (* the text starts outside a word *)
      cbn in E. subst u. destruct text as [|c text]; [reflexivity|].
      rewrite re_sub_title_keep by now apply match_title_out.
      cbn in Hu. rewrite !runs_cons_out by exact Hu.
      apply IH; [cbn in Hlen; lia|]. left. exact Hu.
    + (* the text starts with the word [c :: w] *)
      assert (Hc : is_word c = true) by now inversion Hw.
      assert (Hp : is_word_opt prev = false).
      { destruct Hg as [Hg|Hg]; [exact Hg|].
        subst text. cbn in Hg. congruence. }
      pose proof (match_title_at_word prev (c :: w) u Hp
                    ltac:(congruence) Hw Hu) as Hm.
      subst text. rewrite runs_word by (auto; congruence).
      cbn [filter]. unfold other at 1.
      destruct (eqb (c :: w) title) eqn:Et; cbn [negb].
      * destruct Hm as (g & u' & Eu & Hgo & Hglast & Hm).
        rewrite length_app in Hm. cbn [length] in Hm.
        change (S (length w) + length g)
          with (S (length w + length g)) in Hm.
        rewrite (re_sub_title_drop _ _ _ _ Hm).
        rewrite re_sub_title_skip
          by (subst u; rewrite !length_app; cbn [length]; lia).
        subst u.
        replace (S (length w + length g))
          with (length ((c :: w) ++ g))
          by (rewrite length_app; cbn [length]; lia).
        rewrite app_assoc.
        rewrite firstn_length_app, skipn_length_app.
        rewrite runs_none by exact Hgo.
        apply IH.
        -- rewrite !length_app in Hlen. cbn [length] in Hlen. lia.
        -- destruct Hglast as [->|(g0 & c0 & ->)].
           ++ right. exact Hu.
           ++ left. rewrite app_assoc, last_char_app. cbn.
              apply Forall_app in Hgo. destruct Hgo as [_ Hgo].
              now inversion Hgo.
      * cbn [app]. rewrite re_sub_title_keep by exact Hm.
        rewrite re_sub_title_word by (auto; now inversion Hw).
        change (c :: w ++ ?x) with ((c :: w) ++ x).
        rewrite runs_word;
          [|congruence|exact Hw|now apply re_sub_title_stops].
        f_equal. apply IH.
        -- rewrite length_app in Hlen. cbn [length] in Hlen. lia.
        -- right. exact Hu.
Qed.

Lemma words_re_sub_title text :
  words (re_sub_title title None 0 text) = filter other (words text).
Proof.
  apply (words_re_sub_title_gen (length text)); [lia|now left].
Qed.

End Title.


(** ** The normal form *)

Definition title_ok (title : str) : Prop :=
  title <> [] /\ all_in is_word title.

Lemma titles_ok : Forall title_ok titles.
Proof.
  unfold titles, title_ok, all_in. cbn [map lit].
  repeat constructor; try discriminate.
Qed.

(** The words that are left after the loop over the titles. *)
Definition drop_titles (ts : list str) (ws : list str) : list str :=
  fold_left (fun ws title => filter (other title) ws) ts ws.

Definition no_title (ts : list str) (w : str) : bool :=
  forallb (fun title => other title w) ts.

Lemma filter_filter {A} (f g : A -> bool) l :
  filter f (filter g l) = filter (fun x => g x && f x) l.
Proof.
  induction l as [|x l IH]; [reflexivity|].
  cbn [filter]. destruct (g x); cbn [filter andb]; [|exact IH].
  destruct (f x); now rewrite IH.
Qed.

Lemma drop_titles_filter ts :
  forall ws, drop_titles ts ws = filter (no_title ts) ws.
Proof.
  induction ts as [|t ts IH]; intros ws; cbn [drop_titles fold_left].
  - cbn. induction ws as [|w ws IHw]; [reflexivity|].
    cbn. now rewrite <- IHw.
  - fold (drop_titles ts (filter (other t) ws)).
    rewrite IH, filter_filter. reflexivity.
Qed.

Lemma drop_titles_idem ts ws :
  drop_titles ts (drop_titles ts ws) = drop_titles ts ws.
Proof.
  rewrite !drop_titles_filter, filter_filter.
  apply filter_ext. intro w. now destruct (no_title ts w).
Qed.

Lemma words_titles_loop ts :
  Forall title_ok ts ->
  forall text,
    words (fold_left (fun text title => re_sub_title title None 0 text)
                     ts text)
    = drop_titles ts (words text).
Proof.
  induction 1 as [|t ts [H1 H2] Hts IH]; intros text; [reflexivity|].
  cbn [fold_left drop_titles]. rewrite IH.
  now rewrite words_re_sub_title.
Qed.

Lemma words_re_sub_punct text : words (re_sub_punct text) = words text.
Proof.
  apply runs_map.
  - intros c Hc. now rewrite Hc.
  - intros c Hc. rewrite Hc. cbn [orb].
    destruct (is_space c); [exact Hc|reflexivity].
Qed.

Lemma split_re_sub_punct text :
  split (re_sub_punct text) = words (re_sub_punct text).
Proof.
  apply runs_ext. intros c Hc.
  unfold re_sub_punct in Hc. apply in_map_iff in Hc.
  destruct Hc as (c0 & <- & _).
  destruct (is_word c0) eqn:Ew; cbn [orb].
  - rewrite Ew. destruct (is_space c0) eqn:Es; [|reflexivity].
    apply space_not_word in Es. congruence.
  - destruct (is_space c0) eqn:Es; [now rewrite Es, Ew|reflexivity].
Qed.

(** The result of [normalize_english]: the words of the lowered text
    that are not titles, joined by single spaces. *)
Lemma normalize_english_words t :
  normalize_english (PyStr t)
  = join (lit " ") (drop_titles titles (words (lower t))).
Proof.
  assert (H : join (lit " ")
                (split (re_sub_punct
                   (fold_left
                      (fun text title => re_sub_title title None 0 text)
                      titles (strip (lower t)))))
              = join (lit " ") (drop_titles titles (words (lower t)))).
  { rewrite split_re_sub_punct, words_re_sub_punct.
    rewrite words_titles_loop by apply titles_ok.
    now rewrite runs_strip by apply space_not_word. }
  destruct t as [|c t]; [reflexivity|exact H].
Qed.

Lemma lower_fixed text :
  Forall (fun c => lower_char c = c) text -> lower text = text.
Proof.
  unfold lower. induction 1 as [|c text Hc Ht IH]; [reflexivity|].
  cbn [map]. now rewrite Hc, IH.
Qed.

Lemma join_chars (P : ascii -> Prop) sep ws :
  Forall P sep -> Forall (Forall P) ws -> Forall P (join sep ws).
Proof.
  intros Hsep. induction 1 as [|w ws Hw Hws IH]; [constructor|].
  destruct ws as [|w' ws]; [exact Hw|].
  change (join sep (w :: w' :: ws)) with (w ++ sep ++ join sep (w' :: ws)).
  apply Forall_app. split; [exact Hw|].
  apply Forall_app. split; [exact Hsep|exact IH].
Qed.

Lemma normalize_english_fixed t :
  let ws := drop_titles titles (words (lower t)) in
  lower (join (lit " ") ws) = join (lit " ") ws /\
  words (join (lit " ") ws) = ws.
Proof.
  intros ws.
  assert (Hws : Forall (fun w => w <> [] /\ all_in is_word w /\
                                 incl w (lower t)) ws).
  { unfold ws. rewrite drop_titles_filter.
    apply Forall_forall. intros w Hw. apply filter_In in Hw.
    destruct Hw as [Hw _].
    pose proof (runs_spec is_word (lower t)) as H.
    rewrite Forall_forall in H. now apply H. }
  split.
  - apply lower_fixed. apply join_chars.
    + now repeat constructor.
    + eapply Forall_impl; [|exact Hws]. cbn. intros w (_ & _ & Hi).
      apply Forall_forall. intros c Hc. apply Hi in Hc.
      unfold lower in Hc. apply in_map_iff in Hc.
      destruct Hc as (c0 & <- & _). apply lower_char_idem.
  - apply runs_join.
    + eapply Forall_impl; [|exact Hws]. cbn. tauto.
    + discriminate.
    + now repeat constructor.
Qed.

Lemma normalize_english_idem (x : pyval) :
  normalize_english (PyStr (normalize_english x)) = normalize_english x.
Proof.
  destruct x as [|t|z]; try reflexivity.
  rewrite (normalize_english_words t).
  rewrite normalize_english_words.
  destruct (normalize_english_fixed t) as [H1 H2]. cbv zeta in H1, H2.
  rewrite H1, H2. now rewrite drop_titles_idem.
Qed.

End NormalizeFacts.

(* ================================================================== *)
(** * Properties of scores *)
(* ================================================================== *)

Module ScoreFacts.

Import PyStr StringUtils.

Lemma Qltb_lt x y : Qltb x y = true <-> (x < y)%Q.
Proof.
  unfold Qltb. rewrite negb_true_iff. split.
  - intros H. apply Qnot_le_lt. intros Hle.
    apply Qle_bool_iff in Hle. congruence.
  - intros H. destruct (Qle_bool y x) eqn:E; [|reflexivity].
    apply Qle_bool_iff in E. apply Qlt_not_le in H. contradiction.
Qed.

Lemma Qltb_ge x y : Qltb x y = false <-> (y <= x)%Q.
Proof.
  unfold Qltb. rewrite negb_false_iff. apply Qle_bool_iff.
Qed.

Lemma Qgeb_le x y : Qgeb x y = true <-> (y <= x)%Q.
Proof. apply Qle_bool_iff. Qed.

Lemma Qgeb_lt x y : Qgeb x y = false <-> (x < y)%Q.
Proof.
  unfold Qgeb. rewrite <- Qltb_lt. unfold Qltb.
  now rewrite negb_true_iff.
Qed.

Lemma py_max_spec x y : (py_max x y == Qmax x y)%Q.
Proof.
  unfold py_max. destruct (Qltb x y) eqn:E.
  - apply Qltb_lt in E. symmetry. apply Q.max_r. now apply Qlt_le_weak.
  - apply Qltb_ge in E. symmetry. now apply Q.max_l.
Qed.

Lemma py_min_spec x y : (py_min x y == Qmin x y)%Q.
Proof.
  unfold py_min. destruct (Qltb y x) eqn:E.
  - apply Qltb_lt in E. symmetry. apply Q.min_r. now apply Qlt_le_weak.
  - apply Qltb_ge in E. symmetry. now apply Q.min_l.
Qed.

Lemma py_max_cases x y : py_max x y = x \/ py_max x y = y.
Proof. unfold py_max. destruct (Qltb x y); auto. Qed.

Lemma py_max_ge x y : (x <= py_max x y /\ y <= py_max x y)%Q.
Proof.
  rewrite py_max_spec. split; [apply Q.le_max_l|apply Q.le_max_r].
Qed.

Lemma fold_py_max rest :
  forall s,
    (s <= fold_left py_max rest s)%Q /\
    (forall x, In x rest -> (x <= fold_left py_max rest s)%Q) /\
    In (fold_left py_max rest s) (s :: rest).
Proof.
  induction rest as [|y rest IH]; intros s; cbn [fold_left].
  - repeat split; [apply Qle_refl|intros x []|now left].
  - destruct (IH (py_max s y)) as (H1 & H2 & H3).
    destruct (py_max_ge s y) as [G1 G2].
    repeat split.
    + eapply Qle_trans; eauto.
    + intros x [<-|Hx]; [eapply Qle_trans; eauto|now apply H2].
    + destruct H3 as [H3|H3]; [|right; now right].
      rewrite <- H3. destruct (py_max_cases s y) as [->| ->];
        [now left|right; now left].
Qed.

(** [max(scores)] is an element of [scores] and an upper bound. *)
Lemma py_max_list_spec scores :
  scores <> [] ->
  In (py_max_list scores) scores /\
  (forall x, In x scores -> (x <= py_max_list scores)%Q).
Proof.
  destruct scores as [|s rest]; [congruence|]. intros _.
  cbn [py_max_list]. destruct (fold_py_max rest s) as (H1 & H2 & H3).
  split; [exact H3|]. intros x [<-|Hx]; auto.
Qed.

(** ** The ratio *)

Lemma ratio_bounds a b : (0 <= Difflib.ratio a b <= 1)%Q.
Proof.
  unfold Difflib.ratio.
  destruct (length a + length b =? 0) eqn:E; [split; discriminate|].
  apply Nat.eqb_neq in E.
  pose proof (DifflibFacts.matches_le a b) as Hm.
  set (m := Difflib.matches a b) in *.
  set (len := length a + length b) in *.
  assert (H0 : (0 <= inject_Z (Z.of_nat m))%Q)
    by (change 0%Q with (inject_Z 0); rewrite <- Zle_Qle; lia).
  assert (H1 : (0 < inject_Z (Z.of_nat len))%Q)
    by (change 0%Q with (inject_Z 0); rewrite <- Zlt_Qlt; lia).
  assert (H2 : (2 * inject_Z (Z.of_nat m) <= inject_Z (Z.of_nat len))%Q).
  { change 2%Q with (inject_Z 2). rewrite <- inject_Z_mult.
    rewrite <- Zle_Qle. lia. }
  split.
  - apply Qle_shift_div_l; [exact H1|]. lra.
  - apply Qle_shift_div_r; [exact H1|]. lra.
Qed.

Lemma ratio_same s : (Difflib.ratio s s == 1)%Q.
Proof.
  unfold Difflib.ratio. rewrite DifflibFacts.matches_same.
  destruct (length s + length s =? 0) eqn:E; [reflexivity|].
  apply Nat.eqb_neq in E.
  assert (H1 : (0 < inject_Z (Z.of_nat (length s + length s)))%Q)
    by (change 0%Q with (inject_Z 0); rewrite <- Zlt_Qlt; lia).
  assert (H2 : (2 * inject_Z (Z.of_nat (length s))
                == inject_Z (Z.of_nat (length s + length s)))%Q).
  { change 2%Q with (inject_Z 2). rewrite <- inject_Z_mult.
    apply inject_Z_injective. lia. }
  rewrite H2. apply Qmult_inv_r. intro H. rewrite H in H1.
  now apply Qlt_irrefl in H1.
Qed.

(** ** The plain ratio *)

Lemma similarity_ratio_empty_r s : similarity_ratio s [] = 0%Q.
Proof. destruct s; reflexivity. Qed.

Lemma similarity_ratio_empty_l s : similarity_ratio [] s = 0%Q.
Proof. reflexivity. Qed.

Lemma similarity_ratio_bounds a b : (0 <= similarity_ratio a b <= 100)%Q.
Proof.
  pose proof (ratio_bounds a b) as [H0 H1].
  unfold similarity_ratio.
  destruct a as [|x a]; [split; discriminate|].
  destruct b as [|y b]; [split; discriminate|].
  split; lra.
Qed.

Lemma similarity_ratio_same s :
  s <> [] -> (similarity_ratio s s == 100)%Q.
Proof.
  intros Hs. pose proof (ratio_same s) as H.
  unfold similarity_ratio. destruct s as [|x s]; [congruence|].
  rewrite H. reflexivity.
Qed.

End ScoreFacts.

(* ================================================================== *)
(** * Properties of the risk calculation *)
(* ================================================================== *)

Module RiskFacts.

Import PyStr Config RiskCalculator Spec Signals.

Lemma lower_idem t : lower (lower t) = lower t.
Proof.
  unfold lower. rewrite map_map. apply map_ext.
  apply PyStrFacts.lower_char_idem.
Qed.

Lemma lower_nonempty t : nonempty (lower t) = nonempty t.
Proof. destruct t; reflexivity. Qed.

Lemma truthy_str t : truthy (PyStr t) = nonempty t.
Proof. destruct t; reflexivity. Qed.

Lemma sum_app l1 l2 : sum (l1 ++ l2) = (sum l1 + sum l2)%Z.
Proof.
  induction l1 as [|x l1 IH]; cbn [app sum fold_right]; [reflexivity|].
  fold (sum (l1 ++ l2)). fold (sum l1). lia.
Qed.

Lemma sum_when fired p : sum (when fired p) = if fired then p else 0%Z.
Proof. destruct fired; cbn; lia. Qed.

Lemma eqb_repeat c s :
  eqb s (repeat_char c (length s)) = forallb (fun x => Ascii.eqb x c) s.
Proof.
  unfold repeat_char. induction s as [|x s IH]; [reflexivity|].
  cbn [length repeat forallb]. destruct (Ascii.eqb x c) eqn:E.
  - apply Ascii.eqb_eq in E. subst x. cbn [andb]. rewrite <- IH.
    unfold eqb.
    destruct (list_eq_dec ascii_dec s (repeat c (length s)));
      destruct (list_eq_dec ascii_dec (c :: s) (c :: repeat c (length s)));
      congruence.
  - apply Ascii.eqb_neq in E. cbn [andb]. unfold eqb.
    destruct (list_eq_dec ascii_dec (x :: s) (c :: repeat c (length s)));
      congruence.
Qed.

Lemma distinct_repeat c n : distinct (repeat c (S n)) = 1.
Proof.
  unfold distinct. induction n as [|n IH]; [reflexivity|].
  change (repeat c (S (S n))) with (c :: repeat c (S n)).
  cbn [nodup]. destruct (in_dec ascii_dec c (repeat c (S n))) as [|H];
    [exact IH|].
  exfalso. apply H. now left.
Qed.

Section Steps.

Variable strptime_date : str -> option DateUtils.date.
Variable today : DateUtils.date.
Variable cfg : config_module.

(** An occupation that is a string (or absent) and an identifier
    that is not a number: what the aggregation needs in order to
    return. *)
Definition text_fields (customer : pydict) : Prop :=
  (exists t, dict_get customer "occupation" (PyStr []) = PyStr t) /\
  (forall z, dict_get customer "id_number" (PyStr []) = PyInt z ->
             z = 0%Z).

Lemma pep_check_returns customer st :
  (exists t, dict_get customer "occupation" (PyStr []) = PyStr t) ->
  exists st', pep_check cfg customer st = Ok st'.
Proof.
  intros [t Ht]. unfold pep_check. rewrite Ht. cbn [py_lower bind].
  unfold StringUtils.contains_pep_indicator.
  destruct (negb (truthy (PyStr (lower t)))); cbn [bind]; [eauto|].
  match goal with |- context [if ?b then _ else _] => destruct b end;
    eauto.
Qed.

Lemma pep_check_score customer st st' :
  PEP_INDICATORS cfg <> [] ->
  pep_check cfg customer st = Ok st' ->
  acc_score st' =
  (acc_score st
   + sum (when (pep_signal cfg customer)
               (pep_penalty (RISK_SCORING cfg))))%Z.
Proof.
  intros Hne. unfold pep_check, pep_signal.
  destruct (dict_get customer "occupation" (PyStr [])) as [|t|z];
    cbn [py_lower bind text_of]; try discriminate.
  unfold StringUtils.contains_pep_indicator.
  rewrite truthy_str, lower_nonempty, lower_idem.
  destruct (nonempty t); cbn [negb andb bind].
  - destruct (PEP_INDICATORS cfg) as [|i l] eqn:Ei; [congruence|].
    rewrite sum_when.
    destruct (existsb _ (i :: l)); intros H; injection H as <-;
      cbn; lia.
  - intros H. injection H as <-. cbn. lia.
Qed.

Lemma country_check_score customer st :
  acc_score (country_check cfg customer st) =
  (acc_score st
   + sum (when (jurisdiction_signal cfg customer)
               (high_risk_country_penalty (RISK_SCORING cfg))))%Z.
Proof.
  unfold country_check, jurisdiction_signal. rewrite sum_when.
  destruct (existsb _ (HIGH_RISK_COUNTRIES cfg)); cbn; lia.
Qed.

Lemma match_step_score st m :
  acc_score (match_step cfg st m)
  = (acc_score st + match_penalty cfg m)%Z.
Proof.
  unfold match_step, match_penalty.
  destruct (match_type m); reflexivity.
Qed.

Lemma matches_check_score ms :
  forall st,
    acc_score (matches_check cfg ms st)
    = (acc_score st + sum (map (match_penalty cfg) ms))%Z.
Proof.
  unfold matches_check.
  induction ms as [|m ms IH]; intros st; cbn [fold_left map].
  - cbn. lia.
  - rewrite IH, match_step_score. cbn [sum fold_right].
    fold (sum (map (match_penalty cfg) ms)). lia.
Qed.

Lemma match_penalties_nonneg ms :
  (0 <= sanction_match_penalty (RISK_SCORING cfg))%Z ->
  (0 <= partial_match_penalty (RISK_SCORING cfg))%Z ->
  (0 <= sum (map (match_penalty cfg) ms))%Z.
Proof.
  intros H1 H2. induction ms as [|m l IH]; cbn [map sum fold_right];
    [lia|].
  fold (sum (map (match_penalty cfg) l)).
  assert (0 <= match_penalty cfg m)%Z
    by (unfold match_penalty; destruct (match_type m); lia).
  lia.
Qed.

Lemma age_check_score customer st :
  (0 <= age_risk_threshold (RISK_SCORING cfg))%Z ->
  acc_score (age_check strptime_date today cfg customer st) =
  (acc_score st
   + sum (when (age_signal strptime_date today cfg customer) 15))%Z.
Proof.
  intros Hthr. unfold age_check, age_signal. rewrite sum_when.
  destruct (truthy (dict_get customer "date_of_birth" PyNone)) eqn:Et.
  - destruct (DateUtils.calculate_age strptime_date today
                (dict_get customer "date_of_birth" PyNone))
      as [age|]; [|lia].
    destruct (age_risk_threshold (RISK_SCORING cfg) <? age)%Z eqn:E.
    + apply Z.ltb_lt in E.
      replace (age =? 0)%Z with false by (symmetry; apply Z.eqb_neq; lia).
      replace (age >? age_risk_threshold (RISK_SCORING cfg))%Z with true
        by (symmetry; apply Z.gtb_lt; lia).
      cbn. lia.
    + apply Z.ltb_ge in E.
      replace (age >? age_risk_threshold (RISK_SCORING cfg))%Z with false
        by (symmetry; rewrite Z.gtb_ltb; apply Z.ltb_ge; lia).
      rewrite andb_false_r. lia.
  - unfold DateUtils.calculate_age. rewrite Et. cbn. lia.
Qed.

Lemma id_check_returns customer st :
  (forall z, dict_get customer "id_number" (PyStr []) = PyInt z ->
             z = 0%Z) ->
  exists st', id_check cfg customer st = Ok st'.
Proof.
  intros Hz. unfold id_check.
  destruct (dict_get customer "id_number" (PyStr [])) as [|s|z].
  - cbn. eauto.
  - destruct (truthy (PyStr s)); [|eauto].
    cbn [py_len_set all_zeros bind].
    destruct (eqb s _); eauto.
  - rewrite (Hz z eq_refl). cbn. eauto.
Qed.

Lemma id_check_effect customer st st' :
  id_check cfg customer st = Ok st' ->
  acc_score st' =
  (acc_score st
   + sum (when (low_cardinality_signal customer)
               (unusual_id_penalty (RISK_SCORING cfg)))
   + sum (when (all_zeros_signal customer) 20))%Z /\
  acc_factors st' =
  acc_factors st
  ++ (if low_cardinality_signal customer
      then [lit "Suspicious ID number pattern"] else [])
  ++ (if all_zeros_signal customer
      then [lit "ID number contains only zeros"] else []).
Proof.
  unfold id_check, low_cardinality_signal, all_zeros_signal.
  destruct (dict_get customer "id_number" (PyStr [])) as [|s|z];
    cbn [text_of nonempty andb].
  - cbn. intros H. injection H as <-. rewrite app_nil_r. split; [lia|auto].
  - rewrite truthy_str. destruct (nonempty s) eqn:En; cbn [andb].
    + cbn [py_len_set all_zeros bind]. rewrite eqb_repeat, !sum_when.
      destruct (distinct s <=? 3);
        destruct (forallb (fun c => Ascii.eqb c "0") s);
        intros H; injection H as <-; cbn; rewrite <- ?app_assoc;
        rewrite ?app_nil_r; split; (lia || reflexivity).
    + intros H. injection H as <-. cbn. rewrite app_nil_r.
      split; [lia|auto].
  - destruct (truthy (PyInt z)); cbn [py_len_set bind];
      [discriminate|].
    intros H. injection H as <-. cbn. rewrite app_nil_r.
    split; [lia|auto].
Qed.

(** The state before the final clamp. *)
Lemma calculate_customer_risk_steps customer ms ra :
  calculate_customer_risk strptime_date today cfg customer ms = Ok ra ->
  exists st1 st5,
    pep_check cfg customer (mkAcc 0 [] []) = Ok st1 /\
    id_check cfg customer
      (age_check strptime_date today cfg customer
         (matches_check cfg ms (country_check cfg customer st1)))
    = Ok st5 /\
    risk_score ra
    = Z.min (acc_score st5) (max_risk_score (RISK_SCORING cfg)) /\
    risk_level ra = _determine_risk_level (risk_score ra) /\
    risk_factors ra = acc_factors st5.
Proof.
  unfold calculate_customer_risk.
  destruct (pep_check cfg customer (mkAcc 0 [] [])) as [st1|e];
    cbn [bind]; [|discriminate].
  destruct (id_check cfg customer _) as [st5|e] eqn:E5;
    cbn [bind]; [|discriminate].
  intros H. injection H as <-. exists st1, st5. cbn. auto.
Qed.

Lemma calculate_customer_risk_returns customer ms :
  text_fields customer ->
  exists ra,
    calculate_customer_risk strptime_date today cfg customer ms = Ok ra.
Proof.
  intros [Ho Hi]. unfold calculate_customer_risk.
  destruct (pep_check_returns customer (mkAcc 0 [] []) Ho) as [st1 ->].
  cbn [bind].
  match goal with
  | |- context [id_check cfg customer ?s] =>
      destruct (id_check_returns customer s Hi) as [st5 ->]
  end.
  cbn [bind]. eauto.
Qed.

Lemma calculate_customer_risk_score customer ms ra :
  valid_config cfg ->
  calculate_customer_risk strptime_date today cfg customer ms = Ok ra ->
  risk_score ra
  = Z.min (sum (fired_penalties strptime_date today cfg customer ms))
          (max_risk_score (RISK_SCORING cfg)) /\
  (0 <= sum (fired_penalties strptime_date today cfg customer ms))%Z.
Proof.
  intros [(V1 & V2 & V3 & V4 & V5 & V6 & V7) Vp] H.
  destruct (calculate_customer_risk_steps customer ms ra H)
    as (st1 & st5 & E1 & E5 & Hs & _ & _).
  apply (pep_check_score _ _ _ Vp) in E1.
  apply id_check_effect in E5. destruct E5 as [E5 _].
  rewrite age_check_score, matches_check_score, country_check_score
    in E5 by exact V5.
  cbn [acc_score] in E1.
  unfold fired_penalties. rewrite !sum_app.
  pose proof (match_penalties_nonneg ms V3 V4) as Hm.
  rewrite !sum_when in *.
  split; [rewrite Hs; f_equal; lia|].
  destruct (pep_signal cfg customer);
    destruct (jurisdiction_signal cfg customer);
    destruct (age_signal strptime_date today cfg customer);
    destruct (low_cardinality_signal customer);
    destruct (all_zeros_signal customer); lia.
Qed.

End Steps.

Lemma _determine_risk_level_spec score level :
  _determine_risk_level score = level <-> level_of score level.
Proof.
  unfold _determine_risk_level, level_of.
  destruct (score >=? 80)%Z eqn:E1;
    [|destruct (score >=? 60)%Z eqn:E2;
      [|destruct (score >=? 40)%Z eqn:E3;
        [|destruct (score >=? 20)%Z eqn:E4]]];
    rewrite ?Z.geb_leb in *;
    repeat match goal with
           | H : (_ <=? _)%Z = true |- _ => apply Z.leb_le in H
           | H : (_ <=? _)%Z = false |- _ => apply Z.leb_gt in H
           end;
    destruct level; split; intros H; try discriminate; try lia;
    try reflexivity.
Qed.

End RiskFacts.

(* ================================================================== *)
(** * Properties of the match evaluator *)
(* ================================================================== *)

Module EvaluatorFacts.

Import PyStr StringUtils KYCScreeningTool ScoreFacts.

Lemma Qle_bool_compat t x y : (x == y)%Q -> Qle_bool t x = Qle_bool t y.
Proof.
  intros E. destruct (Qle_bool t y) eqn:Ey.
  - apply Qle_bool_iff. apply Qle_bool_iff in Ey. now rewrite E.
  - destruct (Qle_bool t x) eqn:Ex; [|reflexivity].
    apply Qle_bool_iff in Ex. rewrite E in Ex.
    apply Qle_bool_iff in Ex. congruence.
Qed.

(** The guard [if alias_name] changes nothing: the ratio with an
    empty alias is 0 anyway. *)
Lemma name_score_unfold customer sanction :
  name_score customer sanction
  = py_max
      (similarity_ratio
         (normalize_english (dict_get customer "full_name_en" (PyStr [])))
         (normalize_english (full_name_en sanction)))
      (similarity_ratio
         (normalize_english (dict_get customer "full_name_en" (PyStr [])))
         (normalize_english (alias_en sanction))).
Proof.
  unfold name_score, name_scores.
  destruct (normalize_english (alias_en sanction)) as [|c a] eqn:E;
    cbn [truthy]; [|reflexivity].
  now rewrite similarity_ratio_empty_r.
Qed.

Lemma name_score_bounds customer sanction :
  (0 <= name_score customer sanction <= 100)%Q.
Proof.
  rewrite name_score_unfold.
  match goal with
  | |- context [py_max ?x ?y] =>
      destruct (py_max_cases x y) as [-> | ->]
  end; apply similarity_ratio_bounds.
Qed.

Lemma classify_spec score :
  classify score = (Qle_bool 85 score, Spec.classification score).
Proof.
  unfold classify, Spec.classification, Qgeb.
  change (inject_Z (Config.name_match_threshold
                      (Config.SCREENING_CONFIG Config.config)))
    with 85%Q.
  destruct (Qle_bool 85 score); reflexivity.
Qed.

Lemma check_classification customer sanction :
  let v := _check_sanction_match customer sanction in
  is_match v = Qle_bool 85 (name_score customer sanction) /\
  match_type v = Spec.classification (name_score customer sanction).
Proof.
  unfold _check_sanction_match. rewrite classify_spec.
  destruct (dob_criterion customer sanction _). cbn. auto.
Qed.

Lemma check_match_score customer sanction :
  let v := _check_sanction_match customer sanction in
  match_score v
  = py_min (snd (dob_criterion customer sanction
                   (name_score customer sanction))) 100 /\
  dob_match v
  = fst (dob_criterion customer sanction (name_score customer sanction)).
Proof.
  unfold _check_sanction_match. rewrite classify_spec.
  destruct (dob_criterion customer sanction _). cbn. auto.
Qed.

(** A customer without a name matches no entry. *)
Lemma no_name_no_match customer sanction :
  truthy (dict_get customer "full_name_en" (PyStr [])) = false ->
  is_match (_check_sanction_match customer sanction) = false.
Proof.
  intros H.
  destruct (check_classification customer sanction) as [-> _].
  rewrite name_score_unfold.
  assert (E : normalize_english
                (dict_get customer "full_name_en" (PyStr [])) = []).
  { destruct (dict_get customer "full_name_en" (PyStr [])) as [|[|c t]|z];
      try reflexivity. discriminate. }
  rewrite E. reflexivity.
Qed.

End EvaluatorFacts.

(* ================================================================== *)
(** * The claims *)
(* ================================================================== *)

Import PyStr StringUtils KYCScreeningTool.
Import ScoreFacts EvaluatorFacts.

(** C9.  Name normalization for Latin script is idempotent:
    normalizing a normalized name changes nothing.  This holds for
    every argument, a string or not. *)
Theorem normalize_english_idempotent (x : pyval) :
  normalize_english (PyStr (normalize_english x)) = normalize_english x.
Proof. apply NormalizeFacts.normalize_english_idem. Qed.

(** C7.  The similarity of a non-empty string with itself is 100; the
    similarity of any string with the empty string is 0, in either
    order, and so is the similarity of two empty strings.  The claim
    itself sets the similarity of two empty strings to 0, so its first
    clause speaks of the non-empty strings. *)
Theorem similarity_identity_and_empty (s : str) :
  (s <> [] -> similarity_ratio s s == 100)%Q /\
  (similarity_ratio s [] == 0)%Q /\
  (similarity_ratio [] s == 0)%Q /\
  (similarity_ratio [] [] == 0)%Q.
Proof.
  split; [apply similarity_ratio_same|].
  rewrite similarity_ratio_empty_r, similarity_ratio_empty_l.
  repeat split; reflexivity.
Qed.

Lemma similarity_identity_and_empty_witness :
  (similarity_ratio (lit "ali") (lit "ali") == 100)%Q.
Proof.
  apply (proj1 (similarity_identity_and_empty (lit "ali"))).
  discriminate.
Defined.

(** ** Partial ratio *)

Lemma slice_window (pre w post : str) :
  slice (pre ++ w ++ post) (length pre) (length w) = w.
Proof.
  unfold slice.
  rewrite NormalizeFacts.skipn_length_app.
  apply NormalizeFacts.firstn_length_app.
Qed.

Lemma partial_ratio_window (pre shorter post : str) :
  shorter <> [] ->
  let longer := pre ++ shorter ++ post in
  (py_max_list
     (map (fun i => similarity_ratio shorter
                      (slice longer i (length shorter)))
          (seq 0 (length longer - length shorter + 1)))
   == 100)%Q.
Proof.
  intros Hs longer.
  set (scores := map _ _).
  assert (Hin : In (similarity_ratio shorter shorter) scores).
  { unfold scores. apply in_map_iff. exists (length pre). split.
    - unfold longer. now rewrite slice_window.
    - apply in_seq. unfold longer. rewrite !length_app. lia. }
  assert (Hne : scores <> []) by (intro E; rewrite E in Hin; inversion Hin).
  destruct (py_max_list_spec scores Hne) as [Hmax Hub].
  apply Qle_antisym.
  - assert (Hle : forall x, In x scores -> (x <= 100)%Q).
    { intros x Hx. unfold scores in Hx. apply in_map_iff in Hx.
      destruct Hx as (i & <- & _). apply similarity_ratio_bounds. }
    now apply Hle.
  - rewrite <- (similarity_ratio_same shorter Hs). now apply Hub.
Qed.

(** C8.  When a non-empty string occurs as a contiguous substring of
    another, their partial ratio is 100, whichever is given first, and
    so it is at least their plain ratio. *)
Theorem partial_ratio_of_substring (pre s post : str) :
  s <> [] ->
  let l := pre ++ s ++ post in
  (_partial_ratio s l == 100)%Q /\
  (_partial_ratio l s == 100)%Q /\
  (similarity_ratio s l <= _partial_ratio s l)%Q /\
  (similarity_ratio l s <= _partial_ratio l s)%Q.
Proof.
  intros Hs l.
  assert (Hlen : length l = length pre + length s + length post)
    by (unfold l; rewrite !length_app; lia).
  assert (H1 : (_partial_ratio s l == 100)%Q).
  { unfold _partial_ratio.
    replace (length s <=? length l) with true
      by (symmetry; apply Nat.leb_le; lia).
    exact (partial_ratio_window pre s post Hs). }
  assert (H2 : (_partial_ratio l s == 100)%Q).
  { unfold _partial_ratio.
    destruct (length l <=? length s) eqn:E.
    - apply Nat.leb_le in E.
      assert (pre = []) by (apply length_zero_iff_nil; lia).
      assert (post = []) by (apply length_zero_iff_nil; lia).
      subst pre post. unfold l. cbn [app]. rewrite app_nil_r.
      pose proof (partial_ratio_window [] s [] Hs) as H.
      cbn [app] in H. rewrite app_nil_r in H. exact H.
    - exact (partial_ratio_window pre s post Hs). }
  repeat split; auto.
  - rewrite H1. apply similarity_ratio_bounds.
  - rewrite H2. apply similarity_ratio_bounds.
Qed.

Lemma partial_ratio_of_substring_witness :
  (_partial_ratio (lit "ali") (lit "mohamed ali hassan") == 100)%Q /\
  (similarity_ratio (lit "ali") (lit "mohamed ali hassan")
   <= _partial_ratio (lit "ali") (lit "mohamed ali hassan"))%Q.
Proof.
  destruct (partial_ratio_of_substring
              (lit "mohamed ") (lit "ali") (lit " hassan"))
    as (H1 & _ & H3 & _); [discriminate|].
  split; [exact H1|exact H3].
Defined.

(** ** Name score *)

(** C2, the claim as stated fails: for the customer "Ali" and the
    entry "Mohamed Ali Hassan" the evaluator's name score is 200/7
    (about 28.6), the plain ratio, while the combined fuzzy score of
    the two normalized names is 100. *)
Lemma name_score_is_not_fuzzy_score :
  (name_score Examples.customer_ali Examples.entry_mohamed_ali_hassan
   == 200 # 7)%Q /\
  (Spec.fuzzy_name_score Examples.customer_ali
                         Examples.entry_mohamed_ali_hassan
   == 100)%Q /\
  ~ (name_score Examples.customer_ali Examples.entry_mohamed_ali_hassan
     == Spec.fuzzy_name_score Examples.customer_ali
                              Examples.entry_mohamed_ali_hassan)%Q.
Proof.
  repeat split; vm_compute; congruence.
Qed.

(** C2 (as amended).  The name score of the evaluator is the maximum
    of the plain ratios of the normalized customer name with the
    normalized primary name and with the normalized alias (0 for an
    empty alias); the verdict records the ratio with the primary name,
    and the name score decides is-match and the classification. *)
Theorem name_score_is_plain_ratio (customer : pydict) (entry : sanction) :
  let v := _check_sanction_match customer entry in
  (name_score customer entry == Spec.plain_name_score customer entry)%Q /\
  name_match_score v
  = similarity_ratio
      (normalize_english (dict_get customer "full_name_en" (PyStr [])))
      (normalize_english (full_name_en entry)) /\
  is_match v = Qle_bool 85 (Spec.plain_name_score customer entry) /\
  match_type v
  = Spec.classification (Spec.plain_name_score customer entry).
Proof.
  intros v.
  assert (E : (name_score customer entry
               == Spec.plain_name_score customer entry)%Q).
  { rewrite name_score_unfold. apply py_max_spec. }
  destruct (check_classification customer entry) as [H1 H2].
  fold v in H1, H2.
  split; [exact E|]. split; [|split].
  - unfold v, _check_sanction_match.
    destruct (classify _). destruct (dob_criterion _ _ _). reflexivity.
  - rewrite H1. now apply Qle_bool_compat.
  - rewrite H2. unfold Spec.classification.
    rewrite (Qle_bool_compat 85 _ _ E), (Qle_bool_compat 95 _ _ E).
    reflexivity.
Qed.

(** ** Date-of-birth bonus *)

Lemma dob_criterion_equal customer entry score :
  truthy (dict_get customer "date_of_birth" PyNone) = true ->
  truthy (date_of_birth entry) = true ->
  py_eqb (dict_get customer "date_of_birth" PyNone) (date_of_birth entry)
  = true ->
  dob_criterion customer entry score = (true, (score + 20)%Q).
Proof.
  intros H1 H2 H3. unfold dob_criterion. now rewrite H1, H2, H3.
Qed.

(** C4.  When customer and entry both carry a date of birth and the
    two are equal, the evaluator records the date match, classifies
    by the name score before the bonus, and stores the name score
    plus 20 clamped to 100.  The classification is the one the same
    entry gets without a date of birth. *)
Theorem dob_bonus_after_classification
        (customer : pydict) (entry : sanction) :
  truthy (dict_get customer "date_of_birth" PyNone) = true ->
  truthy (date_of_birth entry) = true ->
  py_eqb (dict_get customer "date_of_birth" PyNone) (date_of_birth entry)
  = true ->
  let v := _check_sanction_match customer entry in
  let unboosted := _check_sanction_match customer (Spec.without_dob entry) in
  dob_match v = true /\
  match_type v = Spec.classification (name_score customer entry) /\
  is_match v = Qle_bool 85 (name_score customer entry) /\
  (match_score v == Qmin (name_score customer entry + 20) 100)%Q /\
  (match_score v <= 100)%Q /\
  match_type v = match_type unboosted /\
  is_match v = is_match unboosted /\
  (match_score unboosted == name_score customer entry)%Q.
Proof.
  intros H1 H2 H3 v unboosted.
  destruct (check_classification customer entry) as [C1 C2].
  destruct (check_match_score customer entry) as [M1 M2].
  destruct (check_classification customer (Spec.without_dob entry))
    as [U1 U2].
  destruct (check_match_score customer (Spec.without_dob entry))
    as [N1 _].
  fold v in C1, C2, M1, M2. fold unboosted in U1, U2, N1.
  rewrite (dob_criterion_equal _ _ _ H1 H2 H3) in M1, M2.
  cbn [fst snd] in M1, M2.
  assert (Hs : name_score customer (Spec.without_dob entry)
               = name_score customer entry) by reflexivity.
  rewrite Hs in U1, U2, N1.
  assert (Hn : dob_criterion customer (Spec.without_dob entry)
                 (name_score customer entry)
               = (false, name_score customer entry)).
  { unfold dob_criterion. cbn [Spec.without_dob date_of_birth truthy].
    now rewrite andb_false_r. }
  rewrite Hn in N1. cbn [snd] in N1.
  destruct (name_score_bounds customer entry) as [_ B].
  repeat split; auto; try congruence.
  - rewrite M1. apply py_min_spec.
  - rewrite M1, py_min_spec. apply Q.le_min_r.
  - rewrite N1, py_min_spec. now apply Q.min_l.
Qed.

Lemma dob_bonus_after_classification_witness :
  let v := _check_sanction_match Examples.customer_ahmed
                                 Examples.entry_ahmed in
  dob_match v = true /\ match_type v = EXACT /\
  (match_score v == 100)%Q.
Proof.
  destruct (dob_bonus_after_classification
              Examples.customer_ahmed Examples.entry_ahmed
              eq_refl eq_refl eq_refl)
    as (H1 & H2 & _ & H4 & _).
  cbv zeta. split; [exact H1|]. split.
  - rewrite H2. vm_compute. reflexivity.
  - rewrite H4. vm_compute. reflexivity.
Defined.

(** C10.  When the name score is below the threshold and the dates of
    birth are present and equal, the verdict is a non-match classified
    NO_MATCH whose match score is the name score plus 20, clamped to
    100; for "John Smith" against "Jon Smyth" that score is 100, above
    the threshold of 85. *)
Theorem non_match_score_gets_dob_bonus :
  (forall (customer : pydict) (entry : sanction),
      (name_score customer entry
       < inject_Z (Config.name_match_threshold
                     (Config.SCREENING_CONFIG Config.config)))%Q ->
      truthy (dict_get customer "date_of_birth" PyNone) = true ->
      truthy (date_of_birth entry) = true ->
      py_eqb (dict_get customer "date_of_birth" PyNone)
             (date_of_birth entry) = true ->
      let v := _check_sanction_match customer entry in
      is_match v = false /\
      match_type v = NO_MATCH /\
      (match_score v == Qmin (name_score customer entry + 20) 100)%Q) /\
  (let v := _check_sanction_match Examples.customer_john_smith
                                  Examples.entry_jon_smyth in
   is_match v = false /\ match_type v = NO_MATCH /\
   (name_score Examples.customer_john_smith Examples.entry_jon_smyth
    == 1600 # 19)%Q /\
   (match_score v == 100)%Q /\
   (inject_Z (Config.name_match_threshold
                (Config.SCREENING_CONFIG Config.config))
    <= match_score v)%Q).
Proof.
  split.
  - intros customer entry Hlt H1 H2 H3 v.
    change (inject_Z (Config.name_match_threshold
                        (Config.SCREENING_CONFIG Config.config)))
      with 85%Q in Hlt.
    destruct (check_classification customer entry) as [C1 C2].
    destruct (check_match_score customer entry) as [M1 _].
    fold v in C1, C2, M1.
    rewrite (dob_criterion_equal _ _ _ H1 H2 H3) in M1. cbn [snd] in M1.
    assert (E : Qle_bool 85 (name_score customer entry) = false).
    { destruct (Qle_bool 85 (name_score customer entry)) eqn:E;
        [|reflexivity].
      apply Qle_bool_iff in E. apply Qlt_not_le in Hlt. contradiction. }
    unfold Spec.classification in C2. rewrite E in C1, C2.
    repeat split; auto. rewrite M1. apply py_min_spec.
  - cbv zeta. repeat split; vm_compute; congruence.
Qed.

Lemma non_match_score_gets_dob_bonus_witness :
  let v := _check_sanction_match Examples.customer_john_smith
                                 Examples.entry_jon_smyth in
  is_match v = false /\ match_type v = NO_MATCH /\
  (match_score v
   == Qmin (name_score Examples.customer_john_smith
                       Examples.entry_jon_smyth + 20) 100)%Q.
Proof.
  apply (proj1 non_match_score_gets_dob_bonus
               Examples.customer_john_smith Examples.entry_jon_smyth).
  - vm_compute. reflexivity.
  - reflexivity.
  - reflexivity.
  - reflexivity.
Defined.


(** ** Disposition *)

Lemma any_of_filter t (verdicts : list match_result) :
  Spec.any_of t verdicts
  = match filter (fun m => match_type_eqb (match_type m) t) verdicts with
    | [] => false
    | _ :: _ => true
    end.
Proof.
  unfold Spec.any_of. induction verdicts as [|m ms IH]; [reflexivity|].
  cbn [existsb filter].
  destruct (match_type_eqb (match_type m) t); [reflexivity|exact IH].
Qed.

Lemma _determine_screening_result_rule matches assessment :
  _determine_screening_result matches assessment
  = Spec.disposition_rule matches (risk_level assessment).
Proof.
  unfold _determine_screening_result, Spec.disposition_rule.
  destruct matches as [|m ms]; [reflexivity|].
  cbn [length Nat.eqb]. rewrite !any_of_filter.
  destruct (filter _ (m :: ms)); [|reflexivity].
  destruct (risk_level assessment); try reflexivity;
    destruct (filter _ (m :: ms)); reflexivity.
Qed.

Lemma _perform_sanctions_screening_retained search customer :
  _perform_sanctions_screening search customer
  = Spec.retained customer
      (search (dict_get customer "full_name_en" (PyStr []))).
Proof.
  unfold _perform_sanctions_screening, Spec.retained.
  destruct (truthy (dict_get customer "full_name_en" (PyStr []))) eqn:E;
    [reflexivity|].
  induction (search (dict_get customer "full_name_en" (PyStr [])))
    as [|e es IH]; [reflexivity|].
  cbn [map filter]. now rewrite (no_name_no_match customer e E).
Qed.

(** C1.  The screening result is the ordered disposition rule applied
    to the retained verdicts, those of the candidate entries with
    is-match true, and to the risk level computed from them; in
    particular a single EXACT verdict is REJECTED at risk level
    VERY_LOW. *)
Theorem disposition_follows_ordered_rule
        (strptime_date : str -> option DateUtils.date)
        (today : DateUtils.date)
        (search_sanctions : pyval -> list sanction)
        (customer : pydict) :
  let candidates :=
    search_sanctions (dict_get customer "full_name_en" (PyStr [])) in
  let verdicts := Spec.retained customer candidates in
  (forall matches assessment,
      _determine_screening_result matches assessment
      = Spec.disposition_rule matches (risk_level assessment)) /\
  _perform_sanctions_screening search_sanctions customer = verdicts /\
  screen_new_customer strptime_date today search_sanctions customer
  = (assessment <-
       RiskCalculator.calculate_customer_risk
         strptime_date today Config.config customer verdicts ;;
     Ok (verdicts, assessment,
         Spec.disposition_rule verdicts (risk_level assessment))) /\
  (forall verdict assessment,
      match_type verdict = EXACT ->
      risk_level assessment = VERY_LOW ->
      _determine_screening_result [verdict] assessment = REJECTED).
Proof.
  intros candidates verdicts.
  split; [apply _determine_screening_result_rule|].
  split; [apply _perform_sanctions_screening_retained|].
  split.
  - unfold screen_new_customer.
    rewrite _perform_sanctions_screening_retained.
    fold candidates. fold verdicts.
    destruct (RiskCalculator.calculate_customer_risk _ _ _ _ _)
      as [assessment|e]; cbn [bind]; [|reflexivity].
    now rewrite _determine_screening_result_rule.
  - intros verdict assessment Hv Hl.
    rewrite _determine_screening_result_rule, Hl.
    unfold Spec.disposition_rule, Spec.any_of. cbn. now rewrite Hv.
Qed.

Lemma disposition_follows_ordered_rule_witness :
  _determine_screening_result [Examples.exact_verdict "Ahmed Ali Al-Masri"]
                              Examples.very_low_assessment
  = REJECTED.
Proof.
  apply (proj2 (proj2 (proj2
           (disposition_follows_ordered_rule
              Examples.strptime_date Examples.today
              (fun _ => [Examples.entry_ahmed])
              Examples.customer_ahmed)))).
  - reflexivity.
  - reflexivity.
Defined.

(** ** Risk aggregation *)

(** The reading of the specification and the reading of the code
    give the same list of penalties when the empty string is not a
    date and every verdict is EXACT or PARTIAL. *)
Lemma spec_age_signal
      (strptime_date : str -> option DateUtils.date)
      (today : DateUtils.date) (cfg : Config.config_module)
      (customer : pydict) :
  strptime_date [] = None ->
  Spec.age_signal strptime_date today cfg customer
  = Signals.age_signal strptime_date today cfg customer.
Proof.
  intros Hempty. unfold Spec.age_signal, Signals.age_signal.
  unfold DateUtils.calculate_age.
  destruct (dict_get customer "date_of_birth" PyNone) as [|[|c t]|z].
  - reflexivity.
  - now rewrite Hempty.
  - cbn [truthy negb].
    destruct (strptime_date (c :: t)) as [birth|]; [|reflexivity].
    unfold Spec.age, Spec.precedes, DateUtils.pair_ltb. f_equal.
    destruct (_ || _)%bool; lia.
  - cbn [truthy]. destruct (negb (negb (z =? 0)%Z)); reflexivity.
Qed.

Lemma spec_verdict_penalties (cfg : Config.config_module)
      (verdicts : list match_result) :
  Forall (fun v => match_type v = EXACT \/ match_type v = PARTIAL) verdicts ->
  flat_map (Spec.verdict_penalties cfg) verdicts
  = map (Signals.match_penalty cfg) verdicts.
Proof.
  induction 1 as [|v vs Hv _ IH]; [reflexivity|].
  cbn [flat_map map]. rewrite IH.
  unfold Spec.verdict_penalties, Signals.match_penalty.
  destruct Hv as [-> | ->]; reflexivity.
Qed.

Lemma spec_fired_penalties
      (strptime_date : str -> option DateUtils.date)
      (today : DateUtils.date) (cfg : Config.config_module)
      (customer : pydict) (verdicts : list match_result) :
  strptime_date [] = None ->
  Forall (fun v => match_type v = EXACT \/ match_type v = PARTIAL) verdicts ->
  Spec.fired_penalties strptime_date today cfg customer verdicts
  = Signals.fired_penalties strptime_date today cfg customer verdicts.
Proof.
  intros Hempty Hall. unfold Spec.fired_penalties, Signals.fired_penalties.
  now rewrite (spec_age_signal strptime_date today cfg customer Hempty),
    (spec_verdict_penalties cfg verdicts Hall).
Qed.

(** C3, the claim as stated fails: it speaks of every list of
    verdicts, and the specification names a penalty for an EXACT and
    for a PARTIAL verdict only.  The aggregation gives every verdict
    that is not EXACT the partial-match penalty: for the customer
    "Ali" and the verdict of the evaluator on the entry "Mohamed Ali
    Hassan", which is NO_MATCH, the risk score is 50 and the level
    MEDIUM, while no signal of the specification fires. *)
Lemma unmatched_verdict_is_scored_as_partial :
  let verdict :=
    _check_sanction_match Examples.customer_ali
                          Examples.entry_mohamed_ali_hassan in
  match_type verdict = NO_MATCH /\
  Spec.fired_penalties Examples.strptime_date Examples.today Config.config
                       Examples.customer_ali [verdict] = [] /\
  exists assessment,
    RiskCalculator.calculate_customer_risk
      Examples.strptime_date Examples.today Config.config
      Examples.customer_ali [verdict] = Ok assessment /\
    risk_score assessment = 50%Z /\
    risk_level assessment = MEDIUM /\
    risk_score assessment
    <> Spec.clamp 0 100
         (Spec.sum (Spec.fired_penalties
                      Examples.strptime_date Examples.today Config.config
                      Examples.customer_ali [verdict])).
Proof.
  cbv zeta.
  assert (Hv : match_type (_check_sanction_match
                             Examples.customer_ali
                             Examples.entry_mohamed_ali_hassan) = NO_MATCH)
    by (vm_compute; reflexivity).
  split; [exact Hv|].
  assert (Hs : Spec.fired_penalties
                 Examples.strptime_date Examples.today Config.config
                 Examples.customer_ali
                 [_check_sanction_match Examples.customer_ali
                                        Examples.entry_mohamed_ali_hassan]
               = []) by (vm_compute; reflexivity).
  split; [exact Hs|].
  eexists. split; [vm_compute; reflexivity|].
  split; [reflexivity|]. split; [reflexivity|].
  rewrite Hs. vm_compute. discriminate.
Qed.

(** C3 (as amended).  Under a valid configuration and a date parser
    that rejects the empty string, for every customer record and
    every list of verdicts that are EXACT or PARTIAL - the verdicts
    that the orchestrator retains - the risk score that the
    aggregation returns is the sum of the penalties of the fired
    signals clamped to [0, max_risk_score]; the risk level is CRITICAL,
    HIGH, MEDIUM, LOW or VERY_LOW exactly for the scores from 80, 60,
    40, 20 and below 20; two PARTIAL verdicts alone give
    min(2 * partial_match_penalty, max_risk_score).  The aggregation
    returns whenever the occupation is a string or absent and the
    identifier is not a number. *)
Theorem risk_score_is_clamped_sum
        (strptime_date : str -> option DateUtils.date)
        (today : DateUtils.date)
        (cfg : Config.config_module)
        (customer : pydict) (verdicts : list match_result) :
  Spec.valid_config cfg ->
  strptime_date [] = None ->
  Forall (fun v => match_type v = EXACT \/ match_type v = PARTIAL) verdicts ->
  let maximum := Config.max_risk_score (Config.RISK_SCORING cfg) in
  let risk :=
    RiskCalculator.calculate_customer_risk
      strptime_date today cfg customer verdicts in
  (RiskFacts.text_fields customer -> exists assessment, risk = Ok assessment) /\
  (forall assessment,
      risk = Ok assessment ->
      risk_score assessment
      = Spec.clamp 0 maximum
          (Spec.sum (Spec.fired_penalties strptime_date today cfg
                                          customer verdicts)) /\
      (0 <= risk_score assessment <= maximum)%Z /\
      (forall level,
          risk_level assessment = level
          <-> Spec.level_of (risk_score assessment) level) /\
      (forall v1 v2,
          verdicts = [v1; v2] ->
          match_type v1 = PARTIAL -> match_type v2 = PARTIAL ->
          Spec.customer_penalties strptime_date today cfg customer = [] ->
          risk_score assessment
          = Z.min (2 * Config.partial_match_penalty
                         (Config.RISK_SCORING cfg)) maximum)).
Proof.
  intros Hv Hempty Hall maximum risk. split.
  - apply RiskFacts.calculate_customer_risk_returns.
  - intros assessment Hr.
    destruct (RiskFacts.calculate_customer_risk_score
                strptime_date today cfg customer verdicts assessment Hv Hr)
      as [Hs H0].
    destruct (RiskFacts.calculate_customer_risk_steps
                strptime_date today cfg customer verdicts assessment Hr)
      as (st1 & st5 & _ & _ & _ & Hl & _).
    rewrite <- (spec_fired_penalties
                  strptime_date today cfg customer verdicts Hempty Hall)
      in Hs, H0.
    destruct Hv as [(_ & _ & _ & _ & _ & _ & Vm) _].
    fold maximum in Hs, Vm.
    split; [|split; [|split]].
    + rewrite Hs. unfold Spec.clamp. lia.
    + lia.
    + intros level. split.
      * intros Heq. subst level. apply RiskFacts._determine_risk_level_spec.
        symmetry. exact Hl.
      * intros H. rewrite Hl.
        now apply RiskFacts._determine_risk_level_spec.
    + intros v1 v2 -> H1 H2 Hc. rewrite Hs. f_equal.
      unfold Spec.customer_penalties, Spec.fired_penalties in *.
      cbn [flat_map] in Hc.
      destruct (Spec.when (Spec.pep_signal cfg customer) _); [|discriminate].
      destruct (Spec.when (Spec.jurisdiction_signal cfg customer) _);
        [|discriminate].
      cbn [app] in Hc |- *.
      destruct (Spec.when (Spec.age_signal _ _ _ _) _); [|discriminate].
      destruct (Spec.when (Spec.low_cardinality_signal _) _);
        [|discriminate].
      cbn [app] in Hc |- *. rewrite Hc.
      cbn [flat_map app]. unfold Spec.verdict_penalties. rewrite H1, H2.
      unfold Spec.sum. cbn [fold_right app]. lia.
Qed.

Lemma risk_score_is_clamped_sum_witness :
  exists assessment,
    RiskCalculator.calculate_customer_risk
      Examples.strptime_date Examples.today Config.config
      Examples.customer_plain
      [Examples.partial_verdict "Jon Smyth";
       Examples.partial_verdict "John Smythe"]
    = Ok assessment /\
    risk_score assessment = 100%Z /\
    risk_level assessment = CRITICAL.
Proof.
  assert (Hv : Spec.valid_config Config.config).
  { unfold Spec.valid_config. cbn. repeat split; try lia. discriminate. }
  assert (Hempty : Examples.strptime_date [] = None) by reflexivity.
  assert (Hall : Forall (fun v => match_type v = EXACT
                                  \/ match_type v = PARTIAL)
                        [Examples.partial_verdict "Jon Smyth";
                         Examples.partial_verdict "John Smythe"])
    by (repeat constructor; now right).
  destruct (risk_score_is_clamped_sum
              Examples.strptime_date Examples.today Config.config
              Examples.customer_plain
              [Examples.partial_verdict "Jon Smyth";
               Examples.partial_verdict "John Smythe"] Hv Hempty Hall)
    as [_ H].
  eexists. split; [reflexivity|].
  match goal with
  | |- context [risk_score ?a] =>
      destruct (H a eq_refl) as (H1 & _ & H3 & H4)
  end.
  split.
  - rewrite (H4 _ _ eq_refl eq_refl eq_refl eq_refl). reflexivity.
  - apply H3. rewrite (H4 _ _ eq_refl eq_refl eq_refl eq_refl).
    cbn. lia.
Defined.

(** C5, the failing input.  For the record of a customer whose
    occupation was left blank (the key is present with value [None])
    the risk aggregation raises [AttributeError], whatever the
    verdicts, and the screening ends without a result. *)
Theorem blank_occupation_aborts_screening
        (strptime_date : str -> option DateUtils.date)
        (today : DateUtils.date)
        (search_sanctions : pyval -> list sanction)
        (verdicts : list match_result) :
  dict_get Examples.customer_blank_occupation "occupation" (PyStr [])
  = PyNone /\
  RiskCalculator.calculate_customer_risk
    strptime_date today Config.config
    Examples.customer_blank_occupation verdicts
  = Raise AttributeError /\
  screen_new_customer strptime_date today search_sanctions
                      Examples.customer_blank_occupation
  = Raise AttributeError.
Proof.
  repeat split.
Qed.

(** C6.  For an identifier that consists of one or more zeros, both
    identifier signals fire: the step adds unusual_id_penalty and a
    further 20 to the running score (40 with the default
    configuration) and appends the two factor strings, and the
    returned score is that sum clamped to the maximum. *)
Theorem all_zero_identifier_fires_both_signals
        (strptime_date : str -> option DateUtils.date)
        (today : DateUtils.date)
        (cfg : Config.config_module)
        (customer : pydict) (verdicts : list match_result) (n : nat) :
  dict_get customer "id_number" (PyStr [])
  = PyStr (repeat_char "0" (S n)) ->
  let unusual := Config.unusual_id_penalty (Config.RISK_SCORING cfg) in
  let factors := [lit "Suspicious ID number pattern";
                  lit "ID number contains only zeros"] in
  (forall st,
      exists st',
        RiskCalculator.id_check cfg customer st = Ok st' /\
        RiskCalculator.acc_score st'
        = (RiskCalculator.acc_score st + unusual + 20)%Z /\
        RiskCalculator.acc_factors st'
        = RiskCalculator.acc_factors st ++ factors) /\
  (Config.unusual_id_penalty (Config.RISK_SCORING Config.config) + 20
   = 40)%Z /\
  (forall st1,
      RiskCalculator.pep_check cfg customer (RiskCalculator.mkAcc 0 [] [])
      = Ok st1 ->
      let st4 :=
        RiskCalculator.age_check strptime_date today cfg customer
          (RiskCalculator.matches_check cfg verdicts
             (RiskCalculator.country_check cfg customer st1)) in
      exists assessment,
        RiskCalculator.calculate_customer_risk
          strptime_date today cfg customer verdicts = Ok assessment /\
        risk_score assessment
        = Z.min (RiskCalculator.acc_score st4 + unusual + 20)
                (Config.max_risk_score (Config.RISK_SCORING cfg)) /\
        risk_factors assessment
        = RiskCalculator.acc_factors st4 ++ factors).
Proof.
  intros Hid unusual factors.
  assert (Hlow : Spec.low_cardinality_signal customer = true).
  { unfold Spec.low_cardinality_signal. rewrite Hid.
    cbn [Spec.text_of]. unfold repeat_char.
    now rewrite RiskFacts.distinct_repeat. }
  assert (Hzero : Spec.all_zeros_signal customer = true).
  { unfold Spec.all_zeros_signal. rewrite Hid.
    cbn [Spec.text_of]. unfold repeat_char.
    change (Spec.nonempty (repeat "0"%char (S n))) with true.
    cbn [andb]. apply forallb_forall. intros c Hc.
    apply repeat_spec in Hc. subst c. reflexivity. }
  assert (Hstep : forall st,
             exists st',
               RiskCalculator.id_check cfg customer st = Ok st' /\
               RiskCalculator.acc_score st'
               = (RiskCalculator.acc_score st + unusual + 20)%Z /\
               RiskCalculator.acc_factors st'
               = RiskCalculator.acc_factors st ++ factors).
  { intros st.
    destruct (RiskFacts.id_check_returns cfg customer st) as [st' E].
    { intros z Hz. rewrite Hid in Hz. discriminate. }
    exists st'. split; [exact E|].
    apply RiskFacts.id_check_effect in E.
    rewrite Hlow, Hzero in E. rewrite !RiskFacts.sum_when in E.
    destruct E as [E1 E2]. split; [unfold unusual; lia|exact E2]. }
  split; [exact Hstep|]. split; [reflexivity|].
  intros st1 H1 st4.
  destruct (Hstep st4) as (st5 & E5 & S5 & F5).
  unfold RiskCalculator.calculate_customer_risk.
  rewrite H1. cbn [bind]. fold st4. rewrite E5. cbn [bind].
  eexists. split; [reflexivity|]. cbn [risk_score risk_factors].
  now rewrite S5, F5.
Qed.

Lemma all_zero_identifier_fires_both_signals_witness :
  exists assessment,
    RiskCalculator.calculate_customer_risk
      Examples.strptime_date Examples.today Config.config
      Examples.customer_zero_id []
    = Ok assessment /\
    risk_score assessment = 40%Z /\
    risk_factors assessment
    = [lit "Suspicious ID number pattern";
       lit "ID number contains only zeros"].
Proof.
  destruct (all_zero_identifier_fires_both_signals
              Examples.strptime_date Examples.today Config.config
              Examples.customer_zero_id [] 5 eq_refl)
    as (_ & _ & H).
  destruct (H (RiskCalculator.mkAcc 0 [] []) eq_refl)
    as (assessment & E & Hs & Hf).
  exists assessment. split; [exact E|]. split.
  - rewrite Hs. reflexivity.
  - rewrite Hf. reflexivity.
Defined.

(* ================================================================== *)
(** * Further properties: similarity scores *)
(* ================================================================== *)

(** X1.  The plain ratio lies between 0 and 100, because the matching blocks
    of the sequence matcher are disjoint parts of both strings: their
    sizes add up to at most the length of the shorter one. *)
Theorem similarity_ratio_in_range (str1 str2 : str) :
  Difflib.matches str1 str2 <= Nat.min (length str1) (length str2) /\
  (0 <= similarity_ratio str1 str2 <= 100)%Q.
Proof.
  split; [|apply similarity_ratio_bounds].
  unfold Difflib.matches.
  destruct (DifflibFacts.get_matching_blocks_spec str1 str2) as (bl & E & T).
  rewrite E. exact T.
Qed.

Lemma py_max_list_zero (f : nat -> Q) (l : list nat) :
  (forall i, f i = 0%Q) -> py_max_list (map f l) = 0%Q.
Proof.
  intros Hf. destruct l as [|i l]; [reflexivity|].
  cbn [map py_max_list]. rewrite Hf.
  induction l as [|j l IH]; [reflexivity|].
  cbn [map fold_left]. rewrite Hf. exact IH.
Qed.

Lemma partial_ratio_bounds (str1 str2 : str) :
  (0 <= _partial_ratio str1 str2 <= 100)%Q.
Proof.
  unfold _partial_ratio.
  destruct (if length str1 <=? length str2 then (str1, str2)
            else (str2, str1)) as [shorter longer].
  set (scores := map _ _).
  assert (Hne : scores <> []).
  { unfold scores. rewrite Nat.add_1_r. cbn [seq map]. discriminate. }
  destruct (py_max_list_spec scores Hne) as [Hin _].
  unfold scores in Hin at 2. apply in_map_iff in Hin.
  destruct Hin as (i & E & _). rewrite <- E.
  apply similarity_ratio_bounds.
Qed.

Lemma partial_ratio_empty (s : str) :
  _partial_ratio [] s = 0%Q /\ _partial_ratio s [] = 0%Q.
Proof.
  assert (H : forall l : str,
             py_max_list
               (map (fun i => similarity_ratio [] (slice l i (length (@nil ascii))))
                    (seq 0 (length l - length (@nil ascii) + 1))) = 0%Q).
  { intro l. apply py_max_list_zero. intro i. reflexivity. }
  split.
  - unfold _partial_ratio. cbn [length Nat.leb]. apply H.
  - unfold _partial_ratio. destruct s as [|c s].
    + cbn [length Nat.leb]. apply H.
    + cbn [length Nat.leb]. apply H.
Qed.

(** The partial ratio lies between 0 and 100, and it is 0 as soon as
    one of the two strings is empty. *)
Theorem partial_ratio_in_range (str1 str2 : str) :
  (0 <= _partial_ratio str1 str2 <= 100)%Q /\
  (str1 = [] \/ str2 = [] -> _partial_ratio str1 str2 = 0%Q).
Proof.
  split; [apply partial_ratio_bounds|].
  intros [-> | ->]; apply partial_ratio_empty.
Qed.

Lemma partial_ratio_in_range_witness :
  _partial_ratio (lit "") (lit "mohamed ali hassan") = 0%Q.
Proof.
  apply (proj2 (partial_ratio_in_range (lit "") (lit "mohamed ali hassan"))).
  left. reflexivity.
Defined.

Lemma slice_all (s : str) : slice s 0 (length s) = s.
Proof. unfold slice. cbn [skipn]. apply firstn_all. Qed.

(** X2.  The order of the arguments of the partial ratio matters only for
    strings of equal length, for which the partial ratio is the plain
    ratio of the two strings in the order given. *)
Theorem partial_ratio_argument_order (str1 str2 : str) :
  (length str1 <> length str2 ->
   _partial_ratio str1 str2 = _partial_ratio str2 str1) /\
  (length str1 = length str2 ->
   _partial_ratio str1 str2 = similarity_ratio str1 str2).
Proof.
  split; intros H; unfold _partial_ratio.
  - destruct (length str1 <=? length str2) eqn:E1;
      destruct (length str2 <=? length str1) eqn:E2; try reflexivity.
    + apply Nat.leb_le in E1, E2. lia.
    + apply Nat.leb_gt in E1, E2. lia.
  - rewrite H, Nat.leb_refl. rewrite <- H at 1.
    rewrite Nat.sub_diag. cbn [Nat.add seq map py_max_list fold_left].
    rewrite H. now rewrite slice_all.
Qed.

Lemma partial_ratio_argument_order_witness :
  _partial_ratio (lit "ali") (lit "mohamed") = _partial_ratio (lit "mohamed") (lit "ali") /\
  _partial_ratio (lit "jon") (lit "jan") = similarity_ratio (lit "jon") (lit "jan").
Proof.
  split.
  - apply (proj1 (partial_ratio_argument_order (lit "ali") (lit "mohamed"))).
    cbn. lia.
  - apply (proj2 (partial_ratio_argument_order (lit "jon") (lit "jan"))).
    reflexivity.
Defined.

(* ================================================================== *)
(** * Further properties: token-sort ratio *)
(* ================================================================== *)

Module SortFacts.

Import PyStr.

Lemma code_inj (x y : ascii) : code x = code y -> x = y.
Proof.
  unfold code. intros H.
  rewrite <- (ascii_nat_embedding x), <- (ascii_nat_embedding y).
  now rewrite H.
Qed.

Lemma ltb_irrefl : forall s, ltb s s = false.
Proof.
  induction s as [|x s IH]; [reflexivity|].
  cbn [ltb]. now rewrite Nat.ltb_irrefl.
Qed.

Lemma ltb_asym : forall s t, ltb s t = true -> ltb t s = false.
Proof.
  induction s as [|x s IH]; intros [|y t]; cbn [ltb]; try congruence.
  destruct (code x <? code y) eqn:E1.
  - apply Nat.ltb_lt in E1. intros _.
    replace (code y <? code x) with false
      by (symmetry; apply Nat.ltb_ge; lia).
    reflexivity.
  - destruct (code y <? code x) eqn:E2; [discriminate|]. apply IH.
Qed.

Lemma ltb_trans :
  forall s t u, ltb s t = true -> ltb t u = true -> ltb s u = true.
Proof.
  induction s as [|x s IH]; intros [|y t] [|z u]; cbn [ltb];
    try congruence.
  destruct (code x <? code y) eqn:E1; destruct (code y <? code z) eqn:E2;
    destruct (code y <? code x) eqn:E3; destruct (code z <? code y) eqn:E4;
    destruct (code x <? code z) eqn:E5; destruct (code z <? code x) eqn:E6;
    try congruence;
    repeat match goal with
           | H : (_ <? _) = true |- _ => apply Nat.ltb_lt in H
           | H : (_ <? _) = false |- _ => apply Nat.ltb_ge in H
           end; try lia.
  apply IH.
Qed.

Lemma ltb_total : forall s t, ltb s t = false -> ltb t s = false -> s = t.
Proof.
  induction s as [|x s IH]; intros [|y t]; cbn [ltb]; try congruence.
  destruct (code x <? code y) eqn:E1; [discriminate|].
  destruct (code y <? code x) eqn:E2; [discriminate|].
  apply Nat.ltb_ge in E1, E2. intros H1 H2.
  assert (x = y) by (apply code_inj; lia). subst y.
  f_equal. now apply IH.
Qed.

(** Two insertions commute. *)
Lemma insert_sorted_comm x y :
  forall ws,
    insert_sorted x (insert_sorted y ws) = insert_sorted y (insert_sorted x ws).
Proof.
  assert (Hbase : forall rest,
             (if ltb x y then x :: y :: rest else y :: x :: rest)
             = (if ltb y x then y :: x :: rest else x :: y :: rest)).
  { intros rest. destruct (ltb x y) eqn:E1.
    - now rewrite (ltb_asym _ _ E1).
    - destruct (ltb y x) eqn:E2; [reflexivity|].
      now rewrite (ltb_total _ _ E1 E2). }
  induction ws as [|v vs IH]; cbn [insert_sorted].
  - destruct (ltb x y) eqn:E1, (ltb y x) eqn:E2; try reflexivity.
    + rewrite (ltb_asym _ _ E1) in E2. discriminate.
    + now rewrite (ltb_total _ _ E1 E2).
  - destruct (ltb y v) eqn:Eyv; destruct (ltb x v) eqn:Exv;
      cbn [insert_sorted]; rewrite ?Eyv, ?Exv.
    + destruct (ltb x y) eqn:E1, (ltb y x) eqn:E2; try reflexivity.
      * rewrite (ltb_asym _ _ E1) in E2. discriminate.
      * now rewrite (ltb_total _ _ E1 E2).
    + destruct (ltb x y) eqn:E1; [|reflexivity].
      rewrite (ltb_trans _ _ _ E1 Eyv) in Exv. discriminate.
    + destruct (ltb y x) eqn:E2; [|reflexivity].
      rewrite (ltb_trans _ _ _ E2 Exv) in Eyv. discriminate.
    + now rewrite IH.
Qed.

(** Sorting forgets the order of the tokens. *)
Lemma sorted_permutation (ws ws' : list str) :
  Permutation ws ws' -> sorted ws = sorted ws'.
Proof.
  unfold sorted. induction 1 as [| x l l' _ IH | x y l | l l' l'' _ IH1 _ IH2].
  - reflexivity.
  - cbn [fold_right]. now rewrite IH.
  - cbn [fold_right]. apply insert_sorted_comm.
  - now rewrite IH1.
Qed.

Lemma insert_sorted_nonempty w ws : insert_sorted w ws <> [].
Proof. destruct ws as [|v vs]; cbn; [discriminate|]. destruct (ltb w v); discriminate. Qed.

Lemma insert_sorted_in w ws u :
  In u (insert_sorted w ws) -> u = w \/ In u ws.
Proof.
  induction ws as [|v vs IH]; cbn [insert_sorted].
  - intros [<-|[]]. now left.
  - destruct (ltb w v).
    + intros [<-|H]; [now left|now right].
    + intros [<-|H]; [right; now left|].
      destruct (IH H) as [->|H']; [now left|right; now right].
Qed.

Lemma sorted_in ws u : In u (sorted ws) -> In u ws.
Proof.
  unfold sorted. induction ws as [|w ws IH]; cbn [fold_right]; [auto|].
  intros H. apply insert_sorted_in in H.
  destruct H as [->|H]; [now left|right; now apply IH].
Qed.

Lemma sorted_nonempty ws : ws <> [] -> sorted ws <> [].
Proof.
  destruct ws as [|w ws]; [congruence|]. intros _.
  unfold sorted. cbn [fold_right]. apply insert_sorted_nonempty.
Qed.

Lemma join_nonempty sep ws :
  ws <> [] -> Forall (fun w : str => w <> []) ws -> join sep ws <> [].
Proof.
  destruct ws as [|w ws]; [congruence|]. intros _ H.
  inversion H as [|w0 ws0 Hw Hws]; subst.
  destruct w as [|c w]; [congruence|].
  destruct ws; cbn; discriminate.
Qed.

End SortFacts.

(** X3.  The token-sort ratio does not depend on the order of the words: if
    the whitespace-separated words of one string are those of another
    in a different order, both have the same token-sort ratio with any
    third string, and, when there is at least one word, a token-sort
    ratio of 100 with each other. *)
Theorem token_sort_ratio_word_order (str1 str1' str2 : str) :
  Permutation (split str1) (split str1') ->
  _token_sort_ratio str1 str2 = _token_sort_ratio str1' str2 /\
  _token_sort_ratio str2 str1 = _token_sort_ratio str2 str1' /\
  (split str1 <> [] -> (_token_sort_ratio str1 str1' == 100)%Q).
Proof.
  intros Hp. unfold _token_sort_ratio.
  rewrite (SortFacts.sorted_permutation _ _ Hp).
  repeat split. intros Hne.
  apply similarity_ratio_same.
  apply SortFacts.join_nonempty.
  - apply SortFacts.sorted_nonempty. intro E.
    rewrite E in Hp. apply Permutation_sym, Permutation_nil in Hp.
    contradiction.
  - apply Forall_forall. intros w Hw. apply SortFacts.sorted_in in Hw.
    pose proof (PyStrFacts.runs_spec (fun c => negb (is_space c)) str1') as H.
    rewrite Forall_forall in H. now apply H.
Qed.

Lemma token_sort_ratio_word_order_witness :
  (_token_sort_ratio (lit "john michael smith") (lit "smith john michael")
   == 100)%Q.
Proof.
  apply (token_sort_ratio_word_order
           (lit "john michael smith") (lit "smith john michael") []).
  - change (split (lit "john michael smith"))
      with [lit "john"; lit "michael"; lit "smith"].
    change (split (lit "smith john michael"))
      with [lit "smith"; lit "john"; lit "michael"].
    apply Permutation_sym.
    apply (Permutation_cons_app [lit "john"; lit "michael"] []).
    rewrite app_nil_r. apply Permutation_refl.
  - discriminate.
Defined.

(* ================================================================== *)
(** * Further properties: fuzzy matching of names *)
(* ================================================================== *)

Lemma token_sort_ratio_bounds (str1 str2 : str) :
  (0 <= _token_sort_ratio str1 str2 <= 100)%Q.
Proof. unfold _token_sort_ratio. apply similarity_ratio_bounds. Qed.

Lemma py_max_ge_l (x y : Q) : (x <= py_max x y)%Q.
Proof. apply py_max_ge. Qed.

Lemma py_max_ge_r (x y : Q) : (y <= py_max x y)%Q.
Proof. apply py_max_ge. Qed.

Lemma py_max_bounds (x y lo hi : Q) :
  (lo <= x <= hi)%Q -> (lo <= y <= hi)%Q -> (lo <= py_max x y <= hi)%Q.
Proof.
  intros Hx Hy. destruct (py_max_cases x y) as [-> | ->]; assumption.
Qed.

Lemma fuzzy_match_names_score_facts (name1 name2 : str) (threshold : Q) :
  let result := fuzzy_match_names name1 name2 threshold in
  (0 <= snd result <= 100)%Q /\
  (name1 <> [] -> name2 <> [] ->
   (fst result = true <-> (threshold <= snd result)%Q) /\
   (similarity_ratio (normalize_english (PyStr name1))
                     (normalize_english (PyStr name2))
    <= snd result)%Q) /\
  (name1 = [] \/ name2 = [] -> result = (false, 0%Q)).
Proof.
  intros result. unfold result, fuzzy_match_names.
  destruct name1 as [|c1 n1]; [|destruct name2 as [|c2 n2]].
  - cbn [fst snd]. repeat split; try discriminate; congruence.
  - cbn [fst snd]. repeat split; try discriminate; congruence.
  - cbn [fst snd].
    set (norm1 := normalize_english (PyStr (c1 :: n1))).
    set (norm2 := normalize_english (PyStr (c2 :: n2))).
    split; [|split].
    + apply py_max_bounds; [apply py_max_bounds|].
      * apply similarity_ratio_bounds.
      * apply partial_ratio_bounds.
      * apply token_sort_ratio_bounds.
    + intros _ _. split; [apply Qgeb_le|].
      eapply Qle_trans; [|apply py_max_ge_l]. apply py_max_ge_l.
    + intros [H|H]; discriminate.
Qed.

(** X4.  [fuzzy_match_names] returns a score between 0 and 100 that is at
    least the plain ratio of the two normalized names; for two
    non-empty names the flag says whether the score reaches the
    threshold, and an empty name gives [(False, 0.0)] whatever the
    threshold. *)
Theorem fuzzy_match_names_score (name1 name2 : str) (threshold : Q) :
  let result := fuzzy_match_names name1 name2 threshold in
  (0 <= snd result <= 100)%Q /\
  (name1 <> [] -> name2 <> [] ->
   (fst result = true <-> (threshold <= snd result)%Q) /\
   (similarity_ratio (normalize_english (PyStr name1))
                     (normalize_english (PyStr name2))
    <= snd result)%Q) /\
  (name1 = [] \/ name2 = [] -> result = (false, 0%Q)).
Proof. exact (fuzzy_match_names_score_facts name1 name2 threshold). Qed.

Lemma fuzzy_match_names_score_witness :
  fst (fuzzy_match_names (lit "Ali") (lit "Mohamed Ali Hassan") 85) = true
  <-> (85 <= snd (fuzzy_match_names (lit "Ali") (lit "Mohamed Ali Hassan") 85))%Q.
Proof.
  apply (proj2 (fuzzy_match_names_score
                  (lit "Ali") (lit "Mohamed Ali Hassan") 85));
    discriminate.
Defined.

(** X5.  Names that have the same non-empty normal form - names that differ
    in letter case, honorific titles, punctuation or spacing - get the
    fuzzy score 100 and so match at every threshold up to 100. *)
Theorem fuzzy_match_names_same_normal_form
        (name1 name2 : str) (threshold : Q) :
  normalize_english (PyStr name1) = normalize_english (PyStr name2) ->
  normalize_english (PyStr name1) <> [] ->
  (threshold <= 100)%Q ->
  (snd (fuzzy_match_names name1 name2 threshold) == 100)%Q /\
  fst (fuzzy_match_names name1 name2 threshold) = true.
Proof.
  intros E Hne Ht.
  assert (H1 : name1 <> []) by (intros ->; now apply Hne).
  assert (H2 : name2 <> []) by (intros ->; rewrite E in Hne; now apply Hne).
  destruct (fuzzy_match_names_score_facts name1 name2 threshold)
    as ([_ Hub] & Hm & _).
  destruct (Hm H1 H2) as [Hflag Hlow].
  rewrite <- E, (similarity_ratio_same _ Hne) in Hlow.
  assert (Hs : (snd (fuzzy_match_names name1 name2 threshold) == 100)%Q)
    by now apply Qle_antisym.
  split; [exact Hs|]. apply Hflag. now rewrite Hs.
Qed.

Lemma fuzzy_match_names_same_normal_form_witness :
  (snd (fuzzy_match_names (lit "Dr. John  SMITH") (lit "john smith") 85)
   == 100)%Q /\
  fst (fuzzy_match_names (lit "Dr. John  SMITH") (lit "john smith") 85) = true.
Proof.
  apply fuzzy_match_names_same_normal_form.
  - vm_compute. reflexivity.
  - vm_compute. discriminate.
  - vm_compute. discriminate.
Defined.

(* ================================================================== *)
(** * Further properties: match verdicts *)
(* ================================================================== *)

Lemma verdict_well_formed_facts (customer : pydict) (entry : sanction) :
  let v := _check_sanction_match customer entry in
  let score := name_score customer entry in
  (0 <= match_score v <= 100)%Q /\
  (0 <= name_match_score v <= score)%Q /\
  (is_match v = true <-> match_type v <> NO_MATCH) /\
  (match_type v = EXACT <-> (95 <= score)%Q) /\
  (match_type v = PARTIAL <-> (85 <= score < 95)%Q) /\
  (match_type v = NO_MATCH <-> (score < 85)%Q) /\
  (dob_match v = true ->
   truthy (dict_get customer "date_of_birth" PyNone) = true /\
   truthy (date_of_birth entry) = true /\
   py_eqb (dict_get customer "date_of_birth" PyNone) (date_of_birth entry)
   = true).
Proof.
  intros v score.
  destruct (check_classification customer entry) as [C1 C2].
  destruct (check_match_score customer entry) as [M1 M2].
  fold v score in C1, C2, M1, M2.
  destruct (name_score_bounds customer entry) as [B0 B1]. fold score in B0, B1.
  assert (N : name_match_score v
              = similarity_ratio
                  (normalize_english
                     (dict_get customer "full_name_en" (PyStr [])))
                  (normalize_english (full_name_en entry))).
  { unfold v, _check_sanction_match.
    destruct (classify _). destruct (dob_criterion _ _ _). reflexivity. }
  assert (Hd : forall s, let d := dob_criterion customer entry s in
                         (snd d == s \/ snd d == s + 20)%Q /\
                         (fst d = true ->
                          truthy (dict_get customer "date_of_birth" PyNone)
                          = true /\
                          truthy (date_of_birth entry) = true /\
                          py_eqb (dict_get customer "date_of_birth" PyNone)
                                 (date_of_birth entry) = true)).
  { intros s. unfold dob_criterion.
    destruct (truthy (dict_get customer "date_of_birth" PyNone));
      destruct (truthy (date_of_birth entry)); cbn [andb fst snd];
      try (split; [left; reflexivity|discriminate]).
    destruct (py_eqb _ _); cbn [fst snd].
    - split; [right; reflexivity|auto].
    - split; [left; reflexivity|discriminate]. }
  destruct (Hd score) as [Hsnd Hfst]. cbv zeta in Hsnd, Hfst.
  assert (Hcases :
            (score < 85 /\ match_type v = NO_MATCH /\ is_match v = false)%Q \/
            (85 <= score < 95 /\ match_type v = PARTIAL /\ is_match v = true)%Q \/
            (95 <= score /\ match_type v = EXACT /\ is_match v = true)%Q).
  { unfold Spec.classification in C2. rewrite C1, C2.
    destruct (Qle_bool 85 score) eqn:E85.
    - apply Qle_bool_iff in E85. destruct (Qle_bool 95 score) eqn:E95.
      + apply Qle_bool_iff in E95. right; right. auto.
      + apply (Qgeb_lt score 95) in E95. right; left. auto.
    - apply (Qgeb_lt score 85) in E85. left. auto. }
  split; [|split; [|split; [|split; [|split; [|split]]]]].
  - rewrite M1, py_min_spec. split.
    + apply Q.min_glb; [|discriminate].
      destruct Hsnd as [-> | ->]; lra.
    + apply Q.le_min_r.
  - rewrite N. split; [apply similarity_ratio_bounds|].
    unfold score. rewrite name_score_unfold. apply py_max_ge_l.
  - destruct Hcases as [(H & -> & ->)|[(H & -> & ->)|(H & -> & ->)]];
      split; congruence.
  - destruct Hcases as [(H & -> & _)|[([H1 H2] & -> & _)|(H & -> & _)]].
    + split; [discriminate|]. intros H'. exfalso. lra.
    + split; [discriminate|]. intros H'. exfalso. lra.
    + split; [intros _; exact H|reflexivity].
  - destruct Hcases as [(H & -> & _)|[([H1 H2] & -> & _)|(H & -> & _)]].
    + split; [discriminate|]. intros [H1 H2]. exfalso. lra.
    + split; [intros _; split; assumption|reflexivity].
    + split; [discriminate|]. intros [H1 H2]. exfalso. lra.
  - destruct Hcases as [(H & -> & _)|[([H1 H2] & -> & _)|(H & -> & _)]].
    + split; [intros _; exact H|reflexivity].
    + split; [discriminate|]. intros H'. exfalso. lra.
    + split; [discriminate|]. intros H'. exfalso. lra.
  - rewrite M2. exact Hfst.
Qed.

(** X6.  Every verdict of the evaluator is well formed: both scores lie
    between 0 and 100; it is a match exactly when its type is not
    NO_MATCH; EXACT, PARTIAL and NO_MATCH mean a name score of at
    least 95, in [85, 95) and below 85; the recorded ratio with the
    primary name is at most the name score; a recorded date-of-birth
    match means that both dates are present and equal. *)
Theorem verdict_well_formed (customer : pydict) (entry : sanction) :
  let v := _check_sanction_match customer entry in
  let score := name_score customer entry in
  (0 <= match_score v <= 100)%Q /\
  (0 <= name_match_score v <= score)%Q /\
  (is_match v = true <-> match_type v <> NO_MATCH) /\
  (match_type v = EXACT <-> (95 <= score)%Q) /\
  (match_type v = PARTIAL <-> (85 <= score < 95)%Q) /\
  (match_type v = NO_MATCH <-> (score < 85)%Q) /\
  (dob_match v = true ->
   truthy (dict_get customer "date_of_birth" PyNone) = true /\
   truthy (date_of_birth entry) = true /\
   py_eqb (dict_get customer "date_of_birth" PyNone) (date_of_birth entry)
   = true).
Proof. exact (verdict_well_formed_facts customer entry). Qed.

Lemma verdict_well_formed_witness :
  let v := _check_sanction_match Examples.customer_john_smith
                                 Examples.entry_jon_smyth in
  truthy (dict_get Examples.customer_john_smith "date_of_birth" PyNone)
  = true /\
  truthy (date_of_birth Examples.entry_jon_smyth) = true /\
  py_eqb (dict_get Examples.customer_john_smith "date_of_birth" PyNone)
         (date_of_birth Examples.entry_jon_smyth) = true.
Proof.
  apply (verdict_well_formed Examples.customer_john_smith
                             Examples.entry_jon_smyth).
  vm_compute. reflexivity.
Defined.

(** X7.  An entry whose primary name or alias has the same non-empty normal
    form as the customer's name is an EXACT match with name score 100
    and stored score 100. *)
Theorem same_normal_form_is_exact (customer : pydict) (entry : sanction) :
  let name :=
    normalize_english (dict_get customer "full_name_en" (PyStr [])) in
  name <> [] ->
  name = normalize_english (full_name_en entry) \/
  name = normalize_english (alias_en entry) ->
  let v := _check_sanction_match customer entry in
  (name_score customer entry == 100)%Q /\
  is_match v = true /\ match_type v = EXACT /\
  (match_score v == 100)%Q.
Proof.
  intros name Hne Hsame v.
  assert (Hs : (name_score customer entry == 100)%Q).
  { apply Qle_antisym; [apply name_score_bounds|].
    rewrite name_score_unfold. fold name.
    destruct Hsame as [<- | <-].
    - rewrite <- (similarity_ratio_same name Hne) at 1. apply py_max_ge_l.
    - rewrite <- (similarity_ratio_same name Hne) at 1. apply py_max_ge_r. }
  destruct (verdict_well_formed_facts customer entry)
    as ([_ Hub] & _ & Hm & He & _).
  fold v in Hub, Hm, He.
  assert (Hexact : match_type v = EXACT).
  { apply He. rewrite Hs. discriminate. }
  split; [exact Hs|]. split; [|split; [exact Hexact|]].
  - apply Hm. rewrite Hexact. discriminate.
  - apply Qle_antisym; [exact Hub|].
    destruct (check_match_score customer entry) as [M1 _]. fold v in M1.
    rewrite M1, py_min_spec. apply Q.min_glb; [|apply Qle_refl].
    unfold dob_criterion.
    destruct (truthy _ && truthy _); cbn [snd]; [|now rewrite Hs].
    destruct (py_eqb _ _); rewrite Hs; discriminate.
Qed.

Lemma same_normal_form_is_exact_witness :
  let v := _check_sanction_match
             [("full_name_en"%string, Examples.text "Mr. AHMED  al-masri")]
             Examples.entry_ahmed in
  is_match v = true /\ match_type v = EXACT.
Proof.
  destruct (same_normal_form_is_exact
              [("full_name_en"%string, Examples.text "Mr. AHMED  al-masri")]
              Examples.entry_ahmed) as (_ & H1 & H2 & _).
  - vm_compute. discriminate.
  - right. vm_compute. reflexivity.
  - split; assumption.
Defined.

(* ================================================================== *)
(** * Further properties: name normalization *)
(* ================================================================== *)

Import PyStrFacts NormalizeFacts.

Lemma split_join_words (ws : list str) :
  Forall (fun w => w <> [] /\ all_in is_word w) ws ->
  split (join (lit " ") ws) = ws.
Proof.
  intros H. unfold split. apply runs_join.
  - eapply Forall_impl; [|exact H]. cbn. intros w [H1 H2].
    split; [exact H1|].
    eapply Forall_impl; [|exact H2]. cbn. intros c Hc.
    destruct (is_space c) eqn:Es; [|reflexivity].
    apply space_not_word in Es. congruence.
  - discriminate.
  - now repeat constructor.
Qed.

Lemma normal_words (t : str) :
  Forall (fun w => w <> [] /\ all_in is_word w /\ incl w (lower t) /\
                   no_title titles w = true)
         (drop_titles titles (runs is_word (lower t))).
Proof.
  rewrite drop_titles_filter. apply Forall_forall. intros w Hw.
  apply filter_In in Hw. destruct Hw as [Hw Hn].
  pose proof (runs_spec is_word (lower t)) as H.
  rewrite Forall_forall in H. destruct (H w Hw) as (H1 & H2 & H3). auto.
Qed.

(** X8.  The result of [normalize_english] is in normal form: it consists
    of alphanumeric characters (and underscores) and single spaces,
    [str.lower] leaves it unchanged, it is its own words joined by
    single spaces (so it has no leading, trailing or doubled white
    space), and none of its words is one of the honorific titles. *)
Theorem normalize_english_normal_form (text : pyval) :
  let result := normalize_english text in
  Forall (fun c => is_word c = true \/ c = " "%char) result /\
  lower result = result /\
  join (lit " ") (split result) = result /\
  Forall (fun w => ~ In w titles) (split result).
Proof.
  intros result.
  assert (H : exists t, result
                        = join (lit " ")
                            (drop_titles titles (runs is_word (lower t)))).
  { unfold result. destruct text as [|t|z].
    - exists []. reflexivity.
    - exists t. apply normalize_english_words.
    - exists []. reflexivity. }
  destruct H as [t E]. pose proof (normal_words t) as Hws.
  set (ws := drop_titles titles (runs is_word (lower t))) in *.
  assert (Hsplit : split result = ws).
  { rewrite E. apply split_join_words.
    eapply Forall_impl; [|exact Hws]. cbn. tauto. }
  split; [|split; [|split]].
  - rewrite E. apply join_chars.
    + constructor; [now right|constructor].
    + eapply Forall_impl; [|exact Hws]. cbn. intros w (_ & H2 & _).
      eapply Forall_impl; [|exact H2]. cbn. auto.
  - rewrite E. apply (normalize_english_fixed t).
  - now rewrite Hsplit, E.
  - rewrite Hsplit. eapply Forall_impl; [|exact Hws]. cbv beta.
    intros w (_ & _ & _ & Hn) Hin.
    unfold no_title in Hn. rewrite forallb_forall in Hn.
    specialize (Hn w Hin). unfold other in Hn.
    now rewrite eqb_refl in Hn.
Qed.

Lemma normalize_english_depends_on_words_facts (text1 text2 : str) :
  runs is_word (lower text1) = runs is_word (lower text2) ->
  normalize_english (PyStr text1) = normalize_english (PyStr text2).
Proof.
  intros H. rewrite !normalize_english_words. now rewrite H.
Qed.

(** X9.  The result of [normalize_english] depends only on the words of the
    lowered text, its maximal runs of alphanumeric characters: two
    texts with the same such words have the same normal form.  So
    letter case, white space at either end, and which characters
    separate the words do not matter. *)
Theorem normalize_english_depends_on_words (text1 text2 : str) :
  runs is_word (lower text1) = runs is_word (lower text2) ->
  normalize_english (PyStr text1) = normalize_english (PyStr text2).
Proof. exact (normalize_english_depends_on_words_facts text1 text2). Qed.

Lemma lower_app (s t : str) : lower (s ++ t) = lower s ++ lower t.
Proof. apply map_app. Qed.

Lemma lower_none_in (g : str) :
  none_in is_word g -> none_in is_word (lower g).
Proof.
  intros H. unfold lower. apply Forall_map.
  eapply Forall_impl; [|exact H]. cbn. intros c Hc.
  now rewrite lower_char_word.
Qed.

Lemma normalize_english_depends_on_words_witness :
  normalize_english (PyStr (lit "  AL-Masri, Ahmed "))
  = normalize_english (PyStr (lit "al masri ahmed")).
Proof.
  apply normalize_english_depends_on_words.
  vm_compute. reflexivity.
Defined.

(** Upper and lower case, and characters outside the words before or
    after the text, leave the normal form unchanged. *)
Theorem normalize_english_ignores_case_and_margins (pre text post : str) :
  none_in is_word pre -> none_in is_word post ->
  normalize_english (PyStr (lower text)) = normalize_english (PyStr text) /\
  normalize_english (PyStr (pre ++ text ++ post))
  = normalize_english (PyStr text).
Proof.
  intros Hpre Hpost. split.
  - apply normalize_english_depends_on_words_facts.
    now rewrite RiskFacts.lower_idem.
  - apply normalize_english_depends_on_words_facts.
    rewrite !lower_app.
    rewrite runs_none by now apply lower_none_in.
    rewrite runs_app_out by now apply lower_none_in.
    reflexivity.
Qed.

Lemma normalize_english_ignores_case_and_margins_witness :
  normalize_english (PyStr (lit "  (John Smith)! "))
  = normalize_english (PyStr (lit "John Smith")).
Proof.
  apply (normalize_english_ignores_case_and_margins
           (lit "  (") (lit "John Smith") (lit ")! ")).
  - now repeat constructor.
  - now repeat constructor.
Defined.

(* ================================================================== *)
(** * Further properties: risk aggregation *)
(* ================================================================== *)

Module RiskMore.

Import Config RiskCalculator Spec Signals RiskFacts Notions.

Lemma details_count_set d key v key' :
  details_count (details_set d key v) key'
  = if String.eqb key key' then detail_number v else details_count d key'.
Proof.
  induction d as [|[k w] d IH]; cbn [details_set details_count].
  - destruct (String.eqb key key'); reflexivity.
  - destruct (String.eqb k key) eqn:E1; cbn [details_count].
    + apply String.eqb_eq in E1. subst k.
      destruct (String.eqb key key'); reflexivity.
    + rewrite IH. destruct (String.eqb k key') eqn:E2; [|reflexivity].
      apply String.eqb_eq in E2. subst k.
      rewrite String.eqb_sym in E1. now rewrite E1.
Qed.

Lemma length_when fired (p : Z) :
  length (when fired p) = if fired then 1 else 0.
Proof. destruct fired; reflexivity. Qed.

Lemma adds_nothing st : adds st st [].
Proof. unfold adds. cbn. repeat split; lia. Qed.

Lemma adds_trans st1 st2 st3 l1 l2 :
  adds st1 st2 l1 -> adds st2 st3 l2 -> adds st1 st3 (l1 ++ l2).
Proof.
  unfold adds. intros (A1 & A2 & A3 & A4) (B1 & B2 & B3 & B4).
  rewrite sum_app, length_app. repeat split; try congruence; lia.
Qed.

Section Steps.

Variable strptime_date : str -> option DateUtils.date.
Variable today : DateUtils.date.
Variable cfg : config_module.

Lemma pep_check_adds customer st st' :
  PEP_INDICATORS cfg <> [] ->
  pep_check cfg customer st = Ok st' ->
  adds st st' (when (pep_signal cfg customer) (pep_penalty (RISK_SCORING cfg))).
Proof.
  intros Hne. unfold pep_check, pep_signal.
  destruct (dict_get customer "occupation" (PyStr [])) as [|t|z];
    cbn [py_lower bind text_of]; try discriminate.
  unfold StringUtils.contains_pep_indicator.
  rewrite truthy_str, lower_nonempty, lower_idem.
  destruct (nonempty t); cbn [negb andb bind].
  - destruct (PEP_INDICATORS cfg) as [|i l] eqn:Ei; [congruence|].
    destruct (existsb _ (i :: l)); intros H; injection H as <-.
    + unfold adds, set_detail, add_factor, add_score.
      cbn [acc_score acc_factors acc_details when].
      rewrite !details_count_set, length_app. cbn. repeat split; lia.
    + apply adds_nothing.
  - intros H. injection H as <-. apply adds_nothing.
Qed.

Lemma country_check_adds customer st :
  adds st (country_check cfg customer st)
       (when (jurisdiction_signal cfg customer)
             (high_risk_country_penalty (RISK_SCORING cfg))).
Proof.
  unfold country_check, jurisdiction_signal.
  destruct (existsb _ (HIGH_RISK_COUNTRIES cfg)); [|apply adds_nothing].
  unfold adds, set_detail, add_factor, add_score.
  cbn [acc_score acc_factors acc_details when].
  rewrite !details_count_set, length_app. cbn. repeat split; lia.
Qed.

Lemma age_check_adds customer st :
  (0 <= age_risk_threshold (RISK_SCORING cfg))%Z ->
  adds st (age_check strptime_date today cfg customer st)
       (when (age_signal strptime_date today cfg customer) 15).
Proof.
  intros Hthr. unfold age_check, age_signal.
  destruct (truthy (dict_get customer "date_of_birth" PyNone)) eqn:Et.
  - destruct (DateUtils.calculate_age strptime_date today
                (dict_get customer "date_of_birth" PyNone))
      as [age|]; [|apply adds_nothing].
    destruct (age_risk_threshold (RISK_SCORING cfg) <? age)%Z eqn:E.
    + apply Z.ltb_lt in E.
      replace (age =? 0)%Z with false by (symmetry; apply Z.eqb_neq; lia).
      replace (age >? age_risk_threshold (RISK_SCORING cfg))%Z with true
        by (symmetry; apply Z.gtb_lt; lia).
      cbn [negb andb].
      unfold adds, set_detail, add_factor, add_score.
      cbn [acc_score acc_factors acc_details when].
      rewrite !details_count_set, length_app. cbn. repeat split; lia.
    + apply Z.ltb_ge in E.
      replace (age >? age_risk_threshold (RISK_SCORING cfg))%Z with false
        by (symmetry; rewrite Z.gtb_ltb; apply Z.ltb_ge; lia).
      rewrite andb_false_r. apply adds_nothing.
  - unfold DateUtils.calculate_age. rewrite Et. apply adds_nothing.
Qed.

Lemma id_check_adds customer st st' :
  id_check cfg customer st = Ok st' ->
  adds st st'
       (when (low_cardinality_signal customer)
             (unusual_id_penalty (RISK_SCORING cfg))
        ++ when (all_zeros_signal customer) 20).
Proof.
  unfold id_check, low_cardinality_signal, all_zeros_signal.
  destruct (dict_get customer "id_number" (PyStr [])) as [|s|z];
    cbn [text_of nonempty andb].
  - cbn. intros H. injection H as <-. apply adds_nothing.
  - rewrite truthy_str. destruct (nonempty s) eqn:En; cbn [andb].
    + cbn [py_len_set all_zeros bind]. rewrite eqb_repeat.
      destruct (distinct s <=? 3);
        destruct (forallb (fun c => Ascii.eqb c "0") s);
        intros H; injection H as <-;
        unfold adds, set_detail, add_factor, add_score;
        cbn [acc_score acc_factors acc_details when app];
        rewrite ?details_count_set, ?length_app; cbn; repeat split; lia.
    + intros H. injection H as <-. apply adds_nothing.
  - destruct (truthy (PyInt z)); cbn [py_len_set bind]; [discriminate|].
    intros H. injection H as <-. apply adds_nothing.
Qed.

(** The loop over the verdicts: one penalty and one factor per verdict,
    and each verdict counted once, as exact or as partial. *)
Lemma matches_check_counts verdicts :
  forall st,
    let st' := matches_check cfg verdicts st in
    acc_score st' = (acc_score st + sum (map (match_penalty cfg) verdicts))%Z /\
    length (acc_factors st') = length (acc_factors st) + length verdicts /\
    details_count (acc_details st') "exact_matches"
    = (details_count (acc_details st) "exact_matches"
       + Z.of_nat (Notions.exact_count verdicts))%Z /\
    details_count (acc_details st') "partial_matches"
    = (details_count (acc_details st) "partial_matches"
       + Z.of_nat (Notions.other_count verdicts))%Z.
Proof.
  unfold matches_check, Notions.exact_count, Notions.other_count.
  induction verdicts as [|v vs IH]; intros st; cbn [fold_left map filter].
  - cbn. repeat split; lia.
  - destruct (IH (match_step cfg st v)) as (I1 & I2 & I3 & I4).
    cbv zeta. rewrite I1, I2, I3, I4. clear IH I1 I2 I3 I4.
    unfold match_step, match_penalty.
    destruct (match_type v); cbn [match_type_eqb negb];
      unfold set_detail, add_factor, add_score;
      cbn [acc_score acc_factors acc_details length];
      rewrite !details_count_set, length_app;
      repeat match goal with
             | |- context [String.eqb ?a ?b] =>
                 let r := eval vm_compute in (String.eqb a b) in
                 change (String.eqb a b) with r
             end;
      cbn [length detail_number]; unfold sum; cbn [fold_right];
      repeat split; lia.
Qed.

End Steps.

Section Whole.

Variable strptime_date : str -> option DateUtils.date.
Variable today : DateUtils.date.
Variable cfg : config_module.

(** The state before the clamp, split by steps. *)
Lemma calculate_customer_risk_trace customer verdicts assessment :
  valid_config cfg ->
  calculate_customer_risk strptime_date today cfg customer verdicts
  = Ok assessment ->
  exists st,
    risk_score assessment
    = Z.min (acc_score st) (max_risk_score (RISK_SCORING cfg)) /\
    risk_factors assessment = acc_factors st /\
    risk_details assessment = acc_details st /\
    acc_score st
    = sum (fired_penalties strptime_date today cfg customer verdicts) /\
    length (acc_factors st)
    = length (fired_penalties strptime_date today cfg customer verdicts) /\
    details_count (acc_details st) "exact_matches"
    = Z.of_nat (Notions.exact_count verdicts) /\
    details_count (acc_details st) "partial_matches"
    = Z.of_nat (Notions.other_count verdicts).
Proof.
  intros [(_ & _ & _ & _ & V5 & _) Vp] H.
  unfold calculate_customer_risk in H.
  destruct (pep_check cfg customer (mkAcc 0 [] [])) as [st1|e] eqn:E1;
    cbn [bind] in H; [|discriminate].
  destruct (id_check cfg customer _) as [st5|e] eqn:E5;
    cbn [bind] in H; [|discriminate].
  injection H as <-. exists st5. cbn [risk_score risk_factors risk_details].
  apply (pep_check_adds cfg customer _ _ Vp) in E1.
  apply id_check_adds in E5.
  pose proof (country_check_adds cfg customer st1) as E2.
  pose proof (matches_check_counts cfg verdicts
                (country_check cfg customer st1)) as E3.
  cbv zeta in E3.
  pose proof (age_check_adds strptime_date today cfg customer
                (matches_check cfg verdicts (country_check cfg customer st1))
                V5) as E4.
  destruct E1 as (A1 & A2 & A3 & A4). destruct E2 as (B1 & B2 & B3 & B4).
  destruct E3 as (C1 & C2 & C3 & C4). destruct E4 as (D1 & D2 & D3 & D4).
  destruct E5 as (F1 & F2 & F3 & F4).
  cbn [acc_score acc_factors acc_details length details_count] in A1, A2, A3, A4.
  unfold fired_penalties. rewrite !sum_app, !length_app, length_map.
  rewrite sum_app in F1. rewrite length_app in F2.
  repeat split; try reflexivity; try lia.
Qed.

End Whole.

End RiskMore.

(** X10.  Each fired signal appends exactly one risk factor: the number of
    factor strings of a risk assessment is the number of penalties that
    went into its score. *)
Theorem one_risk_factor_per_signal
        (strptime_date : str -> option DateUtils.date)
        (today : DateUtils.date) (cfg : Config.config_module)
        (customer : pydict) (verdicts : list match_result)
        (assessment : risk_assessment) :
  Spec.valid_config cfg ->
  RiskCalculator.calculate_customer_risk
    strptime_date today cfg customer verdicts = Ok assessment ->
  length (risk_factors assessment)
  = length (Signals.fired_penalties strptime_date today cfg customer verdicts) /\
  length verdicts <= length (risk_factors assessment)
                  <= length verdicts + 5.
Proof.
  intros Hv H.
  destruct (RiskMore.calculate_customer_risk_trace
              strptime_date today cfg customer verdicts assessment Hv H)
    as (st & _ & -> & _ & _ & Hl & _).
  split; [exact Hl|]. rewrite Hl. unfold Signals.fired_penalties.
  rewrite !length_app, length_map, !RiskMore.length_when.
  destruct (Spec.pep_signal cfg customer);
    destruct (Spec.jurisdiction_signal cfg customer);
    destruct (Signals.age_signal strptime_date today cfg customer);
    destruct (Spec.low_cardinality_signal customer);
    destruct (Spec.all_zeros_signal customer); lia.
Qed.

Lemma default_config_valid : Spec.valid_config Config.config.
Proof.
  unfold Spec.valid_config. cbn. repeat split; try lia. discriminate.
Qed.

Lemma one_risk_factor_per_signal_witness :
  exists assessment,
    RiskCalculator.calculate_customer_risk
      Examples.strptime_date Examples.today Config.config
      Examples.customer_ahmed [Examples.exact_verdict "Ahmed Ali Al-Masri"]
    = Ok assessment /\
    length (risk_factors assessment) = 2.
Proof.
  eexists. split; [reflexivity|].
  match goal with
  | |- length (risk_factors ?a) = _ =>
      rewrite (proj1 (one_risk_factor_per_signal
                        Examples.strptime_date Examples.today Config.config
                        Examples.customer_ahmed
                        [Examples.exact_verdict "Ahmed Ali Al-Masri"]
                        a default_config_valid eq_refl))
  end.
  vm_compute. reflexivity.
Defined.

Lemma exact_other_count (verdicts : list match_result) :
  Notions.exact_count verdicts + Notions.other_count verdicts
  = length verdicts.
Proof.
  unfold Notions.exact_count, Notions.other_count.
  induction verdicts as [|v vs IH]; [reflexivity|].
  cbn [filter]. destruct (match_type_eqb (match_type v) EXACT);
    cbn [negb length]; lia.
Qed.

(** X11.  The detail map counts the verdicts: [exact_matches] (read with
    default 0) is the number of EXACT verdicts and [partial_matches] the
    number of all others. *)
Theorem risk_details_count_verdicts
        (strptime_date : str -> option DateUtils.date)
        (today : DateUtils.date) (cfg : Config.config_module)
        (customer : pydict) (verdicts : list match_result)
        (assessment : risk_assessment) :
  Spec.valid_config cfg ->
  RiskCalculator.calculate_customer_risk
    strptime_date today cfg customer verdicts = Ok assessment ->
  details_count (risk_details assessment) "exact_matches"
  = Z.of_nat (Notions.exact_count verdicts) /\
  details_count (risk_details assessment) "partial_matches"
  = Z.of_nat (Notions.other_count verdicts) /\
  Notions.exact_count verdicts + Notions.other_count verdicts
  = length verdicts.
Proof.
  intros Hv H.
  destruct (RiskMore.calculate_customer_risk_trace
              strptime_date today cfg customer verdicts assessment Hv H)
    as (st & _ & _ & -> & _ & _ & H1 & H2).
  split; [exact H1|]. split; [exact H2|].
  apply exact_other_count.
Qed.

Lemma risk_details_count_verdicts_witness :
  exists assessment,
    RiskCalculator.calculate_customer_risk
      Examples.strptime_date Examples.today Config.config
      Examples.customer_plain
      [Examples.partial_verdict "Jon Smyth";
       Examples.exact_verdict "John Smith";
       Examples.partial_verdict "John Smythe"]
    = Ok assessment /\
    details_count (risk_details assessment) "exact_matches" = 1%Z /\
    details_count (risk_details assessment) "partial_matches" = 2%Z.
Proof.
  eexists. split; [reflexivity|].
  match goal with
  | |- details_count (risk_details ?a) _ = _ /\ _ =>
      destruct (risk_details_count_verdicts
                  Examples.strptime_date Examples.today Config.config
                  Examples.customer_plain
                  [Examples.partial_verdict "Jon Smyth";
                   Examples.exact_verdict "John Smith";
                   Examples.partial_verdict "John Smythe"]
                  a default_config_valid eq_refl) as (H1 & H2 & _)
  end.
  split; [exact H1|exact H2].
Defined.

Lemma id_check_returns_anyway (cfg : Config.config_module)
      (customer : pydict) (st st' : RiskCalculator.acc) :
  RiskCalculator.id_check cfg customer st = Ok st' ->
  forall st2, exists st2', RiskCalculator.id_check cfg customer st2 = Ok st2'.
Proof.
  intros H st2. apply RiskFacts.id_check_returns.
  intros z Hz. unfold RiskCalculator.id_check in H. rewrite Hz in H.
  destruct (Z.eq_dec z 0) as [E|E]; [exact E|].
  replace (truthy (PyInt z)) with true in H
    by (cbn; symmetry; apply negb_true_iff; now apply Z.eqb_neq).
  discriminate.
Qed.

(** Whether the aggregation returns does not depend on the verdicts. *)
Lemma calculate_customer_risk_returns_anyway
      (strptime_date : str -> option DateUtils.date)
      (today : DateUtils.date) (cfg : Config.config_module)
      (customer : pydict) (verdicts verdicts' : list match_result)
      (assessment : risk_assessment) :
  RiskCalculator.calculate_customer_risk
    strptime_date today cfg customer verdicts = Ok assessment ->
  exists assessment',
    RiskCalculator.calculate_customer_risk
      strptime_date today cfg customer verdicts' = Ok assessment'.
Proof.
  intros H.
  destruct (RiskFacts.calculate_customer_risk_steps
              strptime_date today cfg customer verdicts assessment H)
    as (st1 & st5 & E1 & E5 & _).
  unfold RiskCalculator.calculate_customer_risk. rewrite E1. cbn [bind].
  match goal with
  | |- context [RiskCalculator.id_check cfg customer ?s] =>
      destruct (id_check_returns_anyway cfg customer _ _ E5 s) as [st5' ->]
  end.
  cbn [bind]. eauto.
Qed.

Lemma sum_match_penalty_permutation (cfg : Config.config_module)
      (verdicts verdicts' : list match_result) :
  Permutation verdicts verdicts' ->
  Spec.sum (map (Signals.match_penalty cfg) verdicts)
  = Spec.sum (map (Signals.match_penalty cfg) verdicts').
Proof.
  induction 1 as [| x l l' _ IH | x y l | l l' l'' _ IH1 _ IH2];
    cbn [map Spec.sum fold_right].
  - reflexivity.
  - fold (Spec.sum (map (Signals.match_penalty cfg) l)).
    fold (Spec.sum (map (Signals.match_penalty cfg) l')). lia.
  - lia.
  - congruence.
Qed.

(** X12.  Under a valid configuration the risk score grows with the verdicts
    and forgets their order: more verdicts never give a lower score,
    and the same verdicts in another order give the same score and
    level. *)
Theorem risk_score_grows_with_verdicts
        (strptime_date : str -> option DateUtils.date)
        (today : DateUtils.date) (cfg : Config.config_module)
        (customer : pydict) (verdicts : list match_result)
        (assessment : risk_assessment) :
  Spec.valid_config cfg ->
  RiskCalculator.calculate_customer_risk
    strptime_date today cfg customer verdicts = Ok assessment ->
  (forall more,
      exists assessment',
        RiskCalculator.calculate_customer_risk
          strptime_date today cfg customer (verdicts ++ more)
        = Ok assessment' /\
        (risk_score assessment <= risk_score assessment')%Z) /\
  (forall verdicts',
      Permutation verdicts verdicts' ->
      exists assessment',
        RiskCalculator.calculate_customer_risk
          strptime_date today cfg customer verdicts' = Ok assessment' /\
        risk_score assessment' = risk_score assessment /\
        risk_level assessment' = risk_level assessment).
Proof.
  intros Hv H.
  destruct (RiskFacts.calculate_customer_risk_score
              strptime_date today cfg customer verdicts assessment Hv H)
    as [Hs _].
  destruct (RiskFacts.calculate_customer_risk_steps
              strptime_date today cfg customer verdicts assessment H)
    as (_s1 & _s5 & _ & _ & _ & Hl & _).
  split.
  - intros more.
    destruct (calculate_customer_risk_returns_anyway
                strptime_date today cfg customer verdicts (verdicts ++ more)
                assessment H) as [a' H'].
    exists a'. split; [exact H'|].
    destruct (RiskFacts.calculate_customer_risk_score
                strptime_date today cfg customer (verdicts ++ more) a' Hv H')
      as [Hs' _].
    rewrite Hs, Hs'. unfold Signals.fired_penalties.
    rewrite map_app, !RiskFacts.sum_app.
    destruct Hv as [(_ & _ & V3 & V4 & _) _].
    pose proof (RiskFacts.match_penalties_nonneg cfg more V3 V4). lia.
  - intros verdicts' Hp.
    destruct (calculate_customer_risk_returns_anyway
                strptime_date today cfg customer verdicts verdicts'
                assessment H) as [a' H'].
    exists a'. split; [exact H'|].
    destruct (RiskFacts.calculate_customer_risk_score
                strptime_date today cfg customer verdicts' a' Hv H')
      as [Hs' _].
    destruct (RiskFacts.calculate_customer_risk_steps
                strptime_date today cfg customer verdicts' a' H')
      as (_t1 & _t5 & _ & _ & _ & Hl' & _).
    assert (E : risk_score a' = risk_score assessment).
    { rewrite Hs, Hs'. unfold Signals.fired_penalties.
      rewrite !RiskFacts.sum_app.
      now rewrite (sum_match_penalty_permutation cfg _ _ Hp). }
    split; [exact E|]. now rewrite Hl, Hl', E.
Qed.

Lemma risk_score_grows_with_verdicts_witness :
  exists a a',
    RiskCalculator.calculate_customer_risk
      Examples.strptime_date Examples.today Config.config
      Examples.customer_plain [Examples.partial_verdict "Jon Smyth"] = Ok a /\
    RiskCalculator.calculate_customer_risk
      Examples.strptime_date Examples.today Config.config
      Examples.customer_plain
      ([Examples.partial_verdict "Jon Smyth"]
       ++ [Examples.partial_verdict "John Smythe"]) = Ok a' /\
    (risk_score a <= risk_score a')%Z.
Proof.
  eexists. 
  match goal with
  | |- exists a', ?calc = Ok ?a /\ _ =>
      destruct (risk_score_grows_with_verdicts
                  Examples.strptime_date Examples.today Config.config
                  Examples.customer_plain [Examples.partial_verdict "Jon Smyth"]
                  a default_config_valid eq_refl) as [H _]
  end.
  destruct (H [Examples.partial_verdict "John Smythe"]) as (a' & E & Hle).
  exists a'. split; [reflexivity|]. split; [exact E|exact Hle].
Defined.

(** X13.  When the aggregation raises: it raises [AttributeError] exactly
    when the occupation of the record is not a string ([None] or a
    number; an absent key counts as the empty string), it raises
    [TypeError] exactly when the occupation is a string and the
    identifier is a number other than 0, and it returns otherwise. *)
Theorem calculate_customer_risk_raises
        (strptime_date : str -> option DateUtils.date)
        (today : DateUtils.date) (cfg : Config.config_module)
        (customer : pydict) (verdicts : list match_result) :
  let occupation := dict_get customer "occupation" (PyStr []) in
  let id_number := dict_get customer "id_number" (PyStr []) in
  let risk :=
    RiskCalculator.calculate_customer_risk
      strptime_date today cfg customer verdicts in
  (risk = Raise AttributeError <-> forall t, occupation <> PyStr t) /\
  (risk = Raise TypeError
   <-> (exists t, occupation = PyStr t) /\
       exists z, id_number = PyInt z /\ z <> 0%Z) /\
  ((exists assessment, risk = Ok assessment)
   <-> RiskFacts.text_fields customer).
Proof.
  intros occupation id_number risk.
  assert (Hocc : (forall t, occupation <> PyStr t) -> risk = Raise AttributeError).
  { intros Hn. unfold risk, RiskCalculator.calculate_customer_risk,
      RiskCalculator.pep_check.
    fold occupation. destruct occupation as [|t|z]; try reflexivity.
    now destruct (Hn t). }
  assert (Hid : forall t z, occupation = PyStr t -> id_number = PyInt z ->
                            z <> 0%Z -> risk = Raise TypeError).
  { intros t z Ho Hi Hz. unfold risk, RiskCalculator.calculate_customer_risk.
    destruct (RiskFacts.pep_check_returns cfg customer
                (RiskCalculator.mkAcc 0 [] []) (ex_intro _ t Ho)) as [st1 ->].
    cbn [bind]. unfold RiskCalculator.id_check. fold id_number. rewrite Hi.
    replace (truthy (PyInt z)) with true
      by (cbn; symmetry; apply negb_true_iff; now apply Z.eqb_neq).
    reflexivity. }
  assert (Hok : RiskFacts.text_fields customer ->
                exists assessment, risk = Ok assessment)
    by apply RiskFacts.calculate_customer_risk_returns.
  assert (Hcases : (forall t, occupation <> PyStr t) \/
                   ((exists t, occupation = PyStr t) /\
                    exists z, id_number = PyInt z /\ z <> 0%Z) \/
                   RiskFacts.text_fields customer).
  { unfold RiskFacts.text_fields. fold occupation id_number.
    destruct occupation as [|t|z]; try (left; discriminate).
    right. destruct id_number as [|s|z].
    - right. split; [eauto|discriminate].
    - right. split; [eauto|discriminate].
    - destruct (Z.eq_dec z 0) as [->|Hz].
      + right. split; [eauto|]. intros z0 Hz0. congruence.
      + left. split; [eauto|]. eauto. }
  split; [|split].
  - split; [|exact Hocc]. intros Hr.
    destruct Hcases as [H|[H|H]]; [exact H| |].
    + destruct H as [[t Ht] (z & Hz & Hnz)].
      rewrite (Hid t z Ht Hz Hnz) in Hr. discriminate.
    + destruct (Hok H) as [a Ha]. rewrite Ha in Hr. discriminate.
  - split.
    + intros Hr. destruct Hcases as [H|[H|H]]; [|exact H|].
      * rewrite (Hocc H) in Hr. discriminate.
      * destruct (Hok H) as [a Ha]. rewrite Ha in Hr. discriminate.
    + intros [[t Ht] (z & Hz & Hnz)]. exact (Hid t z Ht Hz Hnz).
  - split; [|exact Hok]. intros [a Ha].
    destruct Hcases as [H|[H|H]]; [| |exact H].
    + rewrite (Hocc H) in Ha. discriminate.
    + destruct H as [[t Ht] (z & Hz & Hnz)].
      rewrite (Hid t z Ht Hz Hnz) in Ha. discriminate.
Qed.

Lemma calculate_customer_risk_raises_witness :
  RiskCalculator.calculate_customer_risk
    Examples.strptime_date Examples.today Config.config
    [("occupation"%string, Examples.text "Accountant");
     ("id_number"%string, PyInt 12345)] []
  = Raise TypeError.
Proof.
  apply (calculate_customer_risk_raises
           Examples.strptime_date Examples.today Config.config
           [("occupation"%string, Examples.text "Accountant");
            ("id_number"%string, PyInt 12345)] []).
  split.
  - eexists. reflexivity.
  - exists 12345%Z. split; [reflexivity|discriminate].
Defined.

(* ================================================================== *)
(** * Further properties: the screening as a whole *)
(* ================================================================== *)

Lemma retained_verdicts (customer : pydict) (candidates : list sanction) :
  Forall (fun v =>
            is_match v = true /\
            (match_type v = EXACT \/ match_type v = PARTIAL) /\
            exists entry, In entry candidates /\
                          v = _check_sanction_match customer entry)
         (Spec.retained customer candidates).
Proof.
  unfold Spec.retained. apply Forall_forall. intros v Hv.
  apply filter_In in Hv. destruct Hv as [Hin Hm].
  apply in_map_iff in Hin. destruct Hin as (e & <- & He).
  split; [exact Hm|]. split; [|eauto].
  destruct (verdict_well_formed_facts customer e) as (_ & _ & H & _).
  apply H in Hm.
  destruct (match_type (_check_sanction_match customer e));
    [now left|now right|congruence].
Qed.

Lemma retained_empty_iff (customer : pydict) (candidates : list sanction) :
  Spec.retained customer candidates = [] <->
  forall entry, In entry candidates -> (name_score customer entry < 85)%Q.
Proof.
  unfold Spec.retained. induction candidates as [|e es IH]; cbn [map filter].
  - split; [intros _ e []|reflexivity].
  - destruct (verdict_well_formed_facts customer e) as (_ & _ & Hm & _ & _ & Hn & _).
    destruct (is_match (_check_sanction_match customer e)) eqn:E.
    + split; [discriminate|]. intros H. exfalso.
      assert (Hlt : (name_score customer e < 85)%Q) by (apply H; now left).
      apply Hn in Hlt. now apply (proj1 Hm eq_refl).
    + rewrite IH. split.
      * intros H e' [<-|He']; [|now apply H].
        apply Hn. destruct (match_type (_check_sanction_match customer e));
          try reflexivity; exfalso;
          assert (false = true) by (apply (proj2 Hm); discriminate);
          discriminate.
      * intros H e' He'. apply H. now right.
Qed.

Lemma any_exact_iff (verdicts : list match_result) :
  Spec.any_of EXACT verdicts = true <->
  exists v, In v verdicts /\ match_type v = EXACT.
Proof.
  unfold Spec.any_of. rewrite existsb_exists. split.
  - intros (v & Hv & E). exists v. split; [exact Hv|].
    destruct (match_type v); [reflexivity|discriminate|discriminate].
  - intros (v & Hv & E). exists v. split; [exact Hv|]. now rewrite E.
Qed.

(** X14.  The screening result is CLEAR exactly when no verdict is retained,
    that is when every candidate has a name score below 85: with at
    least one retained verdict the result is REJECTED, REVIEW_REQUIRED
    or CLEAR_WITH_WARNING, because a retained verdict is EXACT or
    PARTIAL.  The risk level has no part in it: a customer of any risk
    level is CLEAR when no candidate matches. *)
Theorem screening_clear_iff_no_match
        (strptime_date : str -> option DateUtils.date)
        (today : DateUtils.date)
        (search_sanctions : pyval -> list sanction)
        (customer : pydict)
        (matches : list match_result) (assessment : risk_assessment)
        (result : disposition) :
  screen_new_customer strptime_date today search_sanctions customer
  = Ok (matches, assessment, result) ->
  let candidates :=
    search_sanctions (dict_get customer "full_name_en" (PyStr [])) in
  Forall (fun v => is_match v = true /\
                   (match_type v = EXACT \/ match_type v = PARTIAL)) matches /\
  (result = CLEAR <-> matches = []) /\
  (matches = [] <->
   forall entry, In entry candidates -> (name_score customer entry < 85)%Q).
Proof.
  intros H candidates.
  unfold screen_new_customer in H.
  rewrite _perform_sanctions_screening_retained in H. fold candidates in H.
  destruct (RiskCalculator.calculate_customer_risk _ _ _ _ _) as [a|e];
    cbn [bind] in H; [|discriminate].
  rewrite _determine_screening_result_rule in H.
  injection H as <- <- <-.
  pose proof (retained_verdicts customer candidates) as Hr.
  split; [|split].
  - eapply Forall_impl; [|exact Hr]. cbn. tauto.
  - unfold Spec.disposition_rule.
    destruct (Spec.retained customer candidates) as [|v vs] eqn:E.
    + split; reflexivity.
    + cbn [length Nat.eqb]. split; [|discriminate].
      destruct (Spec.any_of EXACT (v :: vs)) eqn:Ee; [discriminate|].
      destruct (risk_level a); try discriminate.
      all: replace (Spec.any_of PARTIAL (v :: vs)) with true;
        [discriminate|].
      all: symmetry; unfold Spec.any_of; cbn [existsb];
        inversion Hr as [|v0 vs0 (_ & [Hv|Hv] & _) _]; subst;
        rewrite Hv; [|reflexivity].
      all: unfold Spec.any_of in Ee; cbn [existsb] in Ee;
        rewrite Hv in Ee; discriminate.
  - apply retained_empty_iff.
Qed.

Lemma screening_clear_iff_no_match_witness :
  exists matches assessment,
    screen_new_customer Examples.strptime_date Examples.today
                        (fun _ => [Examples.entry_mohamed_ali_hassan])
                        Examples.customer_plain
    = Ok (matches, assessment, CLEAR) /\ matches = [].
Proof.
  eexists. eexists. split; [reflexivity|].
  match goal with
  | |- ?m = [] =>
      apply (proj1 (proj1 (proj2 (screening_clear_iff_no_match
                     Examples.strptime_date Examples.today
                     (fun _ => [Examples.entry_mohamed_ali_hassan])
                     Examples.customer_plain m _ CLEAR eq_refl))))
  end.
  reflexivity.
Defined.

(** ** With the default configuration *)

Lemma fired_penalties_split
      (strptime_date : str -> option DateUtils.date)
      (today : DateUtils.date) (cfg : Config.config_module)
      (customer : pydict) (verdicts : list match_result) :
  Spec.sum (Signals.fired_penalties strptime_date today cfg customer verdicts)
  = (Spec.sum (Signals.customer_penalties strptime_date today cfg customer)
     + Spec.sum (map (Signals.match_penalty cfg) verdicts))%Z.
Proof.
  unfold Signals.customer_penalties, Signals.fired_penalties.
  rewrite !RiskFacts.sum_app. cbn [map Spec.sum fold_right]. lia.
Qed.

(** Every customer signal of the default configuration weighs at least
    15. *)
Lemma customer_penalties_default
      (strptime_date : str -> option DateUtils.date)
      (today : DateUtils.date) (customer : pydict) :
  let l := Signals.customer_penalties strptime_date today Config.config customer in
  (l = [] /\ Spec.sum l = 0%Z) \/ (l <> [] /\ (15 <= Spec.sum l)%Z).
Proof.
  unfold Signals.customer_penalties, Signals.fired_penalties.
  cbn [map app Config.RISK_SCORING Config.config Config.pep_penalty
       Config.high_risk_country_penalty Config.unusual_id_penalty].
  destruct (Spec.pep_signal Config.config customer);
    destruct (Spec.jurisdiction_signal Config.config customer);
    destruct (Signals.age_signal strptime_date today Config.config customer);
    destruct (Spec.low_cardinality_signal customer);
    destruct (Spec.all_zeros_signal customer);
    cbn [Spec.when app Spec.sum fold_right];
    ((left; split; [reflexivity|lia]) || (right; split; [discriminate|lia])).
Qed.

Lemma sum_match_penalty_default (verdicts : list match_result) :
  (50 * Z.of_nat (length verdicts)
   <= Spec.sum (map (Signals.match_penalty Config.config) verdicts))%Z /\
  (Spec.any_of EXACT verdicts = true ->
   100 <= Spec.sum (map (Signals.match_penalty Config.config) verdicts))%Z /\
  (Spec.any_of EXACT verdicts = false ->
   Spec.sum (map (Signals.match_penalty Config.config) verdicts)
   = 50 * Z.of_nat (length verdicts))%Z.
Proof.
  unfold Spec.any_of.
  induction verdicts as [|v vs (I1 & I2 & I3)];
    cbn [map Spec.sum fold_right length existsb].
  - repeat split; try lia; discriminate.
  - fold (Spec.sum (map (Signals.match_penalty Config.config) vs)).
    unfold Signals.match_penalty at 1 3 5.
    cbn [Config.RISK_SCORING Config.config Config.sanction_match_penalty
         Config.partial_match_penalty].
    destruct (match_type v); cbn [match_type_eqb orb].
    + split; [lia|]. split; [intros _; lia|discriminate].
    + split; [lia|]. split; intros H; [specialize (I2 H)|specialize (I3 H)];
        lia.
    + split; [lia|]. split; intros H; [specialize (I2 H)|specialize (I3 H)];
        lia.
Qed.

Lemma high_or_critical (score : Z) :
  match RiskCalculator._determine_risk_level score with
  | HIGH | CRITICAL => (60 <= score)%Z
  | _ => (score < 60)%Z
  end.
Proof.
  unfold RiskCalculator._determine_risk_level.
  destruct (score >=? 80)%Z eqn:E1; [apply Z.geb_le in E1; lia|].
  destruct (score >=? 60)%Z eqn:E2; [apply Z.geb_le in E2; lia|].
  rewrite Z.geb_leb in E2. apply Z.leb_gt in E2.
  destruct (score >=? 40)%Z; [lia|]. destruct (score >=? 20)%Z; lia.
Qed.

(** The steps of the screening, once it returned. *)
Lemma screen_new_customer_steps
      (strptime_date : str -> option DateUtils.date)
      (today : DateUtils.date)
      (search_sanctions : pyval -> list sanction)
      (customer : pydict)
      (matches : list match_result) (assessment : risk_assessment)
      (result : disposition) :
  screen_new_customer strptime_date today search_sanctions customer
  = Ok (matches, assessment, result) ->
  let candidates :=
    search_sanctions (dict_get customer "full_name_en" (PyStr [])) in
  matches = Spec.retained customer candidates /\
  RiskCalculator.calculate_customer_risk
    strptime_date today Config.config customer matches = Ok assessment /\
  result = Spec.disposition_rule matches (risk_level assessment).
Proof.
  intros H candidates. unfold screen_new_customer in H.
  rewrite _perform_sanctions_screening_retained in H. fold candidates in H.
  destruct (RiskCalculator.calculate_customer_risk _ _ _ _ _) as [a|e] eqn:E;
    cbn [bind] in H; [|discriminate].
  rewrite _determine_screening_result_rule in H.
  injection H as <- <- <-. auto.
Qed.

(** X15.  The screening result is REJECTED exactly when some candidate has a
    name score of 95 or more; the risk score is then 100 and the risk
    level CRITICAL. *)
Theorem screening_rejected_iff_exact
        (strptime_date : str -> option DateUtils.date)
        (today : DateUtils.date)
        (search_sanctions : pyval -> list sanction)
        (customer : pydict)
        (matches : list match_result) (assessment : risk_assessment)
        (result : disposition) :
  screen_new_customer strptime_date today search_sanctions customer
  = Ok (matches, assessment, result) ->
  let candidates :=
    search_sanctions (dict_get customer "full_name_en" (PyStr [])) in
  (result = REJECTED <->
   exists entry, In entry candidates /\ (95 <= name_score customer entry)%Q) /\
  (result = REJECTED ->
   risk_score assessment = 100%Z /\ risk_level assessment = CRITICAL).
Proof.
  intros H candidates.
  destruct (screen_new_customer_steps _ _ _ _ _ _ _ H) as (Hm & Hr & Hd).
  fold candidates in Hm.
  assert (Hrej : result = REJECTED <-> Spec.any_of EXACT matches = true).
  { rewrite Hd. unfold Spec.disposition_rule.
    destruct matches as [|v vs]; [cbn; split; discriminate|].
    cbn [length Nat.eqb].
    destruct (Spec.any_of EXACT (v :: vs)); [split; reflexivity|].
    split; [|discriminate].
    destruct (risk_level assessment); try discriminate;
      destruct (Spec.any_of PARTIAL (v :: vs)); discriminate. }
  split.
  - rewrite Hrej, any_exact_iff. split.
    + intros (v & Hv & Ev). rewrite Hm in Hv.
      pose proof (retained_verdicts customer candidates) as Hall.
      rewrite Forall_forall in Hall.
      destruct (Hall v Hv) as (_ & _ & e & He & ->).
      exists e. split; [exact He|].
      now apply (verdict_well_formed_facts customer e).
    + intros (e & He & Hs).
      destruct (verdict_well_formed_facts customer e)
        as (_ & _ & Hi & Hx & _).
      apply Hx in Hs. exists (_check_sanction_match customer e).
      split; [|exact Hs]. rewrite Hm. unfold Spec.retained.
      apply filter_In. split; [now apply in_map|].
      apply Hi. rewrite Hs. discriminate.
  - intros Hres. apply Hrej in Hres.
    destruct (RiskFacts.calculate_customer_risk_score
                strptime_date today Config.config customer matches
                assessment default_config_valid Hr) as [Hs _].
    destruct (RiskFacts.calculate_customer_risk_steps
                strptime_date today Config.config customer matches
                assessment Hr) as (_s1 & _s5 & _ & _ & _ & Hl & _).
    rewrite fired_penalties_split in Hs.
    destruct (sum_match_penalty_default matches) as (_ & H100 & _).
    specialize (H100 Hres).
    pose proof (customer_penalties_default strptime_date today customer)
      as Hc. cbv zeta in Hc.
    assert (Hscore : risk_score assessment = 100%Z).
    { rewrite Hs. cbn [Config.RISK_SCORING Config.config Config.max_risk_score].
      destruct Hc as [[_ Hc]|[_ Hc]]; lia. }
    split; [exact Hscore|]. rewrite Hl, Hscore. reflexivity.
Qed.

Lemma screening_rejected_iff_exact_witness :
  exists matches assessment,
    screen_new_customer Examples.strptime_date Examples.today
                        (fun _ => [Examples.entry_ahmed])
                        Examples.customer_ahmed
    = Ok (matches, assessment, REJECTED) /\
    risk_score assessment = 100%Z /\ risk_level assessment = CRITICAL.
Proof.
  eexists. eexists. split; [reflexivity|].
  match goal with
  | |- risk_score ?a = _ /\ _ =>
      apply (proj2 (screening_rejected_iff_exact
                      Examples.strptime_date Examples.today
                      (fun _ => [Examples.entry_ahmed])
                      Examples.customer_ahmed _ a REJECTED eq_refl))
  end.
  reflexivity.
Defined.

(** X16.  The screening result is CLEAR_WITH_WARNING exactly when a single
    verdict is retained, it is PARTIAL, and no signal of the customer
    record fires; one more verdict or any customer signal raises the
    risk level to HIGH or CRITICAL and the result to REVIEW_REQUIRED. *)
Theorem screening_warning_iff_single_partial
        (strptime_date : str -> option DateUtils.date)
        (today : DateUtils.date)
        (search_sanctions : pyval -> list sanction)
        (customer : pydict)
        (matches : list match_result) (assessment : risk_assessment)
        (result : disposition) :
  screen_new_customer strptime_date today search_sanctions customer
  = Ok (matches, assessment, result) ->
  (result = CLEAR_WITH_WARNING <->
   (exists v, matches = [v] /\ match_type v = PARTIAL) /\
   Signals.customer_penalties strptime_date today Config.config customer = []).
Proof.
  intros H.
  destruct (screen_new_customer_steps _ _ _ _ _ _ _ H) as (Hm & Hr & Hd).
  destruct (RiskFacts.calculate_customer_risk_score
              strptime_date today Config.config customer matches
              assessment default_config_valid Hr) as [Hs _].
  destruct (RiskFacts.calculate_customer_risk_steps
              strptime_date today Config.config customer matches
              assessment Hr) as (_s1 & _s5 & _ & _ & _ & Hl & _).
  rewrite fired_penalties_split in Hs.
  cbn [Config.RISK_SCORING Config.config Config.max_risk_score] in Hs.
  pose proof (high_or_critical (risk_score assessment)) as Hhc.
  rewrite <- Hl in Hhc.
  pose proof (customer_penalties_default strptime_date today customer) as Hc.
  cbv zeta in Hc.
  destruct (sum_match_penalty_default matches) as (H50 & H100 & Hno).
  pose proof (retained_verdicts customer
                (search_sanctions
                   (dict_get customer "full_name_en" (PyStr [])))) as Hall.
  rewrite <- Hm in Hall.
  rewrite Hd. unfold Spec.disposition_rule. split.
  - destruct matches as [|v vs]; [cbn; discriminate|].
    cbn [length Nat.eqb].
    destruct (Spec.any_of EXACT (v :: vs)) eqn:Ee; [discriminate|].
    specialize (Hno eq_refl). cbn [length] in Hno.
    destruct (risk_level assessment); try discriminate; intros _.
    all: assert (vs = []) by (destruct vs; [reflexivity|cbn [length] in Hno;
                              destruct Hc as [[_ Hc]|[_ Hc]]; lia]).
    all: subst vs; cbn [length] in Hno.
    all: split;
      [exists v; split; [reflexivity|];
       inversion Hall as [|v0 vs0 (_ & [Hv|Hv] & _) _]; subst;
       [unfold Spec.any_of in Ee; cbn [existsb] in Ee; rewrite Hv in Ee;
        discriminate|exact Hv]
      |destruct Hc as [[Hc _]|[_ Hc]]; [exact Hc|lia]].
  - intros [(v & -> & Hv) Hcust].
    cbn [length Nat.eqb]. unfold Spec.any_of. cbn [existsb].
    rewrite Hv. cbn [match_type_eqb orb].
    rewrite Hcust in Hs. cbn [map Spec.sum fold_right] in Hs.
    unfold Signals.match_penalty in Hs. rewrite Hv in Hs.
    cbn [Config.RISK_SCORING Config.config Config.partial_match_penalty] in Hs.
    destruct (risk_level assessment); try reflexivity; lia.
Qed.

Lemma screening_warning_iff_single_partial_witness :
  exists matches assessment,
    screen_new_customer Examples.strptime_date Examples.today
                        (fun _ => [Examples.entry_jon_smyth])
                        [("full_name_en"%string, Examples.text "Jon Smith");
                         ("occupation"%string, Examples.text "Accountant")]
    = Ok (matches, assessment, CLEAR_WITH_WARNING) /\
    Signals.customer_penalties Examples.strptime_date Examples.today
      Config.config
      [("full_name_en"%string, Examples.text "Jon Smith");
       ("occupation"%string, Examples.text "Accountant")] = [].
Proof.
  eexists. eexists. split; [reflexivity|].
  match goal with
  | |- _ =>
      apply (proj1 (screening_warning_iff_single_partial
                      Examples.strptime_date Examples.today
                      (fun _ => [Examples.entry_jon_smyth])
                      [("full_name_en"%string, Examples.text "Jon Smith");
                       ("occupation"%string, Examples.text "Accountant")]
                      _ _ CLEAR_WITH_WARNING eq_refl))
  end.
  reflexivity.
Defined.

(* ================================================================== *)
(** * Further properties: age and PEP indicators *)
(* ================================================================== *)

Lemma pair_ltb_spec (a b c d : Z) :
  DateUtils.pair_ltb a b c d = true <-> (a < c \/ (a = c /\ b < d))%Z.
Proof.
  unfold DateUtils.pair_ltb.
  rewrite orb_true_iff, andb_true_iff, !Z.ltb_lt, Z.eqb_eq. tauto.
Qed.

(** X17.  [calculate_age] gives the whole years between the birth date and
    today: the anniversary after that many years is today or earlier,
    the next one is still to come.  It gives [None] for [None], for
    the empty string and for a string that does not parse. *)
Theorem calculate_age_whole_years
        (strptime_date : str -> option DateUtils.date)
        (today : DateUtils.date) (s : str) :
  DateUtils.calculate_age strptime_date today PyNone = None /\
  DateUtils.calculate_age strptime_date today (PyStr []) = None /\
  (strptime_date s = None ->
   DateUtils.calculate_age strptime_date today (PyStr s) = None) /\
  (forall birth,
      s <> [] -> strptime_date s = Some birth ->
      exists age,
        DateUtils.calculate_age strptime_date today (PyStr s) = Some age /\
        Notions.on_or_before (Notions.anniversary birth age) today /\
        ~ Notions.on_or_before (Notions.anniversary birth (age + 1)) today).
Proof.
  split; [reflexivity|]. split; [reflexivity|]. split.
  - intros H. unfold DateUtils.calculate_age.
    destruct (negb (truthy (PyStr s))); [reflexivity|]. now rewrite H.
  - intros birth Hs H. unfold DateUtils.calculate_age.
    destruct s as [|c s]; [congruence|]. cbn [truthy negb]. rewrite H.
    eexists. split; [reflexivity|].
    unfold Notions.on_or_before, Notions.anniversary.
    cbn [DateUtils.year DateUtils.month DateUtils.day].
    destruct (DateUtils.pair_ltb _ _ _ _) eqn:E.
    + apply pair_ltb_spec in E. split; lia.
    + assert (E' : ~ (DateUtils.month today < DateUtils.month birth \/
                      (DateUtils.month today = DateUtils.month birth /\
                       DateUtils.day today < DateUtils.day birth))%Z).
      { intros H'. apply pair_ltb_spec in H'. congruence. }
      split; lia.
Qed.

Lemma calculate_age_whole_years_witness :
  DateUtils.calculate_age Examples.strptime_date Examples.today
                          (PyStr (lit "1980-05-15")) = Some 44%Z.
Proof.
  destruct (proj2 (proj2 (proj2 (calculate_age_whole_years
              Examples.strptime_date Examples.today (lit "1980-05-15"))))
              (DateUtils.mkDate 1980 5 15))
    as (age & E & _); [discriminate|reflexivity|].
  reflexivity.
Defined.

Lemma startswith_iff (p s : str) :
  startswith p s = true <-> exists post, s = p ++ post.
Proof.
  split.
  - intros H. exists (skipn (length p) s).
    now apply PyStrFacts.startswith_split.
  - intros [post ->]. apply PyStrFacts.startswith_app.
Qed.

Lemma contains_iff (sub s : str) :
  contains sub s = true <-> Notions.occurs_in sub s.
Proof.
  unfold Notions.occurs_in. induction s as [|c s IH]; cbn [contains].
  - rewrite orb_false_r, startswith_iff. split.
    + intros [post H]. exists [], post. exact H.
    + intros (pre & post & H). destruct pre as [|x pre]; [|discriminate].
      exists post. exact H.
  - rewrite orb_true_iff, startswith_iff, IH. split.
    + intros [[post H]|(pre & post & H)].
      * exists [], post. exact H.
      * exists (c :: pre), post. cbn. now f_equal.
    + intros (pre & post & H). destruct pre as [|x pre].
      * left. exists post. exact H.
      * right. cbn in H. injection H as _ H. eauto.
Qed.

Lemma contains_pep_indicator_unfold (t : str) (indicators : list str) :
  indicators <> [] ->
  StringUtils.contains_pep_indicator (PyStr t) indicators
  = Ok (Spec.nonempty t
        && existsb (fun indicator => contains indicator (lower t)) indicators).
Proof.
  intros Hne. unfold StringUtils.contains_pep_indicator.
  rewrite RiskFacts.truthy_str.
  destruct (Spec.nonempty t); cbn [negb andb]; [|reflexivity].
  destruct indicators; [congruence|reflexivity].
Qed.

(** X18.  [contains_pep_indicator] is a case-insensitive substring search: a
    non-empty text is flagged exactly when some indicator occurs in the
    lowered text as a contiguous substring.  So the letter case of the
    text does not matter, and a text that contains a flagged text is
    flagged ("major" flags "Majority shareholder").  [None] and the
    empty string are never flagged. *)
Theorem contains_pep_indicator_substring (t : str) (indicators : list str) :
  indicators <> [] ->
  StringUtils.contains_pep_indicator PyNone indicators = Ok false /\
  StringUtils.contains_pep_indicator (PyStr []) indicators = Ok false /\
  (StringUtils.contains_pep_indicator (PyStr t) indicators = Ok true <->
   t <> [] /\
   exists indicator,
     In indicator indicators /\ Notions.occurs_in indicator (lower t)) /\
  StringUtils.contains_pep_indicator (PyStr (lower t)) indicators
  = StringUtils.contains_pep_indicator (PyStr t) indicators /\
  (forall pre post,
      StringUtils.contains_pep_indicator (PyStr t) indicators = Ok true ->
      StringUtils.contains_pep_indicator (PyStr (pre ++ t ++ post)) indicators
      = Ok true).
Proof.
  intros Hne.
  assert (Hiff : forall t0,
             StringUtils.contains_pep_indicator (PyStr t0) indicators = Ok true
             <-> t0 <> [] /\
                 exists indicator,
                   In indicator indicators /\
                   Notions.occurs_in indicator (lower t0)).
  { intros t0. rewrite (contains_pep_indicator_unfold t0 _ Hne). split.
    - intros H. injection H as H. apply andb_prop in H. destruct H as [H1 H2].
      split; [destruct t0; [discriminate|congruence]|].
      apply existsb_exists in H2. destruct H2 as (i & Hi & Hc).
      exists i. split; [exact Hi|]. now apply contains_iff.
    - intros [H1 (i & Hi & Hc)]. f_equal. apply andb_true_intro. split.
      + destruct t0; [congruence|reflexivity].
      + apply existsb_exists. exists i. split; [exact Hi|].
        now apply contains_iff. }
  split; [reflexivity|]. split; [reflexivity|]. split; [apply Hiff|]. split.
  - rewrite !(contains_pep_indicator_unfold _ _ Hne).
    now rewrite RiskFacts.lower_idem, RiskFacts.lower_nonempty.
  - intros pre post H. apply Hiff in H. destruct H as [H1 (i & Hi & Hc)].
    apply Hiff. split.
    + destruct pre; [destruct t; [congruence|discriminate]|discriminate].
    + exists i. split; [exact Hi|].
      destruct Hc as (l & r & E). rewrite !lower_app, E.
      exists (lower pre ++ l), (r ++ lower post).
      now rewrite <- !app_assoc.
Qed.

Lemma contains_pep_indicator_substring_witness :
  StringUtils.contains_pep_indicator
    (PyStr (lit "The majority shareholder"))
    (Config.PEP_INDICATORS Config.config)
  = Ok true.
Proof.
  destruct (contains_pep_indicator_substring
              (lit "major") (Config.PEP_INDICATORS Config.config))
    as (_ & _ & _ & _ & H); [discriminate|].
  apply (H (lit "The ") (lit "ity shareholder")).
  reflexivity.
Defined.

(* ================================================================== *)
(** * Further properties: helper functions *)
(* ================================================================== *)

Module UtilsFacts.

Import PyChars Utils.

Lemma split_strip (text : str) : split (strip text) = split text.
Proof.
  unfold split. apply runs_strip.
  intros c H. now rewrite H.
Qed.

Lemma extract_names_split (full_name : str) :
  extract_names full_name
  = match split full_name with
    | [] => ([], [])
    | [part] => (part, [])
    | part :: _ => (part, last (split full_name) [])
    end.
Proof.
  unfold extract_names. destruct full_name as [|c t]; [reflexivity|].
  rewrite split_strip. reflexivity.
Qed.

Lemma split_margins (pre text post : str) :
  Forall (fun c => is_space c = true) pre ->
  Forall (fun c => is_space c = true) post ->
  split (pre ++ text ++ post) = split text.
Proof.
  intros Hpre Hpost. unfold split.
  rewrite runs_none.
  - apply runs_app_out.
    eapply Forall_impl; [|exact Hpost]. intros c H. cbv beta in H |- *.
    now rewrite H.
  - eapply Forall_impl; [|exact Hpre]. intros c H. cbv beta in H |- *.
    now rewrite H.
Qed.

Lemma split_words (text : str) :
  Forall (fun w => w <> [] /\ Forall (fun c => is_space c = false) w)
         (split text).
Proof.
  unfold split.
  eapply Forall_impl; [|apply (runs_spec (fun c => negb (is_space c)) text)].
  intros w (Hne & Hall & _). split; [exact Hne|].
  eapply Forall_impl; [|exact Hall]. intros c H. cbv beta in H.
  now destruct (is_space c).
Qed.

Lemma firstn_skipn_length (A : Type) (l : list A) (n : nat) :
  n < length l -> skipn n l <> [].
Proof.
  intros H E. apply (f_equal (@length A)) in E.
  rewrite length_skipn in E. cbn in E. lia.
Qed.

End UtilsFacts.

(** X19.  [extract_names] returns the first and the last of the
    whitespace-separated words of the name and drops what is between
    them; a name of one word has an empty last name, a name without
    words gives two empty strings.  Neither part contains white space,
    and white space around the name changes nothing. *)
Theorem extract_names_first_and_last (full_name : str) :
  (split full_name = [] -> Utils.extract_names full_name = ([], [])) /\
  (forall only,
      split full_name = [only] ->
      Utils.extract_names full_name = (only, [])) /\
  (forall first middle last,
      split full_name = first :: middle ++ [last] ->
      Utils.extract_names full_name = (first, last)) /\
  Forall (fun c => is_space c = false)
         (fst (Utils.extract_names full_name)
          ++ snd (Utils.extract_names full_name)) /\
  (forall pre post,
      Forall (fun c => is_space c = true) pre ->
      Forall (fun c => is_space c = true) post ->
      Utils.extract_names (pre ++ full_name ++ post)
      = Utils.extract_names full_name).
Proof.
  repeat split.
  - intros E. rewrite UtilsFacts.extract_names_split, E. reflexivity.
  - intros only E. rewrite UtilsFacts.extract_names_split, E. reflexivity.
  - intros first middle lst E.
    rewrite UtilsFacts.extract_names_split, E.
    change (first :: middle ++ [lst]) with ((first :: middle) ++ [lst]).
    rewrite last_last.
    destruct middle; reflexivity.
  - rewrite UtilsFacts.extract_names_split.
    pose proof (UtilsFacts.split_words full_name) as H.
    destruct (split full_name) as [|w [|w' ws]] eqn:E; cbn [fst snd].
    + constructor.
    + rewrite app_nil_r. inversion H as [|? ? [_ Hw] _]; subst. exact Hw.
    + apply Forall_app. split.
      * inversion H as [|? ? [_ Hw] _]; subst. exact Hw.
      * assert (Hin : In (last (w :: w' :: ws) []) (w :: w' :: ws)).
        { destruct (exists_last (l := w :: w' :: ws)) as (l' & a & El);
            [discriminate|].
          rewrite El, last_last. apply in_or_app. right. now left. }
        rewrite Forall_forall in H. now apply (H _ Hin).
  - intros pre post Hpre Hpost.
    rewrite !UtilsFacts.extract_names_split.
    rewrite (UtilsFacts.split_margins pre full_name post Hpre Hpost).
    reflexivity.
Qed.

Lemma extract_names_first_and_last_witness :
  Utils.extract_names (lit " Mohamed  Ali Hassan ")
  = (lit "Mohamed", lit "Hassan").
Proof.
  destruct (extract_names_first_and_last (lit " Mohamed  Ali Hassan "))
    as (_ & _ & H & _).
  apply (H (lit "Mohamed") [lit "Ali"] (lit "Hassan")).
  reflexivity.
Defined.

(** X20.  With a non-negative number of visible characters,
    [mask_sensitive_data] shows a prefix of the text of at most that
    many characters, followed by three asterisks, and it always hides
    at least one character of a non-empty text.  With a negative
    number it hides only that many characters at the end of a
    non-empty text and shows all the others. *)
Theorem mask_sensitive_data_hides (text : str) (visible_chars : Z) :
  ((0 <= visible_chars)%Z ->
   exists shown hidden,
     text = shown ++ hidden /\
     Utils.mask_sensitive_data text visible_chars = shown ++ lit "***" /\
     (Z.of_nat (length shown) <= visible_chars)%Z /\
     (text <> [] -> hidden <> [])) /\
  ((visible_chars < 0)%Z -> text <> [] ->
   exists shown hidden,
     text = shown ++ hidden /\
     Utils.mask_sensitive_data text visible_chars = shown ++ lit "***" /\
     length hidden = Nat.min (length text) (Z.to_nat (- visible_chars))).
Proof.
  unfold Utils.mask_sensitive_data, PyChars.prefix. split.
  - intros Hk.
    destruct text as [|c t].
    { exists [], []. repeat split; try reflexivity; [cbn; lia|congruence]. }
    cbn [PyChars.is_nonempty negb orb].
    destruct (Z.leb_spec (Z.of_nat (length (c :: t))) visible_chars) as [H|H].
    + exists [], (c :: t). repeat split; try reflexivity; [cbn; lia|].
      intros _. discriminate.
    + destruct (Z.ltb_spec visible_chars 0) as [H0|H0]; [lia|].
      exists (firstn (Z.to_nat visible_chars) (c :: t)),
             (skipn (Z.to_nat visible_chars) (c :: t)).
      repeat split.
      * now rewrite firstn_skipn.
      * rewrite length_firstn. lia.
      * intros _. apply UtilsFacts.firstn_skipn_length. lia.
  - intros Hk Hne.
    destruct text as [|c t]; [congruence|].
    cbn [PyChars.is_nonempty negb orb].
    destruct (Z.leb_spec (Z.of_nat (length (c :: t))) visible_chars) as [H|H];
      [lia|].
    destruct (Z.ltb_spec visible_chars 0) as [H0|H0]; [|lia].
    exists (firstn (length (c :: t) - Z.to_nat (- visible_chars)) (c :: t)),
           (skipn (length (c :: t) - Z.to_nat (- visible_chars)) (c :: t)).
    repeat split.
    + now rewrite firstn_skipn.
    + rewrite length_skipn. lia.
Qed.

Lemma mask_sensitive_data_hides_witness :
  (exists shown hidden,
      lit "A1234567" = shown ++ hidden /\
      Utils.mask_sensitive_data (lit "A1234567") 4 = shown ++ lit "***" /\
      (Z.of_nat (length shown) <= 4)%Z /\
      (lit "A1234567" <> [] -> hidden <> [])) /\
  (exists shown hidden,
      lit "A1234567" = shown ++ hidden /\
      Utils.mask_sensitive_data (lit "A1234567") (-1) = shown ++ lit "***" /\
      length hidden = Nat.min (length (lit "A1234567")) (Z.to_nat (- -1))).
Proof.
  split.
  - apply (mask_sensitive_data_hides (lit "A1234567") 4). lia.
  - apply (mask_sensitive_data_hides (lit "A1234567") (-1)).
    + lia.
    + discriminate.
Defined.

(* ================================================================== *)
(** * Further properties: validators *)
(* ================================================================== *)

Module ValidationFacts.

Import PyChars ValidationUtils.

Lemma two_chars (s : str) :
  (length s =? 2) = true -> exists a b, s = [a; b].
Proof.
  destruct s as [|a [|b [|c s]]]; try discriminate. intros _. now exists a, b.
Qed.

Lemma filter_idem (A : Type) (f : A -> bool) (l : list A) :
  filter f (filter f l) = filter f l.
Proof.
  induction l as [|x l IH]; [reflexivity|]. cbn [filter].
  destruct (f x) eqn:E; [|exact IH]. cbn [filter]. now rewrite E, IH.
Qed.

Lemma startswith_plus (s : str) :
  startswith (lit "+20") s = true -> startswith (lit "+") s = true.
Proof.
  change (lit "+20") with ["+"%char; "2"%char; "0"%char].
  change (lit "+") with ["+"%char].
  destruct s as [|c s]; [discriminate|]. cbn [startswith].
  destruct (Ascii.eqb "+" c); [reflexivity|discriminate].
Qed.

Lemma startswith_zero (s : str) :
  startswith (lit "01") s = true -> startswith (lit "+") s = false.
Proof.
  change (lit "01") with ["0"%char; "1"%char].
  change (lit "+") with ["+"%char].
  destruct s as [|c s]; [discriminate|]. cbn [startswith].
  destruct (Ascii.eqb_spec "0" c) as [<-|]; [reflexivity|discriminate].
Qed.

End ValidationFacts.

(** X21.  [validate_nationality_code] accepts every code of two capital
    letters A-Z.  Every code that it accepts has two characters, both
    alphabetic ([str.isalpha]), neither of them lower-case
    ([str.islower]) and one of them at least upper-case
    ([str.isupper]).  It raises [TypeError] exactly for a number other
    than 0.  What it accepts, [config.validate_country_code] accepts,
    and it accepts every code of the two country lists of the
    configuration. *)
Theorem validate_nationality_code_two_letters (country_code : pyval) :
  (forall a b,
      between 65 90 (code a) = true -> between 65 90 (code b) = true ->
      ValidationUtils.validate_nationality_code (PyStr [a; b]) = Ok true) /\
  (ValidationUtils.validate_nationality_code country_code = Ok true ->
   exists a b,
     country_code = PyStr [a; b] /\
     PyChars.is_alpha a = true /\ PyChars.is_alpha b = true /\
     PyChars.is_lower a = false /\ PyChars.is_lower b = false /\
     (PyChars.is_upper a = true \/ PyChars.is_upper b = true)) /\
  (ValidationUtils.validate_nationality_code country_code = Raise TypeError
   <-> exists z, country_code = PyInt z /\ z <> 0%Z) /\
  (ValidationUtils.validate_nationality_code country_code = Ok true ->
   Utils.validate_country_code country_code = Ok true) /\
  Forall (fun c =>
            ValidationUtils.validate_nationality_code (PyStr c) = Ok true)
         (Config.HIGH_RISK_COUNTRIES Config.config
          ++ Config.MEDIUM_RISK_COUNTRIES Config.config).
Proof.
  assert (Hstr : forall s,
             ValidationUtils.validate_nationality_code (PyStr s) = Ok true ->
             exists a b, s = [a; b] /\
                         PyChars.isalpha [a; b] = true /\
                         PyChars.isupper [a; b] = true).
  { intros s. unfold ValidationUtils.validate_nationality_code.
    destruct s as [|c s]; [discriminate|]. cbn [truthy negb].
    destruct (length (c :: s) =? 2) eqn:E; [|discriminate].
    destruct (ValidationFacts.two_chars _ E) as (a & b & ->).
    cbn [negb]. intros H. injection H as H. apply andb_prop in H.
    now exists a, b. }
  split; [|split; [|split; [|split]]].
  - intros a b Ha Hb.
    unfold ValidationUtils.validate_nationality_code.
    cbn [truthy negb length Nat.eqb].
    unfold PyChars.isalpha, PyChars.isupper.
    cbn [PyChars.is_nonempty forallb existsb andb orb].
    unfold PyChars.is_alpha, PyChars.is_upper, PyChars.is_lower.
    rewrite Ha, Hb. cbn [orb andb].
    assert (L : forall n, between 65 90 n = true ->
                          between 97 122 n = false /\ (n =? 170) = false /\
                          (n =? 181) = false /\ (n =? 186) = false /\
                          between 223 246 n = false /\
                          between 248 255 n = false).
    { intros n H. unfold between in *. apply andb_prop in H.
      destruct H as (H1 & H2). apply Nat.leb_le in H1, H2.
      repeat split;
        first [apply Nat.eqb_neq; lia
              |apply andb_false_iff; rewrite !Nat.leb_gt; lia]. }
    destruct (L _ Ha) as (A1 & A2 & A3 & A4 & A5 & A6).
    destruct (L _ Hb) as (B1 & B2 & B3 & B4 & B5 & B6).
    rewrite A1, A2, A3, A4, A5, A6, B1, B2, B3, B4, B5, B6.
    reflexivity.
  - destruct country_code as [|s|z]; try discriminate.
    + intros H. destruct (Hstr s H) as (a & b & -> & Ha & Hu).
      exists a, b. split; [reflexivity|].
      unfold PyChars.isalpha, PyChars.isupper in Ha, Hu.
      cbn [PyChars.is_nonempty forallb existsb andb orb] in Ha, Hu.
      rewrite andb_true_r in Ha. rewrite !orb_false_r in Hu.
      apply andb_prop in Ha. destruct Ha as (Ha & Hb).
      apply andb_prop in Hu. destruct Hu as (Hu & Hl).
      apply negb_true_iff, orb_false_elim in Hl. destruct Hl as (La & Lb).
      apply orb_prop in Hu. auto 10.
    + unfold ValidationUtils.validate_nationality_code. cbn [truthy].
      destruct (z =? 0)%Z; discriminate.
  - split.
    + destruct country_code as [|s|z]; try discriminate.
      * unfold ValidationUtils.validate_nationality_code.
        destruct s as [|c s]; [discriminate|]. cbn [truthy negb].
        destruct (negb (length (c :: s) =? 2)); discriminate.
      * unfold ValidationUtils.validate_nationality_code. cbn [truthy].
        destruct (Z.eqb_spec z 0) as [->|Hz]; [discriminate|].
        intros _. now exists z.
    + intros (z & -> & Hz).
      unfold ValidationUtils.validate_nationality_code. cbn [truthy].
      destruct (Z.eqb_spec z 0) as [->|_]; [congruence|reflexivity].
  - destruct country_code as [|s|z]; try discriminate.
    + intros H. destruct (Hstr s H) as (a & b & -> & Ha & Hu).
      unfold Utils.validate_country_code.
      cbn [truthy negb length Nat.eqb]. now rewrite Ha.
    + unfold ValidationUtils.validate_nationality_code. cbn [truthy].
      destruct (z =? 0)%Z; discriminate.
  - apply Forall_forall. intros c Hc.
    assert (Hb : forallb
                   (fun c =>
                      match ValidationUtils.validate_nationality_code
                              (PyStr c) with
                      | Ok true => true
                      | _ => false
                      end)
                   (Config.HIGH_RISK_COUNTRIES Config.config
                    ++ Config.MEDIUM_RISK_COUNTRIES Config.config) = true)
      by (vm_compute; reflexivity).
    rewrite forallb_forall in Hb. specialize (Hb c Hc).
    destruct (ValidationUtils.validate_nationality_code (PyStr c))
      as [[|]|]; congruence.
Qed.

Lemma validate_nationality_code_two_letters_witness :
  ValidationUtils.validate_nationality_code (PyStr (lit "EG")) = Ok true
  /\ Utils.validate_country_code (PyStr (lit "EG")) = Ok true.
Proof.
  destruct (validate_nationality_code_two_letters (PyStr (lit "EG")))
    as (H & _ & _ & Hc & _).
  assert (Hv : ValidationUtils.validate_nationality_code (PyStr (lit "EG"))
               = Ok true).
  { apply (H "E"%char "G"%char); reflexivity. }
  split; [exact Hv|exact (Hc Hv)].
Defined.

(** X22.  [validate_phone_number] judges the digits and plus signs of the
    text and nothing else: a non-empty text is accepted exactly when
    what is left after all other characters are removed starts with a
    plus sign and has 10 to 15 characters, or starts with 01 and has 11;
    two non-empty texts with the same digits and plus signs get the
    same answer. *)
Theorem validate_phone_number_digits (phone : str) :
  phone <> [] ->
  let digits := ValidationUtils.phone_clean phone in
  ((exists message,
       ValidationUtils.validate_phone_number (PyStr phone)
       = Ok (true, message))
   <-> (startswith (lit "+") digits = true /\ 10 <= length digits <= 15)
       \/ (startswith (lit "01") digits = true /\ length digits = 11)) /\
  (exists answer,
      ValidationUtils.validate_phone_number (PyStr phone) = Ok answer) /\
  (forall phone',
      phone' <> [] ->
      ValidationUtils.phone_clean phone' = digits ->
      ValidationUtils.validate_phone_number (PyStr phone')
      = ValidationUtils.validate_phone_number (PyStr phone)) /\
  ValidationUtils.phone_clean digits = digits.
Proof.
  intros Hne digits.
  assert (Hunfold : forall p, p <> [] ->
             ValidationUtils.validate_phone_number (PyStr p)
             = let d := ValidationUtils.phone_clean p in
               let international :=
                 if startswith (lit "+") d
                    && (10 <=? length d) && (length d <=? 15)
                 then (true, lit "Valid international phone number")
                 else (false, lit "Invalid phone number format") in
               if startswith (lit "+20") d then
                 if length d =? 13
                 then Ok (true, lit "Valid Egyptian phone number")
                 else Ok international
               else if startswith (lit "01") d then
                 if length d =? 11
                 then Ok (true, lit "Valid Egyptian phone number")
                 else Ok international
               else Ok international).
  { intros [|c p] Hp; [congruence|]. reflexivity. }
  repeat split.
  - rewrite (Hunfold phone Hne). cbv zeta. fold digits.
    intros (message & H). revert H.
    destruct (startswith (lit "+20") digits) eqn:E20.
    + apply ValidationFacts.startswith_plus in E20. rewrite E20.
      destruct (Nat.eqb_spec (length digits) 13) as [E|E].
      * intros _. left. split; [reflexivity|lia].
      * destruct (Nat.leb_spec 10 (length digits)),
                 (Nat.leb_spec (length digits) 15);
          cbn [andb]; intros Hx; try discriminate.
        left. split; [reflexivity|lia].
    + destruct (startswith (lit "01") digits) eqn:E01.
      * rewrite (ValidationFacts.startswith_zero _ E01). cbn [andb].
        destruct (Nat.eqb_spec (length digits) 11) as [E|E];
          [|discriminate].
        intros _. right. split; [reflexivity|exact E].
      * destruct (startswith (lit "+") digits) eqn:Ep;
          cbn [andb]; [|discriminate].
        destruct (Nat.leb_spec 10 (length digits)),
                 (Nat.leb_spec (length digits) 15);
          cbn [andb]; intros Hx; try discriminate.
        left. split; [reflexivity|lia].
  - rewrite (Hunfold phone Hne). cbv zeta. fold digits.
    intros [(Ep & Hlen)|(E01 & Hlen)].
    + rewrite Ep.
      assert (L1 : (10 <=? length digits) = true) by (apply Nat.leb_le; lia).
      assert (L2 : (length digits <=? 15) = true) by (apply Nat.leb_le; lia).
      rewrite L1, L2. cbn [andb].
      destruct (startswith (lit "+20") digits).
      * destruct (length digits =? 13); eexists; reflexivity.
      * destruct (startswith (lit "01") digits);
          [destruct (length digits =? 11)|]; eexists; reflexivity.
    + assert (E20 : startswith (lit "+20") digits = false).
      { destruct (startswith (lit "+20") digits) eqn:E; [|reflexivity].
        apply ValidationFacts.startswith_plus in E.
        now rewrite (ValidationFacts.startswith_zero _ E01) in E. }
      rewrite E20, E01, Hlen. eexists; reflexivity.
  - rewrite (Hunfold phone Hne). cbv zeta.
    repeat match goal with
           | |- context [if ?b then _ else _] => destruct b
           end; eexists; reflexivity.
  - intros phone' Hne' E.
    rewrite (Hunfold phone Hne), (Hunfold phone' Hne'). cbv zeta.
    fold digits. rewrite E. reflexivity.
  - apply ValidationFacts.filter_idem.
Qed.

Lemma validate_phone_number_digits_witness :
  ValidationUtils.validate_phone_number (PyStr (lit "(010) 3402-4403"))
  = ValidationUtils.validate_phone_number (PyStr (lit "01034024403")).
Proof.
  assert (Hne : lit "01034024403" <> []) by discriminate.
  destruct (validate_phone_number_digits (lit "01034024403") Hne)
    as (_ & _ & H & _).
  apply H; [discriminate|reflexivity].
Defined.

Module IdFacts.

Import PyChars ValidationUtils.

Lemma newline_space (c : ascii) : code c = 10 -> is_space c = true.
Proof. unfold is_space. intros ->. reflexivity. Qed.

Lemma lstrip_stops (text : str) :
  match lstrip text with
  | c :: _ => is_space c = false
  | [] => True
  end.
Proof.
  induction text as [|c text IH]; [exact I|]. cbn [lstrip].
  destruct (is_space c) eqn:E; [exact IH|exact E].
Qed.

Lemma before_dollar_strip (text : str) :
  before_dollar (strip text) = [strip text].
Proof.
  unfold before_dollar, strip, rstrip. rewrite rev_involutive.
  pose proof (lstrip_stops (rev (lstrip text))) as H.
  destruct (lstrip (rev (lstrip text))) as [|c r]; [reflexivity|].
  destruct (Nat.eqb_spec (code c) 10) as [E|E]; [|reflexivity].
  apply newline_space in E. congruence.
Qed.

Lemma lstrip_spaces (pre text : str) :
  Forall (fun c => is_space c = true) pre ->
  lstrip (pre ++ text) = lstrip text.
Proof.
  induction 1 as [|c pre Hc _ IH]; [reflexivity|].
  cbn [app lstrip]. now rewrite Hc.
Qed.

Lemma lstrip_app (text post : str) :
  lstrip text <> [] -> lstrip (text ++ post) = lstrip text ++ post.
Proof.
  induction text as [|c text IH]; [intros H; now contradiction H|].
  cbn [app lstrip]. destruct (is_space c); [exact IH|reflexivity].
Qed.

Lemma lstrip_all_spaces (text : str) :
  lstrip text = [] -> Forall (fun c => is_space c = true) text.
Proof.
  induction text as [|c text IH]; [constructor|].
  cbn [lstrip]. destruct (is_space c) eqn:E; [|discriminate].
  intros H. constructor; [exact E|exact (IH H)].
Qed.

Lemma lstrip_only_spaces (text : str) :
  Forall (fun c => is_space c = true) text -> lstrip text = [].
Proof.
  intros H. rewrite <- (app_nil_r text). now rewrite lstrip_spaces.
Qed.

Lemma strip_margins (pre text post : str) :
  Forall (fun c => is_space c = true) pre ->
  Forall (fun c => is_space c = true) post ->
  strip (pre ++ text ++ post) = strip text.
Proof.
  intros Hpre Hpost. unfold strip, rstrip.
  rewrite (lstrip_spaces pre _ Hpre). f_equal.
  destruct (lstrip text) as [|c t] eqn:E.
  - apply lstrip_all_spaces in E.
    assert (H : Forall (fun c => is_space c = true) (text ++ post))
      by (apply Forall_app; now split).
    now rewrite (lstrip_only_spaces _ H).
  - rewrite lstrip_app by (rewrite E; discriminate).
    rewrite E, rev_app_distr. apply lstrip_spaces.
    now apply Forall_rev.
Qed.

Lemma upper_char_lower (c : ascii) :
  code c < 128 -> upper_char (lower_char c) = upper_char c.
Proof.
  destruct c as [[] [] [] [] [] [] [] []]; intros H; try reflexivity;
    vm_compute in H; lia.
Qed.

Lemma upper_lower (s : str) :
  Forall (fun c => code c < 128) s -> upper (lower s) = upper s.
Proof.
  unfold upper, lower. induction 1 as [|c s Hc _ IH]; [reflexivity|].
  cbn [map flat_map]. now rewrite (upper_char_lower c Hc), IH.
Qed.

Lemma upper_is_lower (s : str) (literal : String.string) :
  Forall (fun c => code c < 128) s ->
  upper_is (lower s) literal = upper_is s literal.
Proof. intros H. unfold upper_is. now rewrite (upper_lower s H). Qed.

End IdFacts.

Lemma national_id_validation_facts (id_number id_type : str) :
  id_number <> [] ->
  PyChars.upper_is id_type "NATIONAL_ID" = true ->
  let result :=
    ValidationUtils.validate_id_number (PyStr id_number) (PyStr id_type) in
  ((exists message, result = Returns (true, message)) <->
   exists c y1 y2 m1 m2 d1 d2 serial century year month day,
     strip id_number = c :: y1 :: y2 :: m1 :: m2 :: d1 :: d2 :: serial /\
     length serial = 7 /\
     PyChars.isdigit (strip id_number) = true /\
     PyChars.int [c] = Some century /\
     (century = 2 \/ century = 3)%Z /\
     PyChars.int [y1; y2] = Some year /\
     PyChars.int [m1; m2] = Some month /\
     PyChars.int [d1; d2] = Some day /\
     Utils.datetime_ok
       (year + (if (century =? 2)%Z then 1900 else 2000))%Z month day
     = true) /\
  (result = Raises ValueError <->
   exists c y1 y2 m1 m2 d1 d2 serial,
     strip id_number = c :: y1 :: y2 :: m1 :: m2 :: d1 :: d2 :: serial /\
     length serial = 7 /\
     PyChars.isdigit (strip id_number) = true /\
     (PyChars.int [c] = None \/
      ((PyChars.int [c] = Some 2%Z \/ PyChars.int [c] = Some 3%Z) /\
       (PyChars.int [y1; y2] = None \/ PyChars.int [m1; m2] = None \/
        PyChars.int [d1; d2] = None)))) /\
  (forall e, result = Raises e -> e = ValueError).
Proof.
  intros Hne Hty result.
  assert (Hunfold :
            result
            = let s := strip id_number in
              if negb (length s =? 14) || negb (PyChars.isdigit s)
              then Returns (false, lit "Egyptian National ID must be 14 digits")
              else
                let* century_code :=
                  ValidationUtils.py_int (slice s 0 1) in
                if negb ((century_code =? 2) || (century_code =? 3))%Z
                then Returns
                       (false,
                        lit "Invalid century code in Egyptian National ID")
                else
                  let* year := ValidationUtils.py_int (slice s 1 2) in
                  let* month := ValidationUtils.py_int (slice s 3 2) in
                  let* day := ValidationUtils.py_int (slice s 5 2) in
                  let year :=
                    if (century_code =? 2)%Z then (year + 1900)%Z
                    else (year + 2000)%Z in
                  if Utils.datetime_ok year month day
                  then Returns (true, lit "Valid Egyptian National ID")
                  else Returns
                         (false,
                          lit "Invalid birth date in Egyptian National ID")).
  { subst result. unfold ValidationUtils.validate_id_number.
    destruct id_number as [|c0 t0]; [congruence|].
    rewrite Hty. reflexivity. }
  rewrite Hunfold. clear Hunfold result. cbv zeta.
  destruct (Nat.eqb_spec (length (strip id_number)) 14) as [Hlen|Hlen].
  2:{ cbn [negb orb]. split; [split|split; [split|]].
      - intros (message & H). discriminate.
      - intros (c & y1 & y2 & m1 & m2 & d1 & d2 & serial & ce & ye & mo & da
                & E & Hs & _).
        rewrite E in Hlen. cbn [length] in Hlen. lia.
      - discriminate.
      - intros (c & y1 & y2 & m1 & m2 & d1 & d2 & serial & E & Hs & _).
        rewrite E in Hlen. cbn [length] in Hlen. lia.
      - discriminate. }
  destruct (PyChars.isdigit (strip id_number)) eqn:Hdig.
  2:{ cbn [negb orb]. split; [split|split; [split|]].
      - intros (message & H). discriminate.
      - intros (c & y1 & y2 & m1 & m2 & d1 & d2 & serial & ce & ye & mo & da
                & _ & _ & H & _). discriminate.
      - discriminate.
      - intros (c & y1 & y2 & m1 & m2 & d1 & d2 & serial & _ & _ & H & _).
        discriminate.
      - discriminate. }
  cbn [negb orb].
  destruct (strip id_number)
    as [|c [|y1 [|y2 [|m1 [|m2 [|d1 [|d2 serial]]]]]]] eqn:Es;
    try discriminate.
  assert (Hserial : length serial = 7) by (cbn [length] in Hlen; lia).
  unfold slice. cbn [skipn firstn].
  unfold ValidationUtils.py_int.
  assert (Hshape :
            forall c' y1' y2' m1' m2' d1' d2' serial',
              c :: y1 :: y2 :: m1 :: m2 :: d1 :: d2 :: serial
              = c' :: y1' :: y2' :: m1' :: m2' :: d1' :: d2' :: serial' ->
              c' = c /\ y1' = y1 /\ y2' = y2 /\ m1' = m1 /\ m2' = m2 /\
              d1' = d1 /\ d2' = d2).
  { intros ? ? ? ? ? ? ? ? E. injection E as <- <- <- <- <- <- <- <-.
    repeat split. }
  destruct (PyChars.int [c]) as [century|] eqn:Ec; cbn [obind].
  2:{ split; [split|split; [split|]].
      - intros (message & H). discriminate.
      - intros (c' & y1' & y2' & m1' & m2' & d1' & d2' & serial' & ce & ye
                & mo & da & E & _ & _ & H & _).
        destruct (Hshape _ _ _ _ _ _ _ _ E) as (-> & _). congruence.
      - intros _. exists c, y1, y2, m1, m2, d1, d2, serial. auto.
      - reflexivity.
      - intros e H. now injection H as <-. }
  destruct ((century =? 2) || (century =? 3))%Z eqn:Hcent; cbn [negb].
  2:{ apply orb_false_elim in Hcent. destruct Hcent as (N2 & N3).
      apply Z.eqb_neq in N2, N3.
      split; [split|split; [split|]].
      - intros (message & H). discriminate.
      - intros (c' & y1' & y2' & m1' & m2' & d1' & d2' & serial' & ce & ye
                & mo & da & E & _ & _ & H & Hc & _).
        destruct (Hshape _ _ _ _ _ _ _ _ E) as (-> & _).
        rewrite Ec in H. injection H as <-. lia.
      - discriminate.
      - intros (c' & y1' & y2' & m1' & m2' & d1' & d2' & serial' & E & _ & _
                & [H|([H|H] & _)]);
          destruct (Hshape _ _ _ _ _ _ _ _ E) as (-> & _);
          rewrite Ec in H; try discriminate; injection H as H; lia.
      - discriminate. }
  assert (Hcc : (century = 2 \/ century = 3)%Z).
  { apply orb_prop in Hcent.
    destruct Hcent as [H|H]; apply Z.eqb_eq in H; auto. }
  assert (Hc23 : PyChars.int [c] = Some 2%Z \/ PyChars.int [c] = Some 3%Z).
  { destruct Hcc as [-> | ->]; auto. }
  destruct (PyChars.int [y1; y2]) as [year|] eqn:Ey; cbn [obind].
  2:{ split; [split|split; [split|]].
      - intros (message & H). discriminate.
      - intros (c' & y1' & y2' & m1' & m2' & d1' & d2' & serial' & ce & ye
                & mo & da & E & _ & _ & _ & _ & H & _).
        destruct (Hshape _ _ _ _ _ _ _ _ E)
          as (-> & -> & -> & -> & -> & -> & ->). congruence.
      - intros _. exists c, y1, y2, m1, m2, d1, d2, serial. auto 10.
      - reflexivity.
      - intros e H. now injection H as <-. }
  destruct (PyChars.int [m1; m2]) as [month|] eqn:Em; cbn [obind].
  2:{ split; [split|split; [split|]].
      - intros (message & H). discriminate.
      - intros (c' & y1' & y2' & m1' & m2' & d1' & d2' & serial' & ce & ye
                & mo & da & E & _ & _ & _ & _ & _ & H & _).
        destruct (Hshape _ _ _ _ _ _ _ _ E)
          as (-> & -> & -> & -> & -> & -> & ->). congruence.
      - intros _. exists c, y1, y2, m1, m2, d1, d2, serial. auto 10.
      - reflexivity.
      - intros e H. now injection H as <-. }
  destruct (PyChars.int [d1; d2]) as [day|] eqn:Ed; cbn [obind].
  2:{ split; [split|split; [split|]].
      - intros (message & H). discriminate.
      - intros (c' & y1' & y2' & m1' & m2' & d1' & d2' & serial' & ce & ye
                & mo & da & E & _ & _ & _ & _ & _ & _ & H & _).
        destruct (Hshape _ _ _ _ _ _ _ _ E)
          as (-> & -> & -> & -> & -> & -> & ->). congruence.
      - intros _. exists c, y1, y2, m1, m2, d1, d2, serial. auto 10.
      - reflexivity.
      - intros e H. now injection H as <-. }
  assert (Hyear :
            (if (century =? 2)%Z then (year + 1900)%Z else (year + 2000)%Z)
            = (year + (if (century =? 2)%Z then 1900 else 2000))%Z).
  { destruct (century =? 2)%Z; reflexivity. }
  rewrite Hyear.
  split; [split|split; [split|]].
  - intros (message & H).
    exists c, y1, y2, m1, m2, d1, d2, serial, century, year, month, day.
    repeat split; try assumption; try reflexivity.
    destruct (Utils.datetime_ok _ _ _); [reflexivity|discriminate].
  - intros (c' & y1' & y2' & m1' & m2' & d1' & d2' & serial' & ce & ye
            & mo & da & E & _ & _ & H1 & _ & H2 & H3 & H4 & Hdate).
    destruct (Hshape _ _ _ _ _ _ _ _ E)
      as (-> & -> & -> & -> & -> & -> & ->).
    rewrite Ec in H1. rewrite Ey in H2. rewrite Em in H3. rewrite Ed in H4.
    injection H1 as <-. injection H2 as <-. injection H3 as <-.
    injection H4 as <-.
    rewrite Hdate. eexists; reflexivity.
  - destruct (Utils.datetime_ok _ _ _); discriminate.
  - intros (c' & y1' & y2' & m1' & m2' & d1' & d2' & serial' & E & _ & _
            & [H|(_ & [H|[H|H]])]);
      destruct (Hshape _ _ _ _ _ _ _ _ E)
        as (-> & -> & -> & -> & -> & -> & ->); congruence.
  - intros e. destruct (Utils.datetime_ok _ _ _); discriminate.
Qed.

(** X23.  An Egyptian national ID is accepted exactly when, white space
    at both ends apart, it has 14 digit characters ([str.isdigit]) of
    which [int] reads the first as 2 or 3 and the next three pairs as
    numbers that give a date of the calendar (in the year 1900 plus
    the first pair after 2, 2000 plus it after 3); nothing more is
    asked of the last seven.  The check raises [ValueError] exactly
    when the 14 characters are digit characters and [int] cannot read
    the first one, or reads it as 2 or 3 and cannot read one of the
    three pairs - a superscript digit is a digit character that [int]
    cannot read; it raises nothing else. *)
Theorem national_id_validation (id_number id_type : str) :
  id_number <> [] ->
  PyChars.upper_is id_type "NATIONAL_ID" = true ->
  let result :=
    ValidationUtils.validate_id_number (PyStr id_number) (PyStr id_type) in
  ((exists message, result = Returns (true, message)) <->
   exists c y1 y2 m1 m2 d1 d2 serial century year month day,
     strip id_number = c :: y1 :: y2 :: m1 :: m2 :: d1 :: d2 :: serial /\
     length serial = 7 /\
     PyChars.isdigit (strip id_number) = true /\
     PyChars.int [c] = Some century /\
     (century = 2 \/ century = 3)%Z /\
     PyChars.int [y1; y2] = Some year /\
     PyChars.int [m1; m2] = Some month /\
     PyChars.int [d1; d2] = Some day /\
     Utils.datetime_ok
       (year + (if (century =? 2)%Z then 1900 else 2000))%Z month day
     = true) /\
  (result = Raises ValueError <->
   exists c y1 y2 m1 m2 d1 d2 serial,
     strip id_number = c :: y1 :: y2 :: m1 :: m2 :: d1 :: d2 :: serial /\
     length serial = 7 /\
     PyChars.isdigit (strip id_number) = true /\
     (PyChars.int [c] = None \/
      ((PyChars.int [c] = Some 2%Z \/ PyChars.int [c] = Some 3%Z) /\
       (PyChars.int [y1; y2] = None \/ PyChars.int [m1; m2] = None \/
        PyChars.int [d1; d2] = None)))) /\
  (forall e, result = Raises e -> e = ValueError).
Proof. exact (national_id_validation_facts id_number id_type). Qed.

Lemma national_id_validation_witness :
  (exists message,
      ValidationUtils.validate_id_number
        (PyStr (lit " 29001011234567")) (PyStr (lit "national_id"))
      = Returns (true, message)) /\
  ValidationUtils.validate_id_number
    (PyStr (lit "2900101123456" ++ [ascii_of_nat 178]))
    (PyStr (lit "NATIONAL_ID"))
  = Returns (true, lit "Valid Egyptian National ID") /\
  ValidationUtils.validate_id_number
    (PyStr (lit "29" ++ [ascii_of_nat 178] ++ lit "01011234567"))
    (PyStr (lit "NATIONAL_ID"))
  = Raises ValueError.
Proof.
  assert (Hne : lit " 29001011234567" <> []) by discriminate.
  assert (Hty : PyChars.upper_is (lit "national_id") "NATIONAL_ID" = true)
    by reflexivity.
  split; [|split; [reflexivity|]].
  - destruct (national_id_validation
                (lit " 29001011234567") (lit "national_id") Hne Hty)
      as (H & _).
    apply H.
    exists "2"%char, "9"%char, "0"%char, "0"%char, "1"%char, "0"%char,
           "1"%char, (lit "1234567"), 2%Z, 90%Z, 1%Z, 1%Z.
    repeat split; try reflexivity. now left.
  - assert (Hne' : lit "29" ++ [ascii_of_nat 178] ++ lit "01011234567" <> [])
      by discriminate.
    assert (Hty' : PyChars.upper_is (lit "NATIONAL_ID") "NATIONAL_ID" = true)
      by reflexivity.
    destruct (national_id_validation
                (lit "29" ++ [ascii_of_nat 178] ++ lit "01011234567")
                (lit "NATIONAL_ID") Hne' Hty')
      as (_ & H & _).
    apply H.
    exists "2"%char, "9"%char, (ascii_of_nat 178), "0"%char, "1"%char,
           "0"%char, "1"%char, (lit "1234567").
    repeat split; try reflexivity. right. split; [now left|now left].
Defined.

Lemma validate_id_number_other (id_number id_type : str) :
  id_number <> [] ->
  PyChars.upper_is id_type "NATIONAL_ID" = false ->
  ValidationUtils.validate_id_number (PyStr id_number) (PyStr id_type)
  = let s := strip id_number in
    if PyChars.upper_is id_type "PASSPORT" then
      if length s <? 6
      then Returns
             (false, lit "Passport number must be at least 6 characters")
      else if negb (ValidationUtils.passport_pattern s)
      then Returns (false, lit "Invalid passport number format")
      else Returns (true, lit "Valid passport number")
    else
      if length s <? 4
      then Returns (false, lit "ID number too short")
      else Returns (true, lit "Valid ID number").
Proof.
  intros Hne Hty. unfold ValidationUtils.validate_id_number.
  destruct id_number as [|c0 t0]; [congruence|].
  rewrite Hty. unfold ValidationUtils.re_match_passport.
  rewrite IdFacts.before_dollar_strip. cbn [existsb].
  rewrite orb_false_r. reflexivity.
Qed.

Lemma validate_id_number_strings (id_number id_type : str) :
  ValidationUtils.validate_id_number (PyStr id_number) (PyStr id_type)
  <> Raises (Exn AttributeError).
Proof.
  destruct id_number as [|c0 t0]; [discriminate|].
  destruct (PyChars.upper_is id_type "NATIONAL_ID") eqn:Hty.
  - intros H.
    assert (Hne : c0 :: t0 <> []) by discriminate.
    destruct (national_id_validation_facts (c0 :: t0) id_type Hne Hty)
      as (_ & _ & He).
    specialize (He _ H). discriminate.
  - rewrite validate_id_number_other by (discriminate || exact Hty).
    cbv zeta.
    repeat match goal with
           | |- context [if ?b then _ else _] => destruct b
           end; discriminate.
Qed.

(** X24.  A passport number is accepted exactly when, white space at both
    ends apart, it has at least six characters, starts with a letter
    A-Z or a-z and continues with such letters and decimal digits
    only; an identifier of any other type that is not a national ID is
    accepted exactly when it has at least four characters, whatever
    they are.  Neither check raises. *)
Theorem passport_and_other_id_validation (id_number id_type : str) :
  id_number <> [] ->
  PyChars.upper_is id_type "NATIONAL_ID" = false ->
  let s := strip id_number in
  let result :=
    ValidationUtils.validate_id_number (PyStr id_number) (PyStr id_type) in
  (PyChars.upper_is id_type "PASSPORT" = true ->
   ((exists message, result = Returns (true, message)) <->
    6 <= length s /\
    exists c rest,
      s = c :: rest /\ PyChars.is_letter c = true /\
      forallb PyChars.is_alnum rest = true)) /\
  (PyChars.upper_is id_type "PASSPORT" = false ->
   ((exists message, result = Returns (true, message)) <->
    4 <= length s)) /\
  (exists answer, result = Returns answer).
Proof.
  intros Hne Hty s result. subst result.
  rewrite (validate_id_number_other id_number id_type Hne Hty).
  cbv zeta. fold s.
  split; [|split].
  - intros Hp. rewrite Hp.
    destruct (Nat.ltb_spec (length s) 6) as [Hl|Hl].
    + split.
      * intros (message & H). discriminate.
      * intros (H & _). lia.
    + destruct s as [|c rest] eqn:Es.
      { cbn [length] in Hl. lia. }
      cbn [ValidationUtils.passport_pattern].
      destruct (PyChars.is_letter c && forallb PyChars.is_alnum rest) eqn:E;
        cbn [negb].
      * apply andb_prop in E. destruct E as (E1 & E2). split.
        -- intros _. split; [exact Hl|]. now exists c, rest.
        -- intros _. eexists; reflexivity.
      * split.
        -- intros (message & H). discriminate.
        -- intros (_ & c' & rest' & E' & E1 & E2).
           injection E' as <- <-. rewrite E1, E2 in E. discriminate.
  - intros Hp. rewrite Hp.
    destruct (Nat.ltb_spec (length s) 4) as [Hl|Hl].
    + split.
      * intros (message & H). discriminate.
      * intros H. lia.
    + split.
      * intros _. exact Hl.
      * intros _. eexists; reflexivity.
  - repeat match goal with
           | |- context [if ?b then _ else _] => destruct b
           end; eexists; reflexivity.
Qed.

Lemma passport_and_other_id_validation_witness :
  (exists message,
      ValidationUtils.validate_id_number
        (PyStr (lit "A1234567")) (PyStr (lit "Passport"))
      = Returns (true, message)).
Proof.
  assert (Hne : lit "A1234567" <> []) by discriminate.
  assert (Hty : PyChars.upper_is (lit "Passport") "NATIONAL_ID" = false)
    by reflexivity.
  destruct (passport_and_other_id_validation
              (lit "A1234567") (lit "Passport") Hne Hty) as (H & _).
  apply H; [reflexivity|].
  split; [vm_compute; lia|].
  exists "A"%char, (lit "1234567"). repeat split; reflexivity.
Defined.

(** X25.  What [validate_id_number] makes of its arguments.  An identifier
    that is not a non-empty string is rejected as invalid whatever the
    type is.  For a non-empty string the call raises [AttributeError]
    exactly when the type is not a string.  White space around the
    identifier does not change the answer, and neither does the letter
    case of a type that is written in ASCII characters. *)
Theorem validate_id_number_arguments (id_number id_type : pyval) :
  ((forall c text, id_number <> PyStr (c :: text)) ->
   ValidationUtils.validate_id_number id_number id_type
   = Returns (false, lit "Invalid ID number")) /\
  (ValidationUtils.validate_id_number id_number id_type
   = Raises (Exn AttributeError)
   <-> (exists c text, id_number = PyStr (c :: text)) /\
       forall t, id_type <> PyStr t) /\
  (forall pre text post t,
      id_number = PyStr text -> text <> [] -> id_type = PyStr t ->
      Forall (fun c => is_space c = true) pre ->
      Forall (fun c => is_space c = true) post ->
      ValidationUtils.validate_id_number (PyStr (pre ++ text ++ post)) id_type
      = ValidationUtils.validate_id_number id_number id_type) /\
  (forall t,
      id_type = PyStr t ->
      Forall (fun c => code c < 128) t ->
      ValidationUtils.validate_id_number id_number (PyStr (lower t))
      = ValidationUtils.validate_id_number id_number id_type).
Proof.
  split; [|split; [|split]].
  - intros H. destruct id_number as [|[|c text]|z]; try reflexivity.
    now contradiction (H c text).
  - split.
    + intros H.
      destruct id_number as [|[|c text]|z]; try discriminate.
      split; [now exists c, text|].
      intros t ->. now apply validate_id_number_strings in H.
    + intros ((c & text & ->) & Hty).
      destruct id_type as [|t|z]; try reflexivity.
      now contradiction (Hty t).
  - intros pre text post t -> Hne -> Hpre Hpost.
    unfold ValidationUtils.validate_id_number.
    destruct text as [|c text]; [congruence|].
    destruct (pre ++ (c :: text) ++ post) as [|c' text'] eqn:E.
    { destruct pre; discriminate. }
    rewrite <- E. rewrite (IdFacts.strip_margins pre (c :: text) post Hpre Hpost).
    reflexivity.
  - intros t -> Hascii. unfold ValidationUtils.validate_id_number.
    destruct id_number as [|[|c text]|z]; try reflexivity.
    rewrite !(IdFacts.upper_is_lower t _ Hascii). reflexivity.
Qed.

Lemma validate_id_number_arguments_witness :
  ValidationUtils.validate_id_number PyNone PyNone
  = Returns (false, lit "Invalid ID number") /\
  ValidationUtils.validate_id_number (PyStr (lit "A1234567")) PyNone
  = Raises (Exn AttributeError) /\
  ValidationUtils.validate_id_number
    (PyStr (lit " " ++ lit "A1234567" ++ lit " ")) (PyStr (lit "PASSPORT"))
  = ValidationUtils.validate_id_number
      (PyStr (lit "A1234567")) (PyStr (lit "PASSPORT")) /\
  ValidationUtils.validate_id_number
    (PyStr (lit "A1234567")) (PyStr (lower (lit "Passport")))
  = ValidationUtils.validate_id_number
      (PyStr (lit "A1234567")) (PyStr (lit "Passport")).
Proof.
  split; [|split; [|split]].
  - destruct (validate_id_number_arguments PyNone PyNone) as (H & _).
    apply H. discriminate.
  - destruct (validate_id_number_arguments (PyStr (lit "A1234567")) PyNone)
      as (_ & H & _).
    apply H. split; [now exists "A"%char, (lit "1234567")|discriminate].
  - destruct (validate_id_number_arguments
                (PyStr (lit "A1234567")) (PyStr (lit "PASSPORT")))
      as (_ & _ & H & _).
    apply (H (lit " ") (lit "A1234567") (lit " ") (lit "PASSPORT"));
      try reflexivity; try discriminate;
      repeat constructor.
  - destruct (validate_id_number_arguments
                (PyStr (lit "A1234567")) (PyStr (lit "Passport")))
      as (_ & _ & _ & H).
    apply (H (lit "Passport") eq_refl).
    repeat (constructor; [vm_compute; lia|]). constructor.
Defined.

Module EmailFacts.

Import PyChars ValidationUtils Notions.

Lemma nonempty_true (s : str) : is_nonempty s = true <-> s <> [].
Proof. destruct s; cbn; split; congruence. Qed.

Lemma char_at_split (s : str) (i : nat) (c : ascii) :
  char_at s i c = true ->
  exists l1 l2, s = l1 ++ c :: l2 /\ length l1 = i.
Proof.
  unfold char_at. destruct (nth_error s i) as [x|] eqn:E; [|discriminate].
  intros H. apply Ascii.eqb_eq in H. subst x.
  now apply nth_error_split.
Qed.

Lemma char_at_app (l1 l2 : str) (c : ascii) :
  char_at (l1 ++ c :: l2) (length l1) c = true.
Proof.
  unfold char_at. rewrite nth_error_app2 by lia.
  rewrite Nat.sub_diag. cbn. apply Ascii.eqb_refl.
Qed.

Lemma email_pattern_parts (local domain tld : str) :
  well_formed_address local domain tld ->
  email_pattern (address local domain tld) = true.
Proof.
  intros (Hl & Hlc & Hd & Hdc & Ht & Htc).
  unfold email_pattern, address.
  apply existsb_exists. exists (length local). split.
  { apply in_seq. rewrite length_app. cbn [length]. lia. }
  apply existsb_exists. exists (length local + 1 + length domain). split.
  { apply in_seq. rewrite length_app. cbn [length].
    rewrite length_app. cbn [length]. lia. }
  rewrite firstn_length_app.
  assert (E1 : slice (local ++ "@"%char :: domain ++ "."%char :: tld)
                     (length local + 1)
                     (length local + 1 + length domain - (length local + 1))
               = domain).
  { replace (length local + 1 + length domain - (length local + 1))
      with (length domain) by lia.
    replace (local ++ "@"%char :: domain ++ "."%char :: tld)
      with ((local ++ ["@"%char]) ++ domain ++ "."%char :: tld)
      by (now rewrite <- app_assoc).
    replace (length local + 1) with (length (local ++ ["@"%char]))
      by (rewrite length_app; reflexivity).
    apply slice_window. }
  rewrite E1.
  assert (E2 : skipn (length local + 1 + length domain + 1)
                     (local ++ "@"%char :: domain ++ "."%char :: tld)
               = tld).
  { replace (local ++ "@"%char :: domain ++ "."%char :: tld)
      with ((local ++ "@"%char :: domain ++ ["."%char]) ++ tld).
    - replace (length local + 1 + length domain + 1)
        with (length (local ++ "@"%char :: domain ++ ["."%char])).
      + apply skipn_length_app.
      + rewrite length_app. cbn [length]. rewrite length_app. cbn [length].
        lia.
    - rewrite <- app_assoc. cbn [app]. rewrite <- app_assoc. reflexivity. }
  rewrite E2.
  rewrite char_at_app.
  assert (E3 : char_at (local ++ "@"%char :: domain ++ "."%char :: tld)
                       (length local + 1 + length domain) "."%char = true).
  { replace (local ++ "@"%char :: domain ++ "."%char :: tld)
      with ((local ++ "@"%char :: domain) ++ "."%char :: tld)
      by (rewrite <- app_assoc; reflexivity).
    replace (length local + 1 + length domain)
      with (length (local ++ "@"%char :: domain))
      by (rewrite length_app; cbn [length]; lia).
    apply char_at_app. }
  rewrite E3, Hlc, Hdc, Htc.
  apply nonempty_true in Hl. apply nonempty_true in Hd. rewrite Hl, Hd.
  assert (L1 : (length local <? length local + 1 + length domain) = true)
    by (apply Nat.ltb_lt; lia).
  assert (L2 : (2 <=? length tld) = true) by (apply Nat.leb_le; lia).
  rewrite L1, L2. reflexivity.
Qed.

Lemma parts_email_pattern (s : str) :
  email_pattern s = true ->
  exists local domain tld,
    s = address local domain tld /\ well_formed_address local domain tld.
Proof.
  unfold email_pattern. intros H.
  apply existsb_exists in H. destruct H as (i & _ & H).
  apply existsb_exists in H. destruct H as (j & _ & H).
  apply andb_prop in H. destruct H as [H C].
  apply andb_prop in H. destruct H as [H C0].
  apply andb_prop in H. destruct H as [H C2].
  apply andb_prop in H. destruct H as [H C3].
  apply andb_prop in H. destruct H as [H C4].
  apply andb_prop in H. destruct H as [H C5].
  apply andb_prop in H. destruct H as [H C6].
  apply andb_prop in H. destruct H as [H C7].
  apply Nat.ltb_lt in H.
  destruct (char_at_split _ _ _ C7) as (l1 & l2 & Es & Hi).
  assert (Hj : char_at l2 (j - (i + 1)) "."%char = true).
  { revert C6. unfold char_at. rewrite Es.
    rewrite nth_error_app2 by lia.
    replace (j - length l1) with (S (j - (i + 1))) by lia.
    cbn [nth_error]. trivial. }
  destruct (char_at_split _ _ _ Hj) as (d & t & El2 & Hd).
  exists l1, d, t.
  assert (Ep : s = address l1 d t).
  { unfold address. now rewrite Es, El2. }
  split; [exact Ep|].
  assert (F1 : firstn i s = l1).
  { rewrite Ep. unfold address. rewrite <- Hi. apply firstn_length_app. }
  assert (F2 : slice s (i + 1) (j - (i + 1)) = d).
  { rewrite Ep. unfold address. rewrite <- Hd.
    replace (l1 ++ "@"%char :: d ++ "."%char :: t)
      with ((l1 ++ ["@"%char]) ++ d ++ "."%char :: t)
      by (now rewrite <- app_assoc).
    replace (i + 1) with (length (l1 ++ ["@"%char]))
      by (rewrite length_app; cbn [length]; lia).
    apply slice_window. }
  assert (F3 : skipn (j + 1) s = t).
  { rewrite Ep. unfold address.
    replace (l1 ++ "@"%char :: d ++ "."%char :: t)
      with ((l1 ++ "@"%char :: d ++ ["."%char]) ++ t).
    - replace (j + 1)
        with (length (l1 ++ "@"%char :: d ++ ["."%char])).
      + apply skipn_length_app.
      + rewrite length_app. cbn [length]. rewrite length_app. cbn [length].
        lia.
    - rewrite <- app_assoc. cbn [app]. rewrite <- app_assoc. reflexivity. }
  rewrite F1 in C4, C5. rewrite F2 in C2, C3. rewrite F3 in C0, C.
  apply nonempty_true in C5. apply nonempty_true in C3.
  apply Nat.leb_le in C0.
  repeat split; assumption.
Qed.

Lemma before_dollar_cases (s : str) :
  before_dollar s = [s] \/
  exists s', s = s' ++ [newline] /\ before_dollar s = [s; s'].
Proof.
  unfold before_dollar.
  destruct (rev s) as [|c r] eqn:E; [now left|].
  destruct (Nat.eqb_spec (code c) 10) as [Hc|Hc]; [|now left].
  right. exists (rev r). split; [|reflexivity].
  apply (f_equal (@rev ascii)) in E. rewrite rev_involutive in E.
  rewrite E. cbn [rev]. do 2 f_equal.
  unfold newline, code in *. rewrite <- Hc. symmetry.
  apply ascii_nat_embedding.
Qed.

Lemma before_dollar_newline (s : str) :
  before_dollar (s ++ [newline]) = [s ++ [newline]; s].
Proof.
  unfold before_dollar. rewrite rev_app_distr. cbn [rev app].
  change (code (newline) =? 10) with true. cbv iota.
  now rewrite rev_involutive.
Qed.

Lemma last_letter (local domain tld : str) :
  well_formed_address local domain tld ->
  forall s', address local domain tld <> s' ++ [newline].
Proof.
  intros (_ & _ & _ & _ & Ht & Htc) s' E.
  destruct (exists_last (l := tld)) as (t & x & Et).
  { intros ->. cbn in Ht. lia. }
  unfold address in E. rewrite Et in E.
  replace (local ++ "@"%char :: domain ++ "."%char :: t ++ [x])
    with ((local ++ "@"%char :: domain ++ "."%char :: t) ++ [x]) in E.
  - apply app_inj_tail in E. destruct E as (_ & ->).
    rewrite Et, forallb_app in Htc. apply andb_prop in Htc.
    destruct Htc as (_ & Hx). discriminate.
  - rewrite <- app_assoc. cbn [app]. rewrite <- app_assoc. reflexivity.
Qed.

Lemma count_none (p : ascii -> bool) (c : ascii) (l : str) :
  p c = false -> forallb p l = true -> count_occ ascii_dec l c = 0.
Proof.
  intros Hc. induction l as [|x l IH]; [reflexivity|].
  cbn [forallb count_occ]. intros H. apply andb_prop in H.
  destruct H as (Hx & Hl).
  destruct (ascii_dec x c) as [->|_]; [congruence|exact (IH Hl)].
Qed.

Lemma no_space (p : ascii -> bool) (l : str) :
  (forall c, p c = true -> is_space c = false) ->
  forallb p l = true -> Forall (fun c => is_space c = false) l.
Proof.
  intros Hp H. rewrite forallb_forall in H. apply Forall_forall.
  intros c Hc. apply Hp, H, Hc.
Qed.

Lemma local_no_space (c : ascii) : is_local c = true -> is_space c = false.
Proof. destruct c as [[] [] [] [] [] [] [] []]; cbv; congruence. Qed.

Lemma domain_no_space (c : ascii) : is_domain c = true -> is_space c = false.
Proof. destruct c as [[] [] [] [] [] [] [] []]; cbv; congruence. Qed.

Lemma letter_no_space (c : ascii) : is_letter c = true -> is_space c = false.
Proof. destruct c as [[] [] [] [] [] [] [] []]; cbv; congruence. Qed.

Lemma validate_email_match (email : str) :
  (exists message,
      validate_email (PyStr email) = Ok (true, message))
  <-> re_match_email email = true.
Proof.
  unfold validate_email. destruct email as [|c email].
  - cbn. split; [intros (m & H); discriminate|discriminate].
  - cbn [truthy negb].
    destruct (re_match_email (c :: email)); split; try discriminate.
    + reflexivity.
    + intros _. eexists; reflexivity.
    + intros (m & H). discriminate.
Qed.

End EmailFacts.

(** X26.  [validate_email] accepts exactly the texts that consist of a local
    part, an at sign, a domain, a dot and a top-level part of two or
    more letters A-Z or a-z, where the local part is a non-empty string
    of such letters, decimal digits and the characters ._%+- and the
    domain one of letters, digits, dots and hyphens - followed by
    nothing or by one newline character, which the pattern lets pass.
    An accepted address has one at sign and no white space before
    that newline. *)
Theorem validate_email_shape (email : str) :
  ((exists message,
       ValidationUtils.validate_email (PyStr email) = Ok (true, message))
   <-> exists local domain tld tail,
       email = Notions.address local domain tld ++ tail /\
       (tail = [] \/ tail = [Notions.newline]) /\
       Notions.well_formed_address local domain tld) /\
  ((exists message,
       ValidationUtils.validate_email (PyStr email) = Ok (true, message))
   -> count_occ ascii_dec email "@"%char = 1 /\
      exists address tail,
        email = address ++ tail /\
        (tail = [] \/ tail = [Notions.newline]) /\
        Forall (fun c => is_space c = false) address).
Proof.
  assert (Hshape :
            (exists message,
                ValidationUtils.validate_email (PyStr email)
                = Ok (true, message))
            -> exists local domain tld tail,
              email = Notions.address local domain tld ++ tail /\
              (tail = [] \/ tail = [Notions.newline]) /\
              Notions.well_formed_address local domain tld).
  { intros H. apply EmailFacts.validate_email_match in H.
    unfold ValidationUtils.re_match_email in H.
    destruct (EmailFacts.before_dollar_cases email)
      as [E|(s' & Es & E)]; rewrite E in H; cbn [existsb] in H.
    - rewrite orb_false_r in H.
      destruct (EmailFacts.parts_email_pattern _ H)
        as (local & domain & tld & Ep & Hwf).
      exists local, domain, tld, []. rewrite app_nil_r. auto.
    - rewrite orb_false_r in H. apply orb_prop in H. destruct H as [H|H].
      + destruct (EmailFacts.parts_email_pattern _ H)
          as (local & domain & tld & Ep & Hwf).
        exfalso. apply (EmailFacts.last_letter _ _ _ Hwf s'). congruence.
      + destruct (EmailFacts.parts_email_pattern _ H)
          as (local & domain & tld & Ep & Hwf).
        exists local, domain, tld, [Notions.newline].
        rewrite <- Ep. auto. }
  split; [split; [exact Hshape|]|].
  - intros (local & domain & tld & tail & E & Htail & Hwf).
    apply EmailFacts.validate_email_match.
    unfold ValidationUtils.re_match_email.
    pose proof (EmailFacts.email_pattern_parts _ _ _ Hwf) as Hp.
    destruct Htail as [-> | ->].
    + rewrite app_nil_r in E. subst email.
      destruct (EmailFacts.before_dollar_cases
                  (Notions.address local domain tld))
        as [E|(s' & _ & E)]; rewrite E; cbn [existsb]; now rewrite Hp.
    + subst email. rewrite EmailFacts.before_dollar_newline.
      cbn [existsb]. rewrite Hp. now rewrite orb_true_r.
  - intros H.
    destruct (Hshape H)
      as (local & domain & tld & tail & E & Htail & Hwf).
    destruct Hwf as (Hl & Hlc & Hd & Hdc & Ht & Htc).
    split.
    + subst email. unfold Notions.address.
      rewrite !count_occ_app. cbn [count_occ].
      rewrite !count_occ_app. cbn [count_occ].
      rewrite (EmailFacts.count_none ValidationUtils.is_local "@"%char local)
        by (reflexivity || assumption).
      rewrite (EmailFacts.count_none ValidationUtils.is_domain "@"%char domain)
        by (reflexivity || assumption).
      rewrite (EmailFacts.count_none PyChars.is_letter "@"%char tld)
        by (reflexivity || assumption).
      destruct (ascii_dec "@"%char "@"%char) as [_|N]; [|congruence].
      destruct (ascii_dec "."%char "@"%char) as [N|_]; [discriminate|].
      destruct Htail as [-> | ->]; reflexivity.
    + exists (Notions.address local domain tld), tail.
      split; [exact E|split; [exact Htail|]].
      unfold Notions.address.
      apply Forall_app. split.
      * apply (EmailFacts.no_space _ _ EmailFacts.local_no_space Hlc).
      * constructor; [reflexivity|].
        apply Forall_app. split.
        -- apply (EmailFacts.no_space _ _ EmailFacts.domain_no_space Hdc).
        -- constructor; [reflexivity|].
           apply (EmailFacts.no_space _ _ EmailFacts.letter_no_space Htc).
Qed.

Lemma validate_email_shape_witness :
  (exists message,
      ValidationUtils.validate_email
        (PyStr (lit "muhammadalaa.rt@gmail.com" ++ [Notions.newline]))
      = Ok (true, message)).
Proof.
  destruct (validate_email_shape
              (lit "muhammadalaa.rt@gmail.com" ++ [Notions.newline]))
    as (H & _).
  apply H.
  exists (lit "muhammadalaa.rt"), (lit "gmail"), (lit "com"),
         [Notions.newline].
  split; [reflexivity|]. split; [now right|].
  repeat split; try discriminate; try reflexivity. cbn. lia.
Defined.

(* ================================================================== *)
(** * Further properties: validation of the customer record *)
(* ================================================================== *)

Module OnboardingFacts.

Import Config Onboarding.

Lemma valid_id_truthy (id_number id_type : pyval) (message : str) :
  ValidationUtils.validate_id_number id_number id_type
  = Returns (true, message) ->
  truthy id_number = true.
Proof.
  destruct id_number as [|[|c t]|z]; try discriminate. reflexivity.
Qed.

Lemma valid_nationality_truthy (country_code : pyval) :
  ValidationUtils.validate_nationality_code country_code = Ok true ->
  truthy country_code = true.
Proof.
  unfold ValidationUtils.validate_nationality_code.
  destruct (truthy country_code); [reflexivity|discriminate].
Qed.

Lemma length_zero (A : Type) (l : list A) : (length l =? 0) = true <-> l = [].
Proof. destruct l; cbn; split; congruence. Qed.

Section Tool.

Variable strptime_date : str -> option DateUtils.date.

(** The steps of [_validate_customer_data] when it returns. *)
Lemma _validate_customer_data_steps (customer : pydict) (v : validation) :
  _validate_customer_data strptime_date customer = Returns v ->
  exists id_valid id_message nationality_valid pep dob_warning,
    ValidationUtils.validate_id_number
      (dict_get customer "id_number" PyNone)
      (dict_get customer "id_type" (PyStr (lit "PASSPORT")))
    = Returns (id_valid, id_message) /\
    ValidationUtils.validate_nationality_code
      (dict_get customer "nationality_code" (PyStr []))
    = Ok nationality_valid /\
    StringUtils.contains_pep_indicator
      (dict_get customer "occupation" (PyStr [])) (PEP_INDICATORS config)
    = Ok pep /\
    length dob_warning <= 1 /\
    errors v
    = (map (fun field => lit "Missing required field: " ++ lit field)
           (filter (fun field =>
                      negb (truthy (dict_get customer field PyNone)))
                   required_fields)
       ++ (if id_valid then []
           else [lit "ID Validation: " ++ id_message]))
      ++ (if nationality_valid then []
          else [lit "Invalid nationality code (must be 2-letter ISO code)"])
    /\
    is_valid v = (length (errors v) =? 0) /\
    warnings v
    = (dob_warning
       ++ (if existsb (fun c =>
                         py_eqb (dict_get customer "nationality_code"
                                          (PyStr []))
                                (PyStr c))
                      (HIGH_RISK_COUNTRIES config)
           then [lit "Customer from high-risk country: "
                 ++ RiskCalculator.format
                      (dict_get customer "nationality_code" (PyStr []))]
           else []))
      ++ (if pep
          then [lit "Customer may be a Politically Exposed Person (PEP)"]
          else []).
Proof.
  unfold _validate_customer_data.
  set (high_risk := existsb _ (HIGH_RISK_COUNTRIES config)).
  clearbody high_risk.
  destruct (ValidationUtils.validate_id_number _ _)
    as [[id_valid id_message]|e] eqn:Eid; [|discriminate].
  cbn [obind].
  destruct (if truthy (dict_get customer "date_of_birth" PyNone)
            then
              let* valid :=
                lift (Utils.is_date_valid
                        strptime_date
                        (dict_get customer "date_of_birth" PyNone)) in
              Returns (negb valid)
            else Returns false) as [dob_invalid|e] eqn:Edob;
    [|discriminate].
  cbn [obind].
  destruct (ValidationUtils.validate_nationality_code _)
    as [nationality_valid|e] eqn:Enat; [|discriminate].
  cbn [lift obind].
  destruct (contains_pep_indicator _ _) as [pep|e] eqn:Epep; [|discriminate].
  cbn [lift obind].
  intros H. injection H as <-. cbn [errors is_valid warnings].
  exists id_valid, id_message, nationality_valid, pep,
         (if dob_invalid
          then [lit "Date of birth format is invalid (expected YYYY-MM-DD)"]
          else []).
  split; [reflexivity|]. split; [reflexivity|]. split; [reflexivity|].
  split; [destruct dob_invalid; cbn; lia|].
  split.
  { destruct id_valid, nationality_valid; cbn [negb];
      rewrite ?app_nil_r; reflexivity. }
  split; [reflexivity|].
  destruct high_risk, pep; rewrite ?app_nil_r; reflexivity.
Qed.

End Tool.

End OnboardingFacts.

(** X27.  When [_validate_customer_data] returns, the record is valid
    exactly when the list of errors is empty, which is exactly when the
    customer code and the name are present, the identifier passes
    [validate_id_number] for the type given (PASSPORT when there is
    none) and the nationality code passes
    [validate_nationality_code].  The date of birth and the occupation
    have no part in it: they only add to the warnings, of which there
    are at most three. *)
Theorem validation_verdict
        (strptime_date : str -> option DateUtils.date)
        (customer : pydict) (v : Onboarding.validation) :
  Onboarding._validate_customer_data strptime_date customer = Returns v ->
  (Onboarding.is_valid v = true <-> Onboarding.errors v = []) /\
  (Onboarding.is_valid v = true <->
   truthy (dict_get customer "customer_code" PyNone) = true /\
   truthy (dict_get customer "full_name_en" PyNone) = true /\
   (exists message,
       ValidationUtils.validate_id_number
         (dict_get customer "id_number" PyNone)
         (dict_get customer "id_type" (PyStr (lit "PASSPORT")))
       = Returns (true, message)) /\
   ValidationUtils.validate_nationality_code
     (dict_get customer "nationality_code" (PyStr [])) = Ok true) /\
  length (Onboarding.errors v) <= 6 /\
  length (Onboarding.warnings v) <= 3.
Proof.
  intros H.
  destruct (OnboardingFacts._validate_customer_data_steps
              strptime_date customer v H)
    as (id_valid & id_message & nationality_valid & pep & dob_warning
        & Eid & Enat & Epep & Hdob & Eerr & Evalid & Ewarn).
  split; [|split; [|split]].
  - rewrite Evalid. apply OnboardingFacts.length_zero.
  - rewrite Evalid, OnboardingFacts.length_zero, Eerr. split.
    + intros E. apply app_eq_nil in E. destruct E as (E & En).
      apply app_eq_nil in E. destruct E as (Em & Ei).
      destruct id_valid; [|discriminate].
      destruct nationality_valid; [|discriminate].
      unfold Onboarding.required_fields in Em.
      cbn [filter] in Em.
      destruct (truthy (dict_get customer "customer_code" PyNone));
        [|discriminate].
      destruct (truthy (dict_get customer "full_name_en" PyNone));
        [|discriminate].
      repeat split; try reflexivity; [now exists id_message|exact Enat].
    + intros (Hc & Hn & (message & Hi) & Hnat).
      rewrite Hi in Eid. injection Eid as <- <-.
      rewrite Hnat in Enat. injection Enat as <-.
      pose proof (OnboardingFacts.valid_id_truthy _ _ _ Hi) as Ti.
      pose proof (OnboardingFacts.valid_nationality_truthy _ Hnat) as Tn.
      assert (Tn' : truthy (dict_get customer "nationality_code" PyNone)
                    = true).
      { revert Tn. clear.
        induction customer as [|[k w] d IH]; [discriminate|].
        cbn [dict_get]. destruct (String.eqb k "nationality_code"); auto. }
      unfold Onboarding.required_fields. cbn [filter].
      rewrite Hc, Hn, Tn', Ti. reflexivity.
  - rewrite Eerr, !length_app, length_map.
    assert (L : length (filter
                          (fun field =>
                             negb (truthy (dict_get customer field PyNone)))
                          Onboarding.required_fields) <= 4)
      by apply (filter_length_le _ Onboarding.required_fields).
    destruct id_valid, nationality_valid; cbn [length]; lia.
  - rewrite Ewarn, !length_app.
    destruct (existsb _ _), pep; cbn [length]; lia.
Qed.

Lemma validation_verdict_witness :
  exists v,
    Onboarding._validate_customer_data
      Examples.strptime_date Examples.customer_blank_occupation = Returns v /\
    Onboarding.is_valid v = true /\ Onboarding.errors v = [].
Proof.
  eexists. split; [vm_compute; reflexivity|].
  split; [reflexivity|].
  eapply (validation_verdict
            Examples.strptime_date Examples.customer_blank_occupation).
  - vm_compute. reflexivity.
  - reflexivity.
Defined.

Lemma dict_get_default (d : pydict) (key : String.string)
      (default default' v : pyval) :
  dict_get d key default = v -> v <> default ->
  dict_get d key default' = v.
Proof.
  induction d as [|[k w] d IH]; cbn [dict_get].
  - intros <- H. now contradiction H.
  - destruct (String.eqb k key); [trivial|exact IH].
Qed.

Lemma occupation_not_text
      (strptime_date : str -> option DateUtils.date)
      (today : DateUtils.date)
      (search_sanctions : pyval -> list sanction) (customer : pydict) :
  (forall t, dict_get customer "occupation" (PyStr []) <> PyStr t) ->
  screen_new_customer strptime_date today search_sanctions customer
  = Raise AttributeError.
Proof.
  intros Hn.
  unfold screen_new_customer, RiskCalculator.calculate_customer_risk,
    RiskCalculator.pep_check.
  destruct (dict_get customer "occupation" (PyStr [])) as [|t|z];
    try reflexivity.
  now contradiction (Hn t).
Qed.

(** X28.  A screening run from the collected record on.  A record that fails
    validation is not screened: the run ends with its errors, of which
    there is at least one.  A record that passes validation is screened
    to the end when its occupation is a string, and the run is aborted
    by [AttributeError] when it is not - which after validation means
    that the occupation is [None] (the value stored for an occupation
    left blank) or 0. *)
Theorem screening_of_collected_customer
        (strptime_date : str -> option DateUtils.date)
        (today : DateUtils.date)
        (search_sanctions : pyval -> list sanction)
        (customer : pydict) (v : Onboarding.validation) :
  Onboarding._validate_customer_data strptime_date customer = Returns v ->
  let occupation := dict_get customer "occupation" (PyStr []) in
  let run :=
    Onboarding.screen_collected_customer
      strptime_date today search_sanctions customer in
  (Onboarding.is_valid v = false ->
   run = Returns (Onboarding.ValidationFailed (Onboarding.errors v)) /\
   Onboarding.errors v <> []) /\
  (Onboarding.is_valid v = true ->
   ((exists t, occupation = PyStr t) ->
    exists matches assessment result,
      screen_new_customer strptime_date today search_sanctions customer
      = Ok (matches, assessment, result) /\
      run = Returns
              (Onboarding.Screened
                 matches assessment result
                 (ReportGenerator.generate_screening_report
                    (risk_level assessment) matches))) /\
   ((forall t, occupation <> PyStr t) ->
    (occupation = PyNone \/ occupation = PyInt 0) /\
    run = Raises (Exn AttributeError))).
Proof.
  intros H occupation run.
  destruct (OnboardingFacts._validate_customer_data_steps
              strptime_date customer v H)
    as (id_valid & id_message & nationality_valid & pep & dob_warning
        & Eid & Enat & Epep & Hdob & Eerr & Evalid & Ewarn).
  unfold run, Onboarding.screen_collected_customer. rewrite H.
  cbn [obind]. split.
  - intros Hv. rewrite Hv. cbn [negb]. split; [reflexivity|].
    intros E. rewrite Evalid, E in Hv. discriminate.
  - intros Hv. rewrite Hv. cbn [negb]. split.
    + intros Ho.
      assert (Htext : RiskFacts.text_fields customer).
      { split; [exact Ho|].
        intros z Hz.
        rewrite Evalid in Hv.
        apply OnboardingFacts.length_zero in Hv. rewrite Eerr in Hv.
        apply app_eq_nil in Hv. destruct Hv as (Hv & _).
        apply app_eq_nil in Hv. destruct Hv as (_ & Hv).
        destruct id_valid; [|discriminate].
        destruct (dict_get customer "id_number" PyNone) as [|[|c t]|z']
          eqn:Ei; try discriminate.
        rewrite (dict_get_default customer "id_number" PyNone (PyStr [])
                   (PyStr (c :: t)) Ei) in Hz by discriminate.
        discriminate. }
      unfold screen_new_customer.
      destruct (RiskFacts.calculate_customer_risk_returns
                  strptime_date today Config.config customer
                  (_perform_sanctions_screening search_sanctions customer)
                  Htext) as (assessment & Hr).
      rewrite Hr. cbn [bind lift obind].
      eexists _, assessment, _. split; reflexivity.
    + intros Hn. split.
      * revert Epep Hn. fold occupation.
        unfold contains_pep_indicator.
        destruct occupation as [|t|z]; [now left| |].
        -- intros _ Hn. now contradiction (Hn t).
        -- cbn [truthy]. destruct (Z.eqb_spec z 0) as [->|Hz];
             [now right|discriminate].
      * rewrite (occupation_not_text
                   strptime_date today search_sanctions customer Hn).
        reflexivity.
Qed.

Lemma screening_of_collected_customer_witness :
  Onboarding.screen_collected_customer
    Examples.strptime_date Examples.today (fun _ => [])
    Examples.customer_blank_occupation
  = Raises (Exn AttributeError).
Proof.
  assert (Hv : exists v,
             Onboarding._validate_customer_data
               Examples.strptime_date Examples.customer_blank_occupation
             = Returns v /\ Onboarding.is_valid v = true).
  { eexists. split; [vm_compute; reflexivity|reflexivity]. }
  destruct Hv as (v & Hv & Hvalid).
  destruct (screening_of_collected_customer
              Examples.strptime_date Examples.today (fun _ => [])
              Examples.customer_blank_occupation v Hv) as (_ & H).
  destruct (H Hvalid) as (_ & Hn).
  apply Hn. discriminate.
Defined.

(* ================================================================== *)
(** * Further properties: the screening report *)
(* ================================================================== *)

Module ReportFacts.

Import ReportGenerator.

(** The recommendations in three parts: what the matches say, what the
    risk level says, and the two closing sentences. *)
Lemma _generate_recommendations_parts level matches :
  _generate_recommendations level matches
  = (match matches with
     | [] => [NO_MATCHES_FOUND]
     | _ :: _ =>
         MATCHES_DETECTED
           :: (if Spec.any_of EXACT matches
               then REJECT_CUSTOMER
                      :: map match_line (firstn 3 (filter (is_type EXACT) matches))
               else [])
           ++ (if Spec.any_of PARTIAL matches
               then [ENHANCED_DUE_DILIGENCE] else [])
     end)
    ++ (match level with
        | HIGH | CRITICAL =>
            [REQUEST_DOCUMENTS; MONTHLY_MONITORING; ESCALATE]
        | MEDIUM => [ADDITIONAL_CHECKS; QUARTERLY_REVIEW]
        | LOW | VERY_LOW => [STANDARD_MONITORING]
        end)
    ++ [ARCHIVE_DOCUMENTS; SCHEDULE_NEXT_REVIEW].
Proof.
  unfold _generate_recommendations.
  rewrite !any_of_filter.
  change (fun m : match_result => match_type_eqb (match_type m) EXACT)
    with (is_type EXACT).
  change (fun m : match_result => match_type_eqb (match_type m) PARTIAL)
    with (is_type PARTIAL).
  destruct matches as [|m ms].
  - destruct level; reflexivity.
  - destruct (filter (is_type EXACT) (m :: ms)) as [|e es],
             (filter (is_type PARTIAL) (m :: ms)) as [|p ps];
      destruct level; cbn [app]; rewrite <- ?app_assoc; reflexivity.
Qed.

Lemma not_a_line (r : recommendation) (ms : list match_result) :
  (forall text, r <> MATCH_LINE text) -> ~ In r (map match_line ms).
Proof.
  intros Hr H. apply in_map_iff in H. destruct H as (m & E & _).
  unfold match_line in E. exact (Hr _ (eq_sym E)).
Qed.

Lemma in_reject level matches :
  In REJECT_CUSTOMER (_generate_recommendations level matches)
  <-> Spec.any_of EXACT matches = true.
Proof.
  rewrite _generate_recommendations_parts, !in_app_iff.
  assert (Hl : ~ In REJECT_CUSTOMER
                 (map match_line (firstn 3 (filter (is_type EXACT) matches))))
    by (apply not_a_line; discriminate).
  destruct matches as [|m ms].
  - cbn. destruct level; cbn; intuition discriminate.
  - destruct (Spec.any_of EXACT (m :: ms)), (Spec.any_of PARTIAL (m :: ms)),
      level; cbn [In app]; rewrite ?in_app_iff; cbn [In];
      intuition discriminate.
Qed.

Lemma in_no_matches level matches :
  In NO_MATCHES_FOUND (_generate_recommendations level matches)
  <-> matches = [].
Proof.
  rewrite _generate_recommendations_parts, !in_app_iff.
  assert (Hl : ~ In NO_MATCHES_FOUND
                 (map match_line (firstn 3 (filter (is_type EXACT) matches))))
    by (apply not_a_line; discriminate).
  destruct matches as [|m ms].
  - cbn. intuition.
  - destruct (Spec.any_of EXACT (m :: ms)), (Spec.any_of PARTIAL (m :: ms)),
      level; cbn [In app]; rewrite ?in_app_iff; cbn [In];
      intuition discriminate.
Qed.

Lemma in_enhanced level matches :
  In ENHANCED_DUE_DILIGENCE (_generate_recommendations level matches)
  <-> Spec.any_of PARTIAL matches = true.
Proof.
  rewrite _generate_recommendations_parts, !in_app_iff.
  assert (Hl : ~ In ENHANCED_DUE_DILIGENCE
                 (map match_line (firstn 3 (filter (is_type EXACT) matches))))
    by (apply not_a_line; discriminate).
  destruct matches as [|m ms].
  - cbn. destruct level; cbn; intuition discriminate.
  - destruct (Spec.any_of EXACT (m :: ms)), (Spec.any_of PARTIAL (m :: ms)),
      level; cbn [In app]; rewrite ?in_app_iff; cbn [In];
      intuition discriminate.
Qed.

Lemma in_escalate level matches :
  In ESCALATE (_generate_recommendations level matches)
  <-> level = HIGH \/ level = CRITICAL.
Proof.
  rewrite _generate_recommendations_parts, !in_app_iff.
  assert (Hl : ~ In ESCALATE
                 (map match_line (firstn 3 (filter (is_type EXACT) matches))))
    by (apply not_a_line; discriminate).
  destruct matches as [|m ms].
  - cbn. destruct level; cbn; intuition discriminate.
  - destruct (Spec.any_of EXACT (m :: ms)), (Spec.any_of PARTIAL (m :: ms)),
      level; cbn [In app]; rewrite ?in_app_iff; cbn [In];
      intuition discriminate.
Qed.

Lemma any_partial_of_retained (verdicts : list match_result) :
  Forall (fun v => match_type v = EXACT \/ match_type v = PARTIAL) verdicts ->
  verdicts <> [] -> Spec.any_of EXACT verdicts = false ->
  Spec.any_of PARTIAL verdicts = true.
Proof.
  intros Hall Hne He. destruct verdicts as [|v vs]; [congruence|].
  inversion Hall as [|? ? Hv _]; subst.
  unfold Spec.any_of in *. cbn [existsb] in *.
  destruct Hv as [Hv|Hv]; rewrite Hv in *; [discriminate|reflexivity].
Qed.

Lemma count_types (verdicts : list match_result) :
  Forall (fun v => match_type v = EXACT \/ match_type v = PARTIAL) verdicts ->
  length (filter (is_type EXACT) verdicts)
  + length (filter (is_type PARTIAL) verdicts) = length verdicts /\
  length (filter (is_type PARTIAL) verdicts) = Notions.other_count verdicts.
Proof.
  unfold Notions.other_count, is_type.
  induction 1 as [|v vs Hv _ IH]; [split; reflexivity|].
  cbn [filter length].
  destruct Hv as [Hv|Hv]; rewrite Hv; cbn [match_type_eqb negb length]; lia.
Qed.

Lemma filter_match_lines (ms : list match_result) :
  filter is_match_line (map match_line ms) = map match_line ms.
Proof.
  induction ms as [|m ms IH]; [reflexivity|].
  cbn [map filter match_line is_match_line]. now rewrite IH.
Qed.

Lemma match_lines level matches :
  length (filter is_match_line (_generate_recommendations level matches))
  = Nat.min 3 (length (filter (is_type EXACT) matches)).
Proof.
  rewrite _generate_recommendations_parts, !filter_app.
  rewrite any_of_filter.
  change (fun m : match_result => match_type_eqb (match_type m) EXACT)
    with (is_type EXACT).
  rewrite !length_app.
  assert (L2 : forall l,
             length (filter is_match_line
                       (match l with
                        | HIGH | CRITICAL =>
                            [REQUEST_DOCUMENTS; MONTHLY_MONITORING; ESCALATE]
                        | MEDIUM => [ADDITIONAL_CHECKS; QUARTERLY_REVIEW]
                        | LOW | VERY_LOW => [STANDARD_MONITORING]
                        end)) = 0)
    by (intros []; reflexivity).
  rewrite L2. cbn [filter is_match_line length].
  destruct matches as [|m ms]; [reflexivity|].
  generalize (filter (is_type EXACT) (m :: ms)). intros exact.
  generalize (Spec.any_of PARTIAL (m :: ms)). intros partial.
  cbn [filter is_match_line]. rewrite filter_app, length_app.
  assert (L3 : length (filter is_match_line
                         (if partial
                          then [ENHANCED_DUE_DILIGENCE] else [])) = 0)
    by (destruct partial; reflexivity).
  rewrite L3.
  destruct exact as [|e es].
  - reflexivity.
  - cbn [filter is_match_line]. rewrite filter_match_lines, length_map.
    rewrite length_firstn. lia.
Qed.

End ReportFacts.

(** X29.  The recommendations of the report agree with the screening result
    of the same run.  The report recommends to reject the customer
    exactly when the result is REJECTED, and to proceed with standard
    onboarding exactly when it is CLEAR.  When the result is
    REVIEW_REQUIRED the report asks for enhanced due diligence and for
    escalation to a senior officer, and does not recommend rejection.
    When the result is CLEAR_WITH_WARNING the recommendations are the
    same six sentences for every customer: matches detected, enhanced
    due diligence, the two sentences of a MEDIUM risk level and the two
    closing ones. *)
Theorem report_agrees_with_result
        (strptime_date : str -> option DateUtils.date)
        (today : DateUtils.date)
        (search_sanctions : pyval -> list sanction)
        (customer : pydict)
        (matches : list match_result) (assessment : risk_assessment)
        (result : disposition) :
  screen_new_customer strptime_date today search_sanctions customer
  = Ok (matches, assessment, result) ->
  let recommendations :=
    ReportGenerator.recommendations
      (Onboarding._generate_screening_report matches assessment) in
  (In ReportGenerator.REJECT_CUSTOMER recommendations
   <-> result = REJECTED) /\
  (In ReportGenerator.NO_MATCHES_FOUND recommendations
   <-> result = CLEAR) /\
  (result = REVIEW_REQUIRED ->
   In ReportGenerator.ENHANCED_DUE_DILIGENCE recommendations /\
   In ReportGenerator.ESCALATE recommendations /\
   ~ In ReportGenerator.REJECT_CUSTOMER recommendations) /\
  (result = CLEAR_WITH_WARNING ->
   recommendations
   = [ReportGenerator.MATCHES_DETECTED;
      ReportGenerator.ENHANCED_DUE_DILIGENCE;
      ReportGenerator.ADDITIONAL_CHECKS;
      ReportGenerator.QUARTERLY_REVIEW;
      ReportGenerator.ARCHIVE_DOCUMENTS;
      ReportGenerator.SCHEDULE_NEXT_REVIEW]).
Proof.
  intros H recommendations.
  destruct (screen_new_customer_steps _ _ _ _ _ _ _ H) as (Hm & Hr & Hd).
  pose proof (retained_verdicts customer
                (search_sanctions
                   (dict_get customer "full_name_en" (PyStr [])))) as Hall.
  rewrite <- Hm in Hall.
  assert (Hall' : Forall (fun v => match_type v = EXACT
                                   \/ match_type v = PARTIAL) matches).
  { eapply Forall_impl; [|exact Hall]. intros v (_ & Hv & _). exact Hv. }
  assert (Hpart : matches <> [] -> Spec.any_of EXACT matches = false ->
                  Spec.any_of PARTIAL matches = true)
    by apply (ReportFacts.any_partial_of_retained matches Hall').
  subst recommendations.
  unfold Onboarding._generate_screening_report,
    ReportGenerator.generate_screening_report.
  cbn [ReportGenerator.recommendations].
  rewrite ReportFacts.in_reject, ReportFacts.in_no_matches,
    ReportFacts.in_enhanced, ReportFacts.in_escalate.
  rewrite Hd. unfold Spec.disposition_rule.
  split; [|split; [|split]].
  - destruct matches as [|m ms]; [cbn; split; discriminate|].
    cbn [length Nat.eqb].
    destruct (Spec.any_of EXACT (m :: ms)); [tauto|].
    destruct (risk_level assessment); try (split; discriminate);
      rewrite Hpart by (discriminate || reflexivity); split; discriminate.
  - destruct matches as [|m ms]; [cbn; tauto|].
    cbn [length Nat.eqb].
    destruct (Spec.any_of EXACT (m :: ms)) eqn:Ee; [split; discriminate|].
    destruct (risk_level assessment); try (split; discriminate);
      rewrite Hpart by (discriminate || reflexivity); split; discriminate.
  - destruct matches as [|m ms]; [cbn; discriminate|].
    cbn [length Nat.eqb].
    destruct (Spec.any_of EXACT (m :: ms)) eqn:Ee; [discriminate|].
    specialize (Hpart ltac:(discriminate) eq_refl).
    destruct (risk_level assessment); rewrite ?Hpart; try discriminate;
      intros _; (split; [reflexivity|split; [auto|discriminate]]).
  - destruct (RiskFacts.calculate_customer_risk_score
                strptime_date today Config.config customer matches
                assessment default_config_valid Hr) as [Hs _].
    destruct (RiskFacts.calculate_customer_risk_steps
                strptime_date today Config.config customer matches
                assessment Hr) as (_s1 & _s5 & _ & _ & _ & Hl & _).
    rewrite fired_penalties_split in Hs.
    cbn [Config.RISK_SCORING Config.config Config.max_risk_score] in Hs.
    pose proof (high_or_critical (risk_score assessment)) as Hhc.
    rewrite <- Hl in Hhc.
    pose proof (customer_penalties_default strptime_date today customer)
      as Hc.
    cbv zeta in Hc.
    destruct (sum_match_penalty_default matches) as (H50 & H100 & Hno).
    destruct matches as [|m ms]; [cbn; discriminate|].
    cbn [length Nat.eqb].
    destruct (Spec.any_of EXACT (m :: ms)) eqn:Ee; [discriminate|].
    specialize (Hno eq_refl). specialize (Hpart ltac:(discriminate) eq_refl).
    assert (Hmedium :
              match risk_level assessment with
              | HIGH | CRITICAL => True
              | _ => risk_level assessment = MEDIUM
              end).
    { destruct (risk_level assessment) eqn:Elevel; try exact I.
      all: assert (ms = [])
        by (destruct ms; [reflexivity|cbn [length] in Hno;
                          destruct Hc as [[_ Hc]|[_ Hc]]; lia]).
      all: subst ms; cbn [length] in Hno.
      all: assert (Hscore : risk_score assessment = 50%Z)
        by (destruct Hc as [[_ Hc]|[_ Hc]]; lia).
      all: rewrite Hscore in Hl; vm_compute in Hl; congruence. }
    rewrite ReportFacts._generate_recommendations_parts, Ee, Hpart.
    destruct (risk_level assessment); try discriminate;
      try (intros _; discriminate Hmedium).
    intros _. reflexivity.
Qed.

Lemma report_agrees_with_result_witness :
  exists matches assessment,
    screen_new_customer Examples.strptime_date Examples.today
                        (fun _ => [Examples.entry_jon_smyth])
                        [("full_name_en"%string, Examples.text "Jon Smith");
                         ("occupation"%string, Examples.text "Accountant")]
    = Ok (matches, assessment, CLEAR_WITH_WARNING) /\
    ReportGenerator.recommendations
      (Onboarding._generate_screening_report matches assessment)
    = [ReportGenerator.MATCHES_DETECTED;
       ReportGenerator.ENHANCED_DUE_DILIGENCE;
       ReportGenerator.ADDITIONAL_CHECKS;
       ReportGenerator.QUARTERLY_REVIEW;
       ReportGenerator.ARCHIVE_DOCUMENTS;
       ReportGenerator.SCHEDULE_NEXT_REVIEW].
Proof.
  eexists. eexists. split; [reflexivity|].
  match goal with
  | |- _ =>
      apply (report_agrees_with_result
               Examples.strptime_date Examples.today
               (fun _ => [Examples.entry_jon_smyth])
               [("full_name_en"%string, Examples.text "Jon Smith");
                ("occupation"%string, Examples.text "Accountant")]
               _ _ CLEAR_WITH_WARNING eq_refl)
  end.
  reflexivity.
Defined.

(** X30.  The counters of the report agree with the run.  The matches of a
    screening run are EXACT or PARTIAL, so the two counters of the
    summary add up to the total, and they are the two counters that
    the risk assessment keeps in its details.  The report lists at most
    three of the exact matches by name. *)
Theorem report_counts_matches
        (strptime_date : str -> option DateUtils.date)
        (today : DateUtils.date)
        (search_sanctions : pyval -> list sanction)
        (customer : pydict)
        (matches : list match_result) (assessment : risk_assessment)
        (result : disposition) :
  screen_new_customer strptime_date today search_sanctions customer
  = Ok (matches, assessment, result) ->
  let report := Onboarding._generate_screening_report matches assessment in
  ReportGenerator.exact_matches report
  + ReportGenerator.partial_matches report
  = ReportGenerator.total_matches report /\
  details_count (risk_details assessment) "exact_matches"
  = Z.of_nat (ReportGenerator.exact_matches report) /\
  details_count (risk_details assessment) "partial_matches"
  = Z.of_nat (ReportGenerator.partial_matches report) /\
  length (filter ReportGenerator.is_match_line
                 (ReportGenerator.recommendations report))
  = Nat.min 3 (ReportGenerator.exact_matches report).
Proof.
  intros H report.
  destruct (screen_new_customer_steps _ _ _ _ _ _ _ H) as (Hm & Hr & Hd).
  pose proof (retained_verdicts customer
                (search_sanctions
                   (dict_get customer "full_name_en" (PyStr [])))) as Hall.
  rewrite <- Hm in Hall.
  assert (Hall' : Forall (fun v => match_type v = EXACT
                                   \/ match_type v = PARTIAL) matches).
  { eapply Forall_impl; [|exact Hall]. intros v (_ & Hv & _). exact Hv. }
  destruct (ReportFacts.count_types matches Hall') as (Hsum & Hother).
  destruct (RiskMore.calculate_customer_risk_trace
              strptime_date today Config.config customer matches assessment
              default_config_valid Hr)
    as (st & _ & _ & -> & _ & _ & H1 & H2).
  subst report.
  unfold Onboarding._generate_screening_report,
    ReportGenerator.generate_screening_report.
  cbn [ReportGenerator.exact_matches ReportGenerator.partial_matches
       ReportGenerator.total_matches ReportGenerator.recommendations].
  split; [exact Hsum|]. split; [exact H1|].
  split; [rewrite H2; f_equal; symmetry; exact Hother|].
  apply ReportFacts.match_lines.
Qed.

Lemma report_counts_matches_witness :
  exists matches assessment,
    screen_new_customer Examples.strptime_date Examples.today
                        (fun _ => [Examples.entry_jon_smyth])
                        [("full_name_en"%string, Examples.text "Jon Smith");
                         ("occupation"%string, Examples.text "Accountant")]
    = Ok (matches, assessment, CLEAR_WITH_WARNING) /\
    ReportGenerator.exact_matches
      (Onboarding._generate_screening_report matches assessment)
    + ReportGenerator.partial_matches
        (Onboarding._generate_screening_report matches assessment)
    = ReportGenerator.total_matches
        (Onboarding._generate_screening_report matches assessment).
Proof.
  eexists. eexists. split; [reflexivity|].
  match goal with
  | |- _ =>
      apply (report_counts_matches
               Examples.strptime_date Examples.today
               (fun _ => [Examples.entry_jon_smyth])
               [("full_name_en"%string, Examples.text "Jon Smith");
                ("occupation"%string, Examples.text "Accountant")]
               _ _ CLEAR_WITH_WARNING eq_refl)
  end.
Defined.
